(** * mooshak_problems_targz.py: a shallow embedding of [build_archive]

    The script packs contest problem directories into a gzip-compressed
    tar archive together with an XML manifest ([Content.xml]).  This file
    embeds [build_archive] (lines 44-164 of [mooshak_problems_targz.py])
    as a state-and-exception computation over an explicit world: the
    log, the temporary staging directory and the output archive.  The
    source tree that is only read is an environment of queries.  Of
    [main] (lines 166-197) it embeds what follows the parsing of the
    command line: the choice of the verbosity and the call of
    [build_archive], from the namespace the parser returned.

    Conventions.
    - A Python [str] is a Rocq [string]; its characters are the code
      points U+0000..U+00FF, compared by code point as Python does.
    - A [pathlib.Path] is the list of its parts; comparison of paths is
      the lexicographic comparison of the part lists.
    - File contents are [list byte].
    - Library calls ([pathlib], [shutil], [tarfile], [tempfile],
      [xml.etree.ElementTree], [logging]) are modelled by what they do to
      the world; the line numbers in the comments point into the source. *)

From Stdlib Require Import ZArith String Ascii List Lia.
From Stdlib.Strings Require Import Byte.
From Stdlib Require DecimalString.
From stdpp Require Import base option list sorting gmap strings.

Set Warnings "-register-all".

Open Scope string_scope.
Open Scope list_scope.

(** ** Python values and exceptions *)

(** Instances of [int]: [bool] is a subclass of [int], so
    [isinstance(True, int)] holds. *)
Inductive pyint :=
  | PInt (z : Z)
  | PBool (b : bool).

(** The values the [timeouts] argument can be bound to. *)
Inductive pyval :=
  | VInt (i : pyint)
  | VStr (s : string)
  | VNone
  | VList (l : list pyval).

(** [isinstance(v, int)], returning the integer when it holds. *)
Definition as_int (v : pyval) : option pyint :=
  match v with
  | VInt i => Some i
  | _ => None
  end.

Definition isinstance_int (v : pyval) : bool :=
  match as_int v with Some _ => true | None => false end.

(** [str(t)] for an instance of [int]. *)
Definition str_int (t : pyint) : string :=
  match t with
  | PInt z => DecimalString.NilZero.string_of_int (Z.to_int z)
  | PBool true => "True"
  | PBool false => "False"
  end.

Inductive exn :=
  | ValueError (msg : string)
  | IndexError (msg : string)
  | FileExistsError (path : list string)
  | FileNotFoundError (path : list string)
  | IsADirectoryError (path : list string)
  | NotADirectoryError (path : list string)
  | UnicodeDecodeError.

(** ** Paths *)

Abbreviation Path := (list string) (only parsing).

(** [", ".join(l)] and ["/".join(l)]. *)
Fixpoint join (sep : string) (l : list string) : string :=
  match l with
  | [] => ""
  | [s] => s
  | s :: l' => s +:+ sep +:+ join sep l'
  end.

(** [str(p)]: the parts joined by the separator, ["."] for the empty
    path. *)
Definition path_str (p : Path) : string :=
  match p with
  | [] => "."
  | _ => join "/" p
  end.

(** [p.name]: the final part, the empty string when there is none. *)
Definition name (p : Path) : string := default "" (last p).

(** [p / s] for a string [s] holding one component: empty and ["."]
    components are dropped by the path parser. *)
Definition joinpath (p : Path) (s : string) : Path :=
  if decide (s = "" ∨ s = ".") then p else p ++ [s].

(** ** The world *)

Inductive level := DEBUG | INFO | WARNING | ERROR | CRITICAL.

(** An object of the staging tree or a member of the archive. *)
Inductive obj :=
  | ODir
  | OFile (data : list byte).

(** The archive under construction: its members in the order they were
    added, and whether [close] has been called. *)
Record tarfile := TarFile {
  members : list (Path * obj);
  closed : bool
}.

(** [log]: the records handed to [logging], oldest first.
    [tmpdir]: the staging directory, [None] while it does not exist;
    keys are paths relative to it, the empty path being the directory
    itself.
    [archivefile]: the output archive, [None] while the file does not
    exist. *)
Record World := MkWorld {
  log : list (level * string);
  tmpdir : option (gmap (list string) obj);
  archivefile : option tarfile
}.

Definition set_log (l : list (level * string)) (w : World) : World :=
  MkWorld l (tmpdir w) (archivefile w).
Definition set_tmpdir (t : option (gmap (list string) obj)) (w : World) : World :=
  MkWorld (log w) t (archivefile w).
Definition set_archivefile (a : option tarfile) (w : World) : World :=
  MkWorld (log w) (tmpdir w) a.

(** Appending records to the log and nothing else. *)
Definition add_log (msgs : list (level * string)) (w : World) : World :=
  set_log (log w ++ msgs) w.

(** ** The state-and-exception monad

    A statement transforms the world and either completes with a value
    or raises; what it did to the world before raising persists. *)

Definition M (A : Type) : Type := World → (exn + A) * World.

Global Instance M_ret : MRet M := λ A a w, (inr a, w).
Global Instance M_bind : MBind M := λ A B k m w,
  match m w with
  | (inl e, w') => (inl e, w')
  | (inr a, w') => k a w'
  end.

Definition raise {A} (e : exn) : M A := λ w, (inl e, w).

Definition logging (lv : level) (msg : string) : M unit :=
  λ w, (inr tt, add_log [(lv, msg)] w).

(** A [for] loop whose body may raise: the first exception ends it.
    [s] holds the local variables the body rebinds or mutates. *)
Fixpoint for_fold {A S} (body : S → A → M S) (s : S) (l : list A) : M S :=
  match l with
  | [] => mret s
  | x :: l' => s' ← body s x; for_fold body s' l'
  end.

(** ** Timeout resolution (lines 51-70) *)

(** Lines 55-58: the loop over [timeouts] that raises at the first
    element that is not an [int]. *)
Fixpoint check_ints (l : list pyval) : M (list pyint) :=
  match l with
  | [] => mret []
  | v :: l' =>
      match as_int v with
      | None =>
          logging CRITICAL "timeouts must be a list of ints" ;;
          raise (ValueError "timeouts must be a list of ints")
      | Some t => ts ← check_ints l'; mret (t :: ts)
      end
  end.

(** Lines 51-68, for [n = len(problems)].  [k - len] on naturals is the
    list repetition [[x] * k], which is empty for [k <= 0]. *)
Definition resolve_timeouts (timeouts : pyval) (n : nat) : M (list pyint) :=
  match timeouts with
  | VInt t =>
      logging INFO "timeouts is a single value, using as default for all problems" ;;
      mret (replicate n t)
  | VList l =>
      ts ← check_ints l;
      if decide (length ts ≠ n) then
        match ts with
        | [t] =>
            logging INFO "timeouts is a single value, using as default for all problems" ;;
            mret (replicate n t)
        | _ =>
            logging WARNING "len(timeouts) != len(problems), replicating last timeout" ;;
            match last ts with
            | None => raise (IndexError "list index out of range")
            | Some t => mret (ts ++ replicate (n - length ts) t)
            end
        end
      else mret ts
  | _ =>
      logging CRITICAL "timeouts must be an int or a list" ;;
      raise (ValueError "timeouts must be an int or a list")
  end.

(** ** Ordering of strings and paths

    Python compares strings by code point and sequences
    lexicographically, a proper prefix being smaller. *)

Section lex.
Context {A : Type} (cmp : A → A → comparison).

Fixpoint lex_compare (l1 l2 : list A) : comparison :=
  match l1, l2 with
  | [], [] => Eq
  | [], _ :: _ => Lt
  | _ :: _, [] => Gt
  | x1 :: l1', x2 :: l2' =>
      match cmp x1 x2 with
      | Eq => lex_compare l1' l2'
      | c => c
      end
  end.
End lex.

(** [p < q] on [pathlib.Path] objects: the part lists are compared, each
    part as a string. *)
Definition path_compare : Path → Path → comparison := lex_compare String.compare.

Definition str_le (s t : string) : Prop := String.compare s t ≠ Gt.
Definition path_le (p q : Path) : Prop := path_compare p q ≠ Gt.

Global Instance str_le_dec s t : Decision (str_le s t).
Proof. unfold str_le. destruct (String.compare s t); (left; discriminate) || (right; tauto). Defined.
Global Instance path_le_dec p q : Decision (path_le p q).
Proof. unfold path_le. destruct (path_compare p q); (left; discriminate) || (right; tauto). Defined.

(** [sorted(l)] and [l.sort()]: both orders are total, so the stable
    sort returns the one ascending arrangement of [l]. *)
Definition sorted_paths (l : list Path) : list Path := merge_sort path_le l.
Definition sorted_strs (l : list string) : list string := merge_sort str_le l.

(** ** String operations *)

(** [s.endswith(suf)]. *)
Definition endswith (s suf : string) : bool :=
  let n := String.length s in
  let m := String.length suf in
  (m <=? n)%nat && String.eqb (substring (n - m) m s) suf.

(** [s in t] for strings: [s] occurs in [t] as a contiguous substring. *)
Fixpoint str_in (s t : string) : bool :=
  String.prefix s t ||
  match t with
  | EmptyString => false
  | String _ t' => str_in s t'
  end.

(** [string.ascii_uppercase]. *)
Definition ascii_uppercase : string := "ABCDEFGHIJKLMNOPQRSTUVWXYZ".

(** [s.rfind(c)]: the index of the last occurrence, [None] for -1. *)
Fixpoint rfind (c : ascii) (s : string) : option nat :=
  match s with
  | EmptyString => None
  | String a s' =>
      match rfind c s' with
      | Some i => Some (S i)
      | None => if Ascii.eqb a c then Some 0 else None
      end
  end.

(** [PurePath.stem] on the final component [nm]:
    [i = nm.rfind('.')], and [nm[:i]] when [0 < i < len(nm) - 1],
    otherwise [nm] itself. *)
Definition stem_of_name (nm : string) : string :=
  match rfind "." nm with
  | Some i =>
      if (0 <? i)%nat && (i <? String.length nm - 1)%nat then substring 0 i nm else nm
  | None => nm
  end.

Definition stem (p : Path) : string := stem_of_name (name p).

(** ** The environment: what the run reads and does not change *)

(** The source tree as the queries [build_archive] makes of it, paths
    being relative to the working directory.  [iterdir p] lists the
    names in directory [p] in the order the file system enumerates
    them.  [tmpname] is the name [tempfile] picks for the staging
    directory and [xmlfile_repr] what the open manifest file prints as;
    both only reach the debug log.  [text_lines bs] is what reading a file with contents
    [bs] in text mode yields under the locale's encoding, as the list of
    its stripped lines; [None] when decoding raises. *)
Record Env := MkEnv {
  is_dir : Path → bool;
  is_file : Path → bool;
  iterdir : Path → list string;
  read_bytes : Path → list byte;
  tmpname : string;
  xmlfile_repr : string;
  text_lines : list byte → option (list string)
}.

Section discovery.
Context (env : Env).

(** [dir.glob("*" + suf)]: the entries of [dir] whose name ends in
    [suf], hidden ones included, in enumeration order. *)
Definition glob (dir : Path) (suf : string) : list Path :=
  (λ nm, dir ++ [nm]) <$> filter (λ nm, endswith nm suf = true) (iterdir env dir).

(** Lines 45-47: the list given, or the directories of the working
    directory. *)
Definition problem_list (problems : option (list Path)) : list Path :=
  match problems with
  | None => filter (λ p, is_dir env p = true) ((λ nm, [nm]) <$> iterdir env [])
  | Some ps => ps
  end.

(** Lines 45-49, with [problems.sort()]. *)
Definition discover (problems : option (list Path)) : M (list Path) :=
  match problems with
  | None => logging INFO "Missing problem directories, using those in current path"
  | Some _ => mret tt
  end ;;
  let ps := sorted_paths (problem_list problems) in
  logging INFO ("Using problem directories: " +:+ join ", " (path_str <$> ps)) ;;
  mret ps.
End discovery.

(** ** The staging directory *)

(** The kernel resolves a [".."] component against the directory
    reached so far. *)
Definition resolve (p : Path) : Path :=
  foldl (λ acc part, if decide (part = "..") then removelast acc else acc ++ [part]) [] p.

(** What a system call on [q] inside the staging directory [t] needs of
    the parent of [q]. *)
Definition parent_error (t : gmap (list string) obj) (q : Path) : option exn :=
  match t !! removelast q with
  | Some ODir => None
  | Some (OFile _) => Some (NotADirectoryError q)
  | None => Some (FileNotFoundError q)
  end.

(** [p.mkdir(mode=0o755)] for [p] below the staging directory. *)
Definition mkdir (p : Path) : M unit := λ w,
  match tmpdir w with
  | None => (inl (FileNotFoundError p), w)
  | Some t =>
      let q := resolve p in
      match t !! q with
      | Some _ => (inl (FileExistsError p), w)
      | None =>
          match parent_error t q with
          | Some e => (inl e, w)
          | None => (inr tt, set_tmpdir (Some (<[q := ODir]> t)) w)
          end
      end
  end.

(** [open(p, "wb")]: the file is created empty, or truncated. *)
Definition open_wb (p : Path) : M unit := λ w,
  match tmpdir w with
  | None => (inl (FileNotFoundError p), w)
  | Some t =>
      let q := resolve p in
      match t !! q with
      | Some ODir => (inl (IsADirectoryError p), w)
      | _ =>
          match parent_error t q with
          | Some e => (inl e, w)
          | None => (inr tt, set_tmpdir (Some (<[q := OFile []]> t)) w)
          end
      end
  end.

(** [f.write(data)] and the close, for the file [f] opened at [p]. *)
Definition file_write (p : Path) (data : list byte) : M unit := λ w,
  match tmpdir w with
  | Some t => (inr tt, set_tmpdir (Some (<[resolve p := OFile data]> t)) w)
  | None => (inr tt, w)
  end.

(** A file opened for writing, written once and closed. *)
Definition write_file (p : Path) (data : list byte) : M unit :=
  open_wb p ;; file_write p data.

(** [open(p, "r")]: the bytes the reads will decode. *)
Definition open_r (p : Path) : M (list byte) := λ w,
  match tmpdir w with
  | None => (inl (FileNotFoundError p), w)
  | Some t =>
      match t !! resolve p with
      | None => (inl (FileNotFoundError p), w)
      | Some ODir => (inl (IsADirectoryError p), w)
      | Some (OFile data) => (inr data, w)
      end
  end.

(** [f.readlines()] on a file opened in text mode, each line
    stripped. *)
Definition readlines (env : Env) (data : list byte) : M (list string) :=
  match text_lines env data with
  | None => raise UnicodeDecodeError
  | Some ls => mret ls
  end.

(** [shutil.copy(src, dst)] from the source tree into the staging
    directory: a destination that is a directory receives the file
    under the name of [src]. *)
Definition shutil_copy (env : Env) (src dst : Path) : M unit := λ w,
  if is_file env src then
    let dst' :=
      match tmpdir w with
      | Some t =>
          match t !! resolve dst with
          | Some ODir => dst ++ [name src]
          | _ => dst
          end
      | None => dst
      end in
    write_file dst' (read_bytes env src) w
  else if is_dir env src then (inl (IsADirectoryError src), w)
  else (inl (FileNotFoundError src), w).

(** [with tempfile.TemporaryDirectory() as tmpdir: body]: the directory
    is created empty, and removed with all it holds when the block is
    left, by completion or by an exception. *)
Definition with_TemporaryDirectory {A} (body : M A) : M A := λ w,
  let '(r, w') := body (set_tmpdir (Some {[ [] := ODir ]}) w) in
  (r, set_tmpdir None w').

(** ** The archive *)

(** [tarfile.open(archive, "w:gz")]: the file is created, or truncated. *)
Definition tarfile_open : M unit := λ w,
  (inr tt, set_archivefile (Some (TarFile [] false)) w).

(** The objects of the staging directory [t] at and below [src], in
    ascending order of path, renamed to live under [arc]. *)
Definition tree_members (t : gmap (list string) obj) (src arc : Path) : list (Path * obj) :=
  (λ kv, (arc ++ drop (length src) kv.1, kv.2)) <$>
    merge_sort (λ x y, path_le x.1 y.1)
      (filter (λ kv, src `prefix_of` kv.1) (map_to_list t)).

(** [archivefile.add(src, arcname=arc)] for [src] in the staging
    directory.  [add] is recursive: a directory is added, then each of
    its entries in sorted order of name; this pre-order is the ascending
    order of the paths. *)
Definition tarfile_add (src arc : Path) : M unit := λ w,
  match archivefile w, tmpdir w with
  | Some a, Some t =>
      if closed a then (inl (ValueError "I/O operation on closed file"), w)
      else
        match t !! resolve src with
        | None => (inl (FileNotFoundError src), w)
        | Some _ =>
            (inr tt, set_archivefile
              (Some (TarFile (members a ++ tree_members t (resolve src) arc) false)) w)
        end
  | _, _ => (inl (FileNotFoundError src), w)
  end.

(** [archivefile.close()]. *)
Definition tarfile_close : M unit := λ w,
  match archivefile w with
  | Some a => (inr tt, set_archivefile (Some (TarFile (members a) true)) w)
  | None => (inr tt, w)
  end.

(** ** The XML tree *)

(** An [xml.etree.ElementTree.Element]: tag, attributes in insertion
    order, children.  The script sets no text. *)
Inductive Element :=
  | Elem (tag : string) (attrib : list (string * string)) (children : list Element).

Definition children (e : Element) : list Element :=
  match e with Elem _ _ cs => cs end.

(** A reference to an element of the tree: the child indexes leading to
    it from the root.  Python variables such as [xmlproblem] alias a
    node inside the tree held by [xmlproblems]. *)
Abbreviation handle := (list nat) (only parsing).

Fixpoint update_at (h : handle) (f : Element → Element) (e : Element) : Element :=
  match h with
  | [] => f e
  | i :: h' =>
      match e with
      | Elem tag attrib cs => Elem tag attrib (alter (update_at h' f) i cs)
      end
  end.

Fixpoint element_at (h : handle) (e : Element) : option Element :=
  match h with
  | [] => Some e
  | i :: h' => children e !! i ≫= element_at h'
  end.

(** [d[k] = v] on a dictionary kept in insertion order. *)
Fixpoint dict_set (k v : string) (d : list (string * string)) : list (string * string) :=
  match d with
  | [] => [(k, v)]
  | (k', v') :: d' => if decide (k' = k) then (k, v) :: d' else (k', v') :: dict_set k v d'
  end.

(** [ET.Element(tag)]. *)
Definition ET_Element (tag : string) : Element := Elem tag [] [].

(** [elem.set(k, v)] for the element [h] refers to. *)
Definition ET_set (h : handle) (k v : string) (root : Element) : Element :=
  update_at h (λ e, match e with Elem tag attrib cs => Elem tag (dict_set k v attrib) cs end) root.

(** [ET.SubElement(parent, tag)] for the parent [h] refers to: the tree
    with the new child appended, and the reference to the child. *)
Definition ET_SubElement (h : handle) (tag : string) (root : Element) : Element * handle :=
  let n := match element_at h root with Some e => length (children e) | None => 0 end in
  (update_at h (λ e, match e with Elem t a cs => Elem t a (cs ++ [ET_Element tag]) end) root,
   h ++ [n]).

(** The quotation mark. *)
Definition quot : string := String (ascii_of_nat 34) EmptyString.

(** The serializer's escaping of one character of an attribute value. *)
Definition escape_attrib_char (c : ascii) : string :=
  if Ascii.eqb c "&" then "&amp;"
  else if Ascii.eqb c "<" then "&lt;"
  else if Ascii.eqb c ">" then "&gt;"
  else if Ascii.eqb c (ascii_of_nat 34) then "&quot;"
  else if Ascii.eqb c (ascii_of_nat 13) then "&#13;"
  else if Ascii.eqb c (ascii_of_nat 10) then "&#10;"
  else if Ascii.eqb c (ascii_of_nat 9) then "&#09;"
  else String c EmptyString.

Fixpoint escape_attrib (s : string) : string :=
  match s with
  | EmptyString => EmptyString
  | String c s' => escape_attrib_char c +:+ escape_attrib s'
  end.

Definition serialize_attrib (kv : string * string) : string :=
  " " +:+ kv.1 +:+ "=" +:+ quot +:+ escape_attrib kv.2 +:+ quot.

Definition concat_str (l : list string) : string := foldr String.append "" l.

(** An element without children and text is written as an empty
    element. *)
Fixpoint serialize (e : Element) : string :=
  match e with
  | Elem tag attrib cs =>
      "<" +:+ tag +:+ concat_str (serialize_attrib <$> attrib) +:+
      match cs with
      | [] => " />"
      | _ => ">" +:+ concat_str (map serialize cs) +:+ "</" +:+ tag +:+ ">"
      end
  end.

Definition newline : string := String (ascii_of_nat 10) EmptyString.

Definition xml_declaration : string :=
  "<?xml version='1.0' encoding='ISO-8859-1'?>" +:+ newline.

(** [ET.tostring(e, encoding="ISO-8859-1", xml_declaration=True)]: every
    character of the model is a code point below 256 and is encoded as
    the byte of that value. *)
Definition ET_tostring (e : Element) : list byte :=
  list_byte_of_string (xml_declaration +:+ serialize e).

(** ** The loop over the problems (lines 79-149) *)

(** The variables bound by the checks of lines 80-122 for a problem that
    passes them all. *)
Record checked := Checked {
  pname : string;
  descriptionfile : Path;
  inputs : list Path;
  outputs : list Path;
  inputsstems : list string
}.

Definition ignoring (p : Path) : M unit :=
  logging WARNING ("Ignoring problem " +:+ path_str p).

Section problems.
Context (env : Env).

(** Lines 80-122: the checks, in order.  [None] is the [continue] of a
    failed check, after its log records. *)
Definition check_problem (p : Path) : M (option checked) :=
  if negb (is_dir env p) then
    logging WARNING ("Problem '" +:+ path_str p +:+ "' is not a directory") ;;
    ignoring p ;; mret None
  else
  let pname := name p in
  if negb (str_in pname ascii_uppercase) then
    logging WARNING ("Directory name '" +:+ pname +:+ "' is not an ascii uppercase letter") ;;
    ignoring p ;; mret None
  else
  let descriptionfile := joinpath p "description.html" in
  if negb (is_file env descriptionfile) then
    logging WARNING ("Missing file '" +:+ path_str descriptionfile +:+ "'") ;;
    ignoring p ;; mret None
  else
  let testsdir := joinpath p "tests" in
  if negb (is_dir env testsdir) then
    logging WARNING ("Missing tests directory '" +:+ path_str testsdir +:+ "'") ;;
    ignoring p ;; mret None
  else
  let inputs := sorted_paths (glob env testsdir ".in") in
  if decide (length inputs = 0) then
    logging WARNING ("Could not find inputs with '" +:+ path_str testsdir +:+ "/*.in' pattern") ;;
    ignoring p ;; mret None
  else
  let outputs := sorted_paths (glob env testsdir ".out") in
  if decide (length outputs = 0) then
    logging WARNING ("Could not find outputs with '" +:+ path_str testsdir +:+ "/*.out' pattern") ;;
    ignoring p ;; mret None
  else
  let inputsstems := stem <$> inputs in
  let outputsstems := stem <$> outputs in
  if decide (inputsstems ≠ outputsstems) then
    logging WARNING "Inputs and outputs filenames do not match" ;;
    logging DEBUG ("inputs: " +:+ join ", " inputsstems) ;;
    logging DEBUG ("outputs: " +:+ join ", " outputsstems) ;;
    ignoring p ;; mret None
  else
    mret (Some (Checked pname descriptionfile inputs outputs inputsstems)).

(** Lines 140-147: the body of the loop over the test cases.  [root]
    is the tree held by [xmlproblems] and [xmltests] refers into it;
    [testsdir] is the staged [tests] directory. *)
Definition stage_test (pname : string) (testsdir : Path) (xmltests : handle)
    (root : Element) (x : Path * Path * string) : M Element :=
  let '(inp, out, nm) := x in
  let '(root, xmltest) := ET_SubElement xmltests "Test" root in
  let root := ET_set xmltest "xml:id" (pname +:+ ".tests." +:+ nm) root in
  let root := ET_set xmltest "input" (name inp) root in
  let root := ET_set xmltest "output" (name out) root in
  let testdir := joinpath testsdir nm in
  mkdir testdir ;;
  shutil_copy env inp (joinpath testdir (name inp)) ;;
  shutil_copy env out (joinpath testdir (name out)) ;;
  mret root.

(** Lines 124-149, for a problem that passed the checks.  Paths below
    the staging directory are written relative to it. *)
Definition stage_problem (c : checked) (t : pyint) (root : Element) : M Element :=
  let '(root, xmlproblem) := ET_SubElement [] "Problem" root in
  let root := ET_set xmlproblem "xml:id" (pname c) root in
  let root := ET_set xmlproblem "Name" (pname c) root in
  let root := ET_set xmlproblem "Title" (pname c) root in
  let root := ET_set xmlproblem "Description" "description.html" root in
  let root := ET_set xmlproblem "Timeout" (str_int t) root in
  let problemdir := joinpath [] (pname c) in
  mkdir problemdir ;;
  shutil_copy env (descriptionfile c) (joinpath problemdir "description.html") ;;
  let testsdir := joinpath problemdir "tests" in
  mkdir testsdir ;;
  let '(root, xmltests) := ET_SubElement xmlproblem "Tests" root in
  let root := ET_set xmltests "xml:id" (pname c +:+ ".tests") root in
  root ← for_fold (stage_test (pname c) testsdir xmltests) root
            (zip (zip (inputs c) (outputs c)) (inputsstems c));
  tarfile_add problemdir [pname c] ;;
  mret root.

(** Lines 79-149: one turn of the loop over the problems. *)
Definition process_problem (root : Element) (pt : Path * pyint) : M Element :=
  c ← check_problem pt.1;
  match c with
  | None => mret root
  | Some c => stage_problem c pt.2 root
  end.

(** ** [build_archive] (lines 44-164) *)

(** Lines 157-161: the manifest is read back for the debug log. *)
Definition log_contents : M unit :=
  data ← open_r ["Content.xml"];
  logging DEBUG "Content.xml contents BEGIN" ;;
  ls ← readlines env data;
  for_fold (λ _ line, logging DEBUG line) tt ls ;;
  logging DEBUG "Content.xml contents END".

(** Lines 151-164: the manifest is written, read back, added to the
    archive, and the archive is closed. *)
Definition write_manifest (xmlproblems : Element) : M unit :=
  open_wb ["Content.xml"] ;;
  logging DEBUG ("Using xmlfile: " +:+ xmlfile_repr env) ;;
  file_write ["Content.xml"] (ET_tostring xmlproblems) ;;
  log_contents ;;
  tarfile_add ["Content.xml"] ["Content.xml"] ;;
  tarfile_close.

(** Lines 74-164: the block under the temporary directory. *)
Definition staging_block (problems : list Path) (timeouts : list pyint) : M unit :=
  logging DEBUG ("Using temporary directory: " +:+ tmpname env) ;;
  let xmlproblems := ET_set [] "Presents" "radio" (ET_Element "Problems") in
  xmlproblems ← for_fold process_problem xmlproblems (zip problems timeouts);
  write_manifest xmlproblems.

Definition build_archive (problems : option (list Path)) (timeouts : pyval) : M unit :=
  problems ← discover env problems;
  timeouts ← resolve_timeouts timeouts (length problems);
  logging INFO ("Using timeouts: " +:+ join ", " (str_int <$> timeouts)) ;;
  tarfile_open ;;
  with_TemporaryDirectory (staging_block problems timeouts).
End problems.

(** ** Concrete source trees *)

Inductive node :=
  | File (data : list byte)
  | Dir (entries : list (string * node)).

Fixpoint assoc {A} (k : string) (l : list (string * A)) : option A :=
  match l with
  | [] => None
  | (k', v) :: l' => if decide (k' = k) then Some v else assoc k l'
  end.

Fixpoint node_at (p : Path) (n : node) : option node :=
  match p with
  | [] => Some n
  | s :: p' =>
      match n with
      | Dir es => assoc s es ≫= node_at p'
      | File _ => None
      end
  end.

(** Text read under a locale whose encoding is ISO-8859-1: the lines,
    without their line ends. *)
Fixpoint split_lines (cur : string) (s : string) : list string :=
  match s with
  | EmptyString => if decide (cur = "") then [] else [cur]
  | String c s' =>
      if Ascii.eqb c (ascii_of_nat 10) then cur :: split_lines "" s'
      else split_lines (cur +:+ String c EmptyString) s'
  end.

(** The environment of a working directory [root] whose entries are
    enumerated in the order they are listed. *)
Definition env_of (root : node) : Env := {|
  is_dir p := match node_at p root with Some (Dir _) => true | _ => false end;
  is_file p := match node_at p root with Some (File _) => true | _ => false end;
  iterdir p := match node_at p root with Some (Dir es) => es.*1 | _ => [] end;
  read_bytes p := match node_at p root with Some (File d) => d | _ => [] end;
  tmpname := "/tmp/tmpdir";
  xmlfile_repr := "<_io.BufferedWriter name='/tmp/tmpdir/Content.xml'>";
  text_lines bs := Some (split_lines "" (string_of_list_byte bs))
|}.

Definition w0 : World := MkWorld [] None None.

Definition problem_dir (tests : list string) : node :=
  Dir [("description.html", File (list_byte_of_string "<p>hi</p>"));
       ("tests", Dir ((λ nm, (nm, File (list_byte_of_string nm))) <$> tests))].

Definition cwd_AB : node :=
  Dir [("B", problem_dir ["1.out"; "1.in"]); ("A", problem_dir ["1.in"; "1.out"])].

(** ** The command line (lines 166-197) *)

(** What [parser.parse_args()] returns when it returns: the namespace
    with the attributes of the four arguments declared in lines 173-190.
    Paths are relative to the working directory. *)
Record Namespace := MkNamespace {
  arg_p : option (list Path);
  arg_t : pyval;
  arg_a : Path;
  arg_v : string
}.

(** The dictionary of lines 183-188, in insertion order. *)
Definition logging_level : list (string * level) :=
  [("debug", DEBUG); ("info", INFO); ("warning", WARNING); ("error", ERROR)].

(** The numeric value and the name of a level of [logging]. *)
Definition levelno (lv : level) : nat :=
  match lv with
  | DEBUG => 10
  | INFO => 20
  | WARNING => 30
  | ERROR => 40
  | CRITICAL => 50
  end.

Definition levelname (lv : level) : string :=
  match lv with
  | DEBUG => "DEBUG"
  | INFO => "INFO"
  | WARNING => "WARNING"
  | ERROR => "ERROR"
  | CRITICAL => "CRITICAL"
  end.

(** The format ["%(levelname)s: %(message)s"] of line 195. *)
Definition format_record (r : level * string) : string :=
  levelname r.1 +:+ ": " +:+ r.2.

(** What the handler installed by [logging.basicConfig(level=lv, ...)]
    writes for the records [l]: one entry for each record whose level is
    at least [lv]. *)
Definition handled (lv : level) (l : list (level * string)) : list string :=
  format_record <$> filter (λ r, (levelno lv ≤ levelno r.1)%nat) l.

(** The exceptions [main] can end with: the [KeyError] of a failed
    lookup in [logging_level], or what [build_archive] raised. *)
Inductive main_exn :=
  | KeyError (key : string)
  | Raised (e : exn).

(** How a run of [main] ends: with an exception or not, the world it
    leaves, and what the logging handler wrote. *)
Record outcome := Outcome {
  status : main_exn + unit;
  world : World;
  handler_output : list string
}.

(** Lines 192-197, from the namespace [args] that [parse_args] returned,
    in a process that starts with an empty log and no staging directory;
    [archive0] is the file named by [args.a] as the process finds it.
    The subscript [logging_level[args.v]] is evaluated before
    [basicConfig] is called. *)
Definition main (env : Env) (args : Namespace) (archive0 : option tarfile) : outcome :=
  let w := MkWorld [] None archive0 in
  match assoc (arg_v args) logging_level with
  | None => Outcome (inl (KeyError (arg_v args))) w []
  | Some lv =>
      let '(r, w') := build_archive env (arg_p args) (arg_t args) w in
      Outcome (match r with inl e => inl (Raised e) | inr u => inr u end)
              w' (handled lv (log w'))
  end.

(** * Vocabulary of the properties *)

(** ** Computations that only log *)

(** A computation that only logs: it completes with [a] and appends
    [msgs] to the log. *)
Definition logs_only {A} (m : M A) (a : A) (msgs : list (level * string)) : Prop :=
  ∀ w, m w = (inr a, add_log msgs w).

(** ** Timeouts *)

(** The documented reconciliation of a timeout specification with [n]
    problems: what each valid shape resolves to. *)
Inductive documented_rule (n : nat) : pyval → list pyint → Prop :=
  | rule_scalar t :
      documented_rule n (VInt t) (replicate n t)
  | rule_single t :
      documented_rule n (VList [VInt t]) (replicate n t)
  | rule_exact ts :
      length ts = n →
      documented_rule n (VList (VInt <$> ts)) ts
  | rule_pad ts t :
      1 < length ts < n → last ts = Some t →
      documented_rule n (VList (VInt <$> ts)) (ts ++ replicate (n - length ts) t).

(** ** Comparisons *)

(** A three-way comparison that decides a strict total order. *)
Record total_cmp {A} (cmp : A → A → comparison) : Prop := {
  cmp_eq a b : cmp a b = Eq → a = b;
  cmp_antisym a b : cmp a b = CompOpp (cmp b a);
  cmp_lt_trans a b c : cmp a b = Lt → cmp b c = Lt → cmp a c = Lt
}.

Section cmp_le.
Context {A : Type} (cmp : A → A → comparison).

(** The order a three-way comparison decides. *)
Definition cmp_le (a b : A) : Prop := cmp a b ≠ Gt.
End cmp_le.

(** ** The validation checks *)

Section checks.
Context (env : Env).

(** The sorted [*.in] and [*.out] entries of the [tests] directory of
    problem [p]. *)
Definition inputs_of (p : Path) : list Path :=
  sorted_paths (glob env (joinpath p "tests") ".in").
Definition outputs_of (p : Path) : list Path :=
  sorted_paths (glob env (joinpath p "tests") ".out").

(** The seven conditions of lines 80-117, in the order they are
    tested. *)
Definition passes_checks (p : Path) : bool :=
  is_dir env p
  && str_in (name p) ascii_uppercase
  && is_file env (joinpath p "description.html")
  && is_dir env (joinpath p "tests")
  && bool_decide (length (inputs_of p) ≠ 0)
  && bool_decide (length (outputs_of p) ≠ 0)
  && bool_decide (stem <$> inputs_of p = stem <$> outputs_of p).

(** What the loop body binds for a problem that passes. *)
Definition checked_of (p : Path) : option checked :=
  if passes_checks p then
    Some (Checked (name p) (joinpath p "description.html")
            (inputs_of p) (outputs_of p) (stem <$> inputs_of p))
  else None.

End checks.

(** ** The staging tree and the archive *)

(** The staging directory itself is present, and every other object
    lies in a directory that is present. *)
Definition wf_tree (t : gmap (list string) obj) : Prop :=
  t !! [] = Some ODir ∧
  ∀ k v, t !! k = Some v → k ≠ [] → t !! removelast k = Some ODir.

(** From [t] to [t'] only paths at or below [q] changed. *)
Definition only_below (t t' : gmap (list string) obj) (q : Path) : Prop :=
  ∀ k, ¬ q `prefix_of` k → t' !! k = t !! k.

(** The test cases of a checked problem, as the loop of line 139 pairs
    them. *)
Definition test_cases (c : checked) : list (Path * Path * string) :=
  zip (zip (inputs c) (outputs c)) (inputsstems c).

(** The files of a test case carry the suffixes the globs select. *)
Definition test_files_ok (x : Path * Path * string) : Prop :=
  endswith (name x.1.1) ".in" = true ∧ endswith (name x.1.2) ".out" = true.

(** What the staging tree [t] holds of test case [x] below [td]. *)
Definition test_staged (env : Env) (t : gmap (list string) obj) (td : Path)
    (x : Path * Path * string) : Prop :=
  t !! (td ++ [x.2]) = Some ODir ∧
  t !! (td ++ [x.2; name x.1.1]) = Some (OFile (read_bytes env x.1.1)) ∧
  t !! (td ++ [x.2; name x.1.2]) = Some (OFile (read_bytes env x.1.2)).

(** What the staging tree [t] holds of a checked problem. *)
Definition problem_staged (env : Env) (t : gmap (list string) obj) (c : checked) : Prop :=
  t !! [pname c] = Some ODir ∧
  t !! [pname c; "description.html"] = Some (OFile (read_bytes env (descriptionfile c))) ∧
  ∀ x, x ∈ test_cases c → test_staged env t [pname c; "tests"] x.

(** The members [ms] hold the description and the test files of the
    checked problem [c], each with the bytes of its source file. *)
Definition archive_holds (env : Env) (ms : list (Path * obj)) (c : checked) : Prop :=
  ([pname c; "description.html"], OFile (read_bytes env (descriptionfile c))) ∈ ms ∧
  ∀ x, x ∈ test_cases c →
    ([pname c; "tests"; x.2; name x.1.1], OFile (read_bytes env x.1.1)) ∈ ms ∧
    ([pname c; "tests"; x.2; name x.1.2], OFile (read_bytes env x.1.2)) ∈ ms.

(** ** The manifest tree *)

(** The [Test] element of a test case, from the names of its input and
    output files and its stem. *)
Definition test_element (L : string) (x : string * string * string) : Element :=
  let '(input, output, stem) := x in
  Elem "Test" [("xml:id", L +:+ ".tests." +:+ stem); ("input", input); ("output", output)] [].

(** The [Problem] element of a problem with letter [L], timeout [t] and
    the given test cases. *)
Definition problem_element (L : string) (t : pyint)
    (tests : list (string * string * string)) : Element :=
  Elem "Problem"
    [("xml:id", L); ("Name", L); ("Title", L);
     ("Description", "description.html"); ("Timeout", str_int t)]
    [Elem "Tests" [("xml:id", L +:+ ".tests")] (test_element L <$> tests)].

(** The file names and the stem of a test case. *)
Definition test_names (x : Path * Path * string) : string * string * string :=
  (name x.1.1, name x.1.2, x.2).

(** The tree operations of [stage_test], without the file operations. *)
Definition xml_stage_test (pn : string) (h : handle) (root : Element)
    (x : Path * Path * string) : Element :=
  let '(root, xmltest) := ET_SubElement h "Test" root in
  ET_set xmltest "output" (name x.1.2)
    (ET_set xmltest "input" (name x.1.1)
       (ET_set xmltest "xml:id" (pn +:+ ".tests." +:+ x.2) root)).

(** The tree operations of lines 124-138. *)
Definition xml_header (root : Element) (L : string) (t : pyint) : Element * handle :=
  let '(root, xmlproblem) := ET_SubElement [] "Problem" root in
  let root := ET_set xmlproblem "xml:id" L root in
  let root := ET_set xmlproblem "Name" L root in
  let root := ET_set xmlproblem "Title" L root in
  let root := ET_set xmlproblem "Description" "description.html" root in
  let root := ET_set xmlproblem "Timeout" (str_int t) root in
  let '(root, xmltests) := ET_SubElement xmlproblem "Tests" root in
  (ET_set xmltests "xml:id" (L +:+ ".tests") root, xmltests).

(** The [Problem] element of a checked problem with timeout [t]. *)
Definition problem_entry (c : checked) (t : pyint) : Element :=
  Elem "Problem"
    [("xml:id", pname c); ("Name", pname c); ("Title", pname c);
     ("Description", "description.html"); ("Timeout", str_int t)]
    [Elem "Tests" [("xml:id", pname c +:+ ".tests")]
       ((λ x, Elem "Test"
                [("xml:id", pname c +:+ ".tests." +:+ x.2);
                 ("input", name x.1.1); ("output", name x.1.2)] [])
          <$> test_cases c)].

(** The [Problem] elements of the problems that pass the checks, in the
    order of the loop. *)
Definition manifest_entries (env : Env) (pts : list (Path * pyint)) : list Element :=
  omap (λ pt, (λ c, problem_entry c pt.2) <$> checked_of env pt.1) pts.

(** ** Inputs that can be staged *)

(** The conditions under which a test case can be staged. *)
Definition test_stageable (env : Env) (x : Path * Path * string) : Prop :=
  test_files_ok x ∧ is_file env x.1.1 = true ∧ is_file env x.1.2 = true ∧
  x.2 ≠ "" ∧ x.2 ≠ "." ∧ x.2 ≠ "..".

(** The conditions under which a checked problem can be staged: it has
    a name, its description and test files are regular files, and its
    stems are distinct proper directory names. *)
Definition stageable (env : Env) (c : checked) : Prop :=
  pname c ≠ "" ∧ is_file env (descriptionfile c) = true ∧
  Forall (test_stageable env) (test_cases c) ∧ NoDup (test_cases c).*2.

(** The problems of the loop that pass the checks. *)
Definition accepted (env : Env) (ps : list Path) : list checked :=
  omap (checked_of env) ps.

(** The input can be staged: every problem that passes the checks is
    stageable, no two of them have the same name, and the locale decodes
    the manifest they give with the timeouts [ts]. *)
Definition can_complete (env : Env) (problems : option (list Path)) (ts : list pyint) : Prop :=
  Forall (stageable env) (accepted env (sorted_paths (problem_list env problems))) ∧
  NoDup (pname <$> accepted env (sorted_paths (problem_list env problems))) ∧
  is_Some (text_lines env (ET_tostring (Elem "Problems" [("Presents", "radio")]
    (manifest_entries env (zip (sorted_paths (problem_list env problems)) ts))))).

(** ** Environments that present the same files *)

(** Two environments present the same files: they agree on every query,
    except that a directory may be enumerated in another order. *)
Record same_inputs (e1 e2 : Env) : Prop := {
  same_is_dir p : is_dir e1 p = is_dir e2 p;
  same_is_file p : is_file e1 p = is_file e2 p;
  same_read_bytes p : read_bytes e1 p = read_bytes e2 p;
  same_entries p : iterdir e1 p ≡ₚ iterdir e2 p;
  same_tmpname : tmpname e1 = tmpname e2;
  same_xmlfile_repr : xmlfile_repr e1 = xmlfile_repr e2;
  same_text_lines bs : text_lines e1 bs = text_lines e2 bs
}.

(** The environment [e] with every directory enumerated backwards. *)
Definition reversed_enumeration (e : Env) : Env := {|
  is_dir := is_dir e;
  is_file := is_file e;
  iterdir p := reverse (iterdir e p);
  read_bytes := read_bytes e;
  tmpname := tmpname e;
  xmlfile_repr := xmlfile_repr e;
  text_lines := text_lines e
|}.

(** ** Every way a run can end *)

(** The exceptions of the file operations and of the decoding of the
    manifest: every exception but the [ValueError] of lines 58 and 68
    and the [IndexError] of line 65. *)
Definition staging_exn (e : exn) : Prop :=
  match e with
  | ValueError _ | IndexError _ => False
  | _ => True
  end.

(** The tree [t] holds nothing but what [t0] held and objects of [S]. *)
Definition bounded (t0 : gmap (list string) obj) (S : Path * obj → Prop)
    (t : gmap (list string) obj) : Prop :=
  ∀ k v, t !! k = Some v → t0 !! k = Some v ∨ S (k, v).

(** The objects staged for a test case below [td]: the directory named
    by the stem and the copies of the two files. *)
Definition test_objects (env : Env) (td : Path) (x : Path * Path * string)
    : list (Path * obj) :=
  [(td ++ [x.2], ODir);
   (td ++ [x.2; name x.1.1], OFile (read_bytes env x.1.1));
   (td ++ [x.2; name x.1.2], OFile (read_bytes env x.1.2))].

(** The objects staged for a checked problem. *)
Definition problem_objects (env : Env) (c : checked) : list (Path * obj) :=
  [([pname c], ODir);
   ([pname c; "description.html"], OFile (read_bytes env (descriptionfile c)));
   ([pname c; "tests"], ODir)] ++
  (test_cases c ≫= test_objects env [pname c; "tests"]).

(** The objects of a checked problem in the order [tarfile.add] writes
    them to the archive: ascending by path. *)
Definition archived_objects (env : Env) (c : checked) : list (Path * obj) :=
  merge_sort (λ x y, path_le x.1 y.1) (problem_objects env c).

(** An object staged for one of the problems [ps] that passes the
    checks. *)
Definition staged (env : Env) (ps : list Path) (x : Path * obj) : Prop :=
  ∃ p c, p ∈ ps ∧ checked_of env p = Some c ∧ x ∈ problem_objects env c.

(** A record below the level [ERROR]. *)
Definition below_error (r : level * string) : Prop :=
  r.1 = DEBUG ∨ r.1 = INFO ∨ r.1 = WARNING.

(** ** What is logged for a rejected problem *)

(** The reason logged for a problem that fails a check: the first
    warning of lines 80-122, [None] for a problem that passes. *)
Definition rejection (env : Env) (p : Path) : option string :=
  if negb (is_dir env p) then
    Some ("Problem '" +:+ path_str p +:+ "' is not a directory")
  else if negb (str_in (name p) ascii_uppercase) then
    Some ("Directory name '" +:+ name p +:+ "' is not an ascii uppercase letter")
  else if negb (is_file env (joinpath p "description.html")) then
    Some ("Missing file '" +:+ path_str (joinpath p "description.html") +:+ "'")
  else if negb (is_dir env (joinpath p "tests")) then
    Some ("Missing tests directory '" +:+ path_str (joinpath p "tests") +:+ "'")
  else if decide (length (inputs_of env p) = 0) then
    Some ("Could not find inputs with '" +:+ path_str (joinpath p "tests") +:+ "/*.in' pattern")
  else if decide (length (outputs_of env p) = 0) then
    Some ("Could not find outputs with '" +:+ path_str (joinpath p "tests") +:+ "/*.out' pattern")
  else if decide (stem <$> inputs_of env p ≠ stem <$> outputs_of env p) then
    Some "Inputs and outputs filenames do not match"
  else None.

(** The two warnings of a rejected problem. *)
Definition rejection_warnings (env : Env) (p : Path) : list (level * string) :=
  match rejection env p with
  | Some reason => [(WARNING, reason); (WARNING, "Ignoring problem " +:+ path_str p)]
  | None => []
  end.

(** The warning of line 64, logged when the timeouts are a list of
    another length than the problems, and not of one element. *)
Definition padding_warnings (timeouts : pyval) (n : nat) : list (level * string) :=
  match timeouts with
  | VList l =>
      if decide (length l ≠ n ∧ length l ≠ 1)
      then [(WARNING, "len(timeouts) != len(problems), replicating last timeout")]
      else []
  | _ => []
  end.

(** ** What the argument parser guarantees *)

(** The attributes of a namespace returned by the parser of lines
    167-190: [-p] takes one or more paths and is [None] when absent;
    [-t] takes one or more integers ([type=int], [nargs="+"]) and is the
    integer 1 when absent; [-v] is one of the keys of [logging_level]. *)
Definition parsed (args : Namespace) : Prop :=
  (arg_p args = None ∨ ∃ ps, ps ≠ [] ∧ arg_p args = Some ps) ∧
  (arg_t args = VInt (PInt 1) ∨
   ∃ zs, zs ≠ [] ∧ arg_t args = VList ((λ z, VInt (PInt z)) <$> zs)) ∧
  arg_v args ∈ logging_level.*1.

(** ** Runs from different worlds *)



(** ** Concrete inputs *)

Definition cwd_two_letters : node :=
  Dir [("AB", problem_dir ["1.in"; "1.out"])].

Definition cwd_dotted_stems : node :=
  Dir [("A", problem_dir ["a.in"; "a.j.in"; "a.out"; "a.j.out"])].

Definition cwd_dashed_stems : node :=
  Dir [("A", problem_dir ["a.in"; "a-b.in"; "a.out"; "a-b.out"])].

Definition cwd_lowercase : node :=
  Dir [("a", problem_dir ["1.in"; "1.out"]); ("AA", problem_dir ["1.in"; "1.out"])].

(** The run on the two problems [A] and [B] with timeout 5. *)
Definition run_AB : (exn + unit) * World :=
  build_archive (env_of cwd_AB) None (VInt (PInt 5)) w0.

(** The working directory [cwd_AB] under a locale that cannot decode the
    manifest. *)
Definition env_undecodable : Env := {|
  is_dir := is_dir (env_of cwd_AB);
  is_file := is_file (env_of cwd_AB);
  iterdir := iterdir (env_of cwd_AB);
  read_bytes := read_bytes (env_of cwd_AB);
  tmpname := tmpname (env_of cwd_AB);
  xmlfile_repr := xmlfile_repr (env_of cwd_AB);
  text_lines := λ _, None
|}.

(** * Properties *)

(** ** The model on small inputs *)

Example sorted_paths_ex :
  sorted_paths [["y"; "A"]; ["B"]; ["A"; "tests"]; ["A"]] = [["A"]; ["A"; "tests"]; ["B"]; ["y"; "A"]].
Proof. reflexivity. Qed.

Example sorted_strs_ex :
  sorted_strs ["a.in"; "a-b.in"; "a.j.in"; "10.in"; "1.in"] = ["1.in"; "10.in"; "a-b.in"; "a.in"; "a.j.in"]
  ∧ sorted_strs ["a.out"; "a.j.out"] = ["a.j.out"; "a.out"].
Proof. split; reflexivity. Qed.

Example stem_ex :
  stem_of_name "a.j.in" = "a.j" ∧ stem_of_name ".in" = ".in" ∧ stem_of_name "x" = "x"
  ∧ stem_of_name "..in" = "." ∧ stem_of_name "a." = "a." ∧ stem_of_name "1.out" = "1".
Proof. repeat split; reflexivity. Qed.

Example str_in_ex :
  str_in "A" ascii_uppercase = true ∧ str_in "AB" ascii_uppercase = true
  ∧ str_in "" ascii_uppercase = true ∧ str_in "AA" ascii_uppercase = false
  ∧ str_in "a" ascii_uppercase = false ∧ str_in "Problem1" ascii_uppercase = false.
Proof. repeat split; reflexivity. Qed.

Example endswith_ex :
  endswith "1.in" ".in" = true ∧ endswith ".in" ".in" = true ∧ endswith "in" ".in" = false
  ∧ endswith "1.int" ".in" = false.
Proof. repeat split; reflexivity. Qed.

Example run_AB_members :
  match (build_archive (env_of cwd_AB) None (VInt (PInt 5)) w0) with
  | (r, w) => r = inr tt ∧ tmpdir w = None ∧
      (members <$> archivefile w) = Some [
        (["A"], ODir);
        (["A"; "description.html"], OFile (list_byte_of_string "<p>hi</p>"));
        (["A"; "tests"], ODir);
        (["A"; "tests"; "1"], ODir);
        (["A"; "tests"; "1"; "1.in"], OFile (list_byte_of_string "1.in"));
        (["A"; "tests"; "1"; "1.out"], OFile (list_byte_of_string "1.out"));
        (["B"], ODir);
        (["B"; "description.html"], OFile (list_byte_of_string "<p>hi</p>"));
        (["B"; "tests"], ODir);
        (["B"; "tests"; "1"], ODir);
        (["B"; "tests"; "1"; "1.in"], OFile (list_byte_of_string "1.in"));
        (["B"; "tests"; "1"; "1.out"], OFile (list_byte_of_string "1.out"));
        (["Content.xml"], OFile (list_byte_of_string (xml_declaration +:+
           "<Problems Presents=" +:+ quot +:+ "radio" +:+ quot +:+ ">" +:+
           concat_str ((λ L,
             "<Problem xml:id=" +:+ quot +:+ L +:+ quot +:+ " Name=" +:+ quot +:+ L +:+ quot +:+
             " Title=" +:+ quot +:+ L +:+ quot +:+
             " Description=" +:+ quot +:+ "description.html" +:+ quot +:+
             " Timeout=" +:+ quot +:+ "5" +:+ quot +:+ ">" +:+
             "<Tests xml:id=" +:+ quot +:+ L +:+ ".tests" +:+ quot +:+ ">" +:+
             "<Test xml:id=" +:+ quot +:+ L +:+ ".tests.1" +:+ quot +:+
             " input=" +:+ quot +:+ "1.in" +:+ quot +:+
             " output=" +:+ quot +:+ "1.out" +:+ quot +:+ " />" +:+
             "</Tests></Problem>") <$> ["A"; "B"]) +:+
           "</Problems>")))]
  end.
Proof. vm_compute. repeat split; reflexivity. Qed.

(** ** The monad *)

Lemma add_log_nil w : add_log [] w = w.
Proof. destruct w. unfold add_log, set_log. simpl. by rewrite app_nil_r. Qed.

Lemma add_log_app m1 m2 w : add_log m2 (add_log m1 w) = add_log (m1 ++ m2) w.
Proof. unfold add_log, set_log. simpl. by rewrite app_assoc. Qed.

Lemma tmpdir_add_log m w : tmpdir (add_log m w) = tmpdir w.
Proof. reflexivity. Qed.

Lemma archivefile_add_log m w : archivefile (add_log m w) = archivefile w.
Proof. reflexivity. Qed.

Lemma bind_inr {A B} (m : M A) (k : A → M B) w a w' :
  m w = (inr a, w') → (m ≫= k) w = k a w'.
Proof. intros H. unfold mbind, M_bind. by rewrite H. Qed.

Lemma bind_inl {A B} (m : M A) (k : A → M B) w e w' :
  m w = (inl e, w') → (m ≫= k) w = (inl e, w').
Proof. intros H. unfold mbind, M_bind. by rewrite H. Qed.

Lemma bind_inv_inr {A B} (m : M A) (k : A → M B) w b w' :
  (m ≫= k) w = (inr b, w') → ∃ a w1, m w = (inr a, w1) ∧ k a w1 = (inr b, w').
Proof.
  unfold mbind, M_bind. destruct (m w) as [[e|a] w1]; [discriminate|]. eauto.
Qed.

Lemma logs_only_ret {A} (a : A) : logs_only (mret a) a [].
Proof. intros w. by rewrite add_log_nil. Qed.

Lemma logs_only_logging lv msg : logs_only (logging lv msg) tt [(lv, msg)].
Proof. by intros w. Qed.

Lemma logs_only_bind {A B} (m : M A) (k : A → M B) a b m1 m2 :
  logs_only m a m1 → logs_only (k a) b m2 → logs_only (m ≫= k) b (m1 ++ m2).
Proof.
  intros H1 H2 w. rewrite (bind_inr _ _ _ _ _ (H1 w)), H2. by rewrite add_log_app.
Qed.

(** ** Timeouts *)

Lemma check_ints_ok (ts : list pyint) : logs_only (check_ints (VInt <$> ts)) ts [].
Proof.
  induction ts as [|t ts IH]; simpl.
  - apply logs_only_ret.
  - change [] with (@nil (level * string) ++ []).
    eapply logs_only_bind; [exact IH|apply logs_only_ret].
Qed.

Lemma check_ints_bad (l : list pyval) :
  Exists (λ v, isinstance_int v = false) l →
  ∀ w, check_ints l w =
    (inl (ValueError "timeouts must be a list of ints"),
     add_log [(CRITICAL, "timeouts must be a list of ints")] w).
Proof.
  unfold isinstance_int.
  induction l as [|v l IH]; intros Hex w; [by apply Exists_nil in Hex|].
  simpl. destruct (as_int v) as [t|] eqn:Hv.
  - apply Exists_cons in Hex as [Hex|Hex]; [by rewrite Hv in Hex|].
    by rewrite (bind_inl _ _ _ _ _ (IH Hex w)).
  - reflexivity.
Qed.

Lemma resolve_documented (n : nat) (spec : pyval) (ts : list pyint) :
  documented_rule n spec ts → ∃ msgs, logs_only (resolve_timeouts spec n) ts msgs.
Proof.
  intros Hrule.
  destruct Hrule as [t|t|ts Hn|ts t Hn Hlast].
  - eexists. unfold resolve_timeouts.
    eapply logs_only_bind; [apply logs_only_logging|apply logs_only_ret].
  - destruct (decide (1 = n)) as [<-|Hn]; eexists; unfold resolve_timeouts;
      (eapply (logs_only_bind _ _ [t]); [apply (check_ints_ok [t])|]);
      destruct (decide (length [t] ≠ _)) as [Hd|Hd]; simpl in Hd; try done.
    apply logs_only_ret.
  - eexists. unfold resolve_timeouts.
    eapply logs_only_bind; [apply check_ints_ok|].
    case_decide; [done|apply logs_only_ret].
  - eexists. unfold resolve_timeouts.
    eapply logs_only_bind; [apply check_ints_ok|].
    case_decide; [|lia].
    destruct ts as [|t1 [|t2 ts]]; [simpl in Hn; lia..|].
    eapply logs_only_bind; [apply logs_only_logging|].
    rewrite Hlast. apply logs_only_ret.
Qed.

(** C2. For [n] problems and a timeout specification of a valid shape
    (a single integer, a list of exactly [n] integers, a one-element
    list, a shorter list of more than one element), the resolution
    completes with the sequence the documented rule gives: it only logs,
    the sequence has length [n], and the loop pairs its element at each
    position with the sorted directory at that position. *)
Theorem C2_timeouts_follow_documented_rule (n : nat) (spec : pyval) (ts : list pyint) :
  documented_rule n spec ts →
  (∃ msgs, logs_only (resolve_timeouts spec n) ts msgs) ∧
  length ts = n ∧
  ∀ ps : list Path, length ps = n →
    length (zip ps ts) = n ∧
    ∀ i p t, ps !! i = Some p → ts !! i = Some t → zip ps ts !! i = Some (p, t).
Proof.
  intros Hrule.
  assert (Hlen : length ts = n).
  { destruct Hrule; rewrite ?length_replicate, ?length_app, ?length_replicate; lia. }
  split; [by apply resolve_documented|split; [done|]].
  intros ps Hps. split.
  - rewrite length_zip_with. lia.
  - intros i p t Hp Ht. rewrite lookup_zip_with, Hp. simpl. by rewrite Ht.
Qed.

Lemma C2_timeouts_witness :
  (∃ msgs, logs_only (resolve_timeouts (VList [VInt (PInt 3); VInt (PInt 7)]) 4)
             [PInt 3; PInt 7; PInt 7; PInt 7] msgs) ∧
  length [PInt 3; PInt 7; PInt 7; PInt 7] = 4 ∧
  ∀ ps : list Path, length ps = 4 →
    length (zip ps [PInt 3; PInt 7; PInt 7; PInt 7]) = 4 ∧
    ∀ i p t, ps !! i = Some p → [PInt 3; PInt 7; PInt 7; PInt 7] !! i = Some t →
      zip ps [PInt 3; PInt 7; PInt 7; PInt 7] !! i = Some (p, t).
Proof.
  exact (C2_timeouts_follow_documented_rule 4 (VList (VInt <$> [PInt 3; PInt 7]))
           ([PInt 3; PInt 7] ++ replicate (4 - 2) (PInt 7))
           (rule_pad 4 [PInt 3; PInt 7] (PInt 7) ltac:(simpl; lia) eq_refl)).
Defined.

Lemma check_ints_world l w : ∃ msgs, (check_ints l w).2 = add_log msgs w.
Proof.
  induction l as [|v l [msgs IH]]; simpl.
  - exists []. by rewrite add_log_nil.
  - destruct (as_int v); [|by eexists].
    unfold mbind, M_bind. destruct (check_ints l w) as [[e|ts] w1]; by exists msgs.
Qed.

(** Resolving the timeouts touches nothing but the log, whether it
    completes or raises. *)
Lemma resolve_timeouts_world timeouts n w :
  ∃ msgs, (resolve_timeouts timeouts n w).2 = add_log msgs w.
Proof.
  destruct timeouts as [i|s| |l]; simpl; try by eexists.
  unfold mbind, M_bind. destruct (check_ints_world l w) as [m1 Hc].
  destruct (check_ints l w) as [[e|ts] w1]; simpl in Hc; subst w1; [by eexists|].
  case_decide.
  - destruct ts as [|t1 [|t2 ts]]; simpl; try (eexists; by rewrite add_log_app).
    destruct (last (t2 :: ts)); eexists; by rewrite add_log_app.
  - by eexists.
Qed.

(** ** Discovery *)

Lemma length_sorted_paths l : length (sorted_paths l) = length l.
Proof. unfold sorted_paths. by rewrite merge_sort_Permutation. Qed.

Lemma discover_logs env problems :
  ∃ msgs, logs_only (discover env problems) (sorted_paths (problem_list env problems)) msgs.
Proof.
  unfold discover. destruct problems as [ps|]; eexists.
  - eapply logs_only_bind; [apply logs_only_ret|].
    eapply logs_only_bind; [apply logs_only_logging|apply logs_only_ret].
  - eapply logs_only_bind; [apply logs_only_logging|].
    eapply logs_only_bind; [apply logs_only_logging|apply logs_only_ret].
Qed.

(** ** Configuration errors *)

(** What a run that raises while resolving the timeouts leaves behind:
    the exception, and a world that differs from the initial one in its
    log only. *)
Lemma build_archive_resolve_raises env problems timeouts e msgs :
  (∀ w, resolve_timeouts timeouts (length (problem_list env problems)) w
        = (inl e, add_log msgs w)) →
  ∀ w, ∃ w', build_archive env problems timeouts w = (inl e, w') ∧
             archivefile w' = archivefile w ∧ tmpdir w' = tmpdir w.
Proof.
  intros Hres w. destruct (discover_logs env problems) as [m1 Hd].
  unfold build_archive. rewrite (bind_inr _ _ _ _ _ (Hd w)).
  rewrite length_sorted_paths.
  rewrite (bind_inl _ _ _ _ _ (Hres _)). eexists. split; [done|]. done.
Qed.

(** C4. When the timeout specification is a list holding an element
    that is not an integer, or is neither an integer nor a list,
    [build_archive] raises [ValueError] and has changed nothing but the
    log: the archive file is what it was before the call (absent if it
    was absent) and no staging directory was made. *)
Theorem C4_bad_timeouts_abort_before_archive env problems timeouts :
  (∃ l, timeouts = VList l ∧ Exists (λ v, isinstance_int v = false) l) ∨
  (isinstance_int timeouts = false ∧ ∀ l, timeouts ≠ VList l) →
  ∀ w, ∃ msg w',
    build_archive env problems timeouts w = (inl (ValueError msg), w') ∧
    archivefile w' = archivefile w ∧ tmpdir w' = tmpdir w ∧
    (archivefile w = None → archivefile w' = None).
Proof.
  intros Hbad w.
  assert (∃ msg msgs, ∀ w, resolve_timeouts timeouts (length (problem_list env problems)) w
            = (inl (ValueError msg), add_log msgs w)) as (msg & msgs & Hres).
  { destruct Hbad as [(l & -> & Hex)|[Hint Hlist]].
    - do 2 eexists. intros w1. unfold resolve_timeouts.
      by rewrite (bind_inl _ _ _ _ _ (check_ints_bad l Hex w1)).
    - destruct timeouts as [i|s| |l]; try discriminate Hint.
      + by do 2 eexists.
      + by do 2 eexists.
      + by destruct (Hlist l). }
  destruct (build_archive_resolve_raises env problems timeouts _ _ Hres w)
    as (w' & Hrun & Ha & Ht).
  exists msg, w'. repeat split; try done. intros Hn. by rewrite Ha.
Qed.

(** C10. With the empty list as timeout specification and at least one
    problem directory, [build_archive] raises [IndexError] at the
    padding step, having changed nothing but the log: the archive file
    is not created. *)
Theorem C10_empty_timeout_list_raises_IndexError env problems :
  problem_list env problems ≠ [] →
  ∀ w, ∃ w',
    build_archive env problems (VList []) w
      = (inl (IndexError "list index out of range"), w') ∧
    archivefile w' = archivefile w ∧ tmpdir w' = tmpdir w ∧
    (archivefile w = None → archivefile w' = None).
Proof.
  intros Hne w.
  destruct (build_archive_resolve_raises env problems (VList [])
              (IndexError "list index out of range")
              [(WARNING, "len(timeouts) != len(problems), replicating last timeout")])
    with (w := w) as (w' & Hrun & Ha & Ht).
  { intros w1. unfold resolve_timeouts. simpl.
    destruct (problem_list env problems); [done|]. reflexivity. }
  exists w'. repeat split; try done. intros Hn. by rewrite Ha.
Qed.

(** ** The staging directory is removed *)

Lemma with_TemporaryDirectory_tmpdir {A} (body : M A) w :
  tmpdir (with_TemporaryDirectory body w).2 = None.
Proof.
  unfold with_TemporaryDirectory. by destruct (body _) as [r w'].
Qed.

(** C8. Whatever way the block under the temporary directory is left,
    by completion or by a raised exception, the staging directory does
    not exist afterwards; and a run of [build_archive] that starts
    without one ends without one, on every path. *)
Theorem C8_staging_directory_removed_on_every_exit env :
  (∀ problems timeouts w,
     tmpdir (with_TemporaryDirectory (staging_block env problems timeouts) w).2 = None) ∧
  (∀ problems timeouts w ps ts w1 w2,
     discover env problems w = (inr ps, w1) →
     resolve_timeouts timeouts (length ps) w1 = (inr ts, w2) →
     tmpdir (build_archive env problems timeouts w).2 = None) ∧
  (∀ problems timeouts w,
     tmpdir w = None → tmpdir (build_archive env problems timeouts w).2 = None).
Proof.
  split; [|split].
  - intros. apply with_TemporaryDirectory_tmpdir.
  - intros problems timeouts w ps ts w1 w2 Hd Hr. unfold build_archive.
    rewrite (bind_inr _ _ _ _ _ Hd), (bind_inr _ _ _ _ _ Hr).
    unfold mbind, M_bind. simpl. apply with_TemporaryDirectory_tmpdir.
  - intros problems timeouts w Hw. unfold build_archive.
    destruct (discover_logs env problems) as [m1 Hd].
    rewrite (bind_inr _ _ _ _ _ (Hd w)).
    unfold mbind at 1, M_bind at 1.
    destruct (resolve_timeouts _ _ _) as [[e|ts] w2] eqn:Hr.
    + simpl. destruct (resolve_timeouts_world timeouts
        (length (sorted_paths (problem_list env problems))) (add_log m1 w)) as [m2 Hw2].
      rewrite Hr in Hw2. simpl in Hw2. by rewrite Hw2.
    + unfold mbind, M_bind. simpl. apply with_TemporaryDirectory_tmpdir.
Qed.

(** ** The orders are total orders, and sorting is canonical *)

Section total_cmp.
Context {A} (cmp : A → A → comparison) (Hcmp : total_cmp cmp).

Lemma cmp_refl a : cmp a a = Eq.
Proof. pose proof (cmp_antisym cmp Hcmp a a). by destruct (cmp a a). Qed.

Lemma lex_compare_total_cmp : total_cmp (lex_compare cmp).
Proof.
  split.
  - intros l1. induction l1 as [|x l1 IH]; intros [|y l2] H; simpl in H; try done.
    destruct (cmp x y) eqn:Hxy; try done.
    apply (cmp_eq cmp Hcmp) in Hxy as ->. by rewrite (IH l2 H).
  - intros l1. induction l1 as [|x l1 IH]; intros [|y l2]; simpl; try done.
    rewrite (cmp_antisym cmp Hcmp x y). destruct (cmp y x); simpl; auto.
  - intros l1. induction l1 as [|x l1 IH]; intros [|y l2] [|z l3] H1 H2;
      simpl in *; try done.
    destruct (cmp x y) eqn:Hxy; try done.
    + apply (cmp_eq cmp Hcmp) in Hxy as ->.
      destruct (cmp y z); try done. eauto.
    + destruct (cmp y z) eqn:Hyz; try done.
      * apply (cmp_eq cmp Hcmp) in Hyz as ->. by rewrite Hxy.
      * by rewrite (cmp_lt_trans cmp Hcmp x y z Hxy Hyz).
Qed.

Lemma cmp_le_total : Total (cmp_le cmp).
Proof.
  intros a b. unfold cmp_le. rewrite (cmp_antisym cmp Hcmp a b).
  destruct (cmp b a); simpl; auto.
Qed.

Lemma cmp_le_antisym : AntiSymm (=) (cmp_le cmp).
Proof.
  intros a b. unfold cmp_le. rewrite (cmp_antisym cmp Hcmp b a).
  destruct (cmp a b) eqn:Hab; simpl; try done.
  intros. by apply (cmp_eq cmp Hcmp).
Qed.

Lemma cmp_le_trans : Transitive (cmp_le cmp).
Proof.
  intros a b c. unfold cmp_le.
  destruct (cmp a b) eqn:Hab; try done.
  - by apply (cmp_eq cmp Hcmp) in Hab as ->.
  - destruct (cmp b c) eqn:Hbc; try done.
    + apply (cmp_eq cmp Hcmp) in Hbc as ->. by rewrite Hab.
    + by rewrite (cmp_lt_trans cmp Hcmp a b c Hab Hbc).
Qed.
End total_cmp.

Lemma ascii_total_cmp : total_cmp Ascii.compare.
Proof.
  split.
  - apply Ascii.compare_eq_iff.
  - apply Ascii.compare_antisym.
  - intros a b c. unfold Ascii.compare. rewrite !N.compare_lt_iff. lia.
Qed.

Lemma string_compare_lex s t :
  String.compare s t = lex_compare Ascii.compare (list_ascii_of_string s) (list_ascii_of_string t).
Proof.
  revert t. induction s as [|a s IH]; intros [|b t]; simpl; try done.
  by rewrite IH.
Qed.

Lemma string_total_cmp : total_cmp String.compare.
Proof.
  pose proof (lex_compare_total_cmp _ ascii_total_cmp) as H.
  split.
  - intros s t Hst. rewrite string_compare_lex in Hst.
    apply (cmp_eq _ H) in Hst.
    by rewrite <- (string_of_list_ascii_of_string s), Hst, string_of_list_ascii_of_string.
  - intros s t. rewrite !string_compare_lex. apply (cmp_antisym _ H).
  - intros s t u. rewrite !string_compare_lex. apply (cmp_lt_trans _ H).
Qed.

Lemma path_total_cmp : total_cmp path_compare.
Proof. apply lex_compare_total_cmp, string_total_cmp. Qed.

Global Instance str_le_total : Total str_le := cmp_le_total _ string_total_cmp.
Global Instance str_le_antisym : AntiSymm (=) str_le := cmp_le_antisym _ string_total_cmp.
Global Instance str_le_trans : Transitive str_le := cmp_le_trans _ string_total_cmp.
Global Instance path_le_total : Total path_le := cmp_le_total _ path_total_cmp.
Global Instance path_le_antisym : AntiSymm (=) path_le := cmp_le_antisym _ path_total_cmp.
Global Instance path_le_trans : Transitive path_le := cmp_le_trans _ path_total_cmp.

(** Sorting does not depend on the order the elements arrive in. *)
Lemma sorted_paths_Permutation l1 l2 : l1 ≡ₚ l2 → sorted_paths l1 = sorted_paths l2.
Proof.
  intros Hp. unfold sorted_paths.
  apply (Sorted_unique path_le); try apply Sorted_merge_sort; try apply _.
  by rewrite !merge_sort_Permutation.
Qed.

Lemma sorted_strs_Permutation l1 l2 : l1 ≡ₚ l2 → sorted_strs l1 = sorted_strs l2.
Proof.
  intros Hp. unfold sorted_strs.
  apply (Sorted_unique str_le); try apply Sorted_merge_sort; try apply _.
  by rewrite !merge_sort_Permutation.
Qed.

(** ** The validation checks *)

Section checks_lemmas.
Context (env : Env).

(** The checks only log; when one fails, the first record is a warning
    that gives the reason and the last one names the problem that is
    ignored. *)
Lemma check_problem_logs (p : Path) :
  ∃ msgs, logs_only (check_problem env p) (checked_of env p) msgs ∧
    (passes_checks env p = false →
       ∃ reason rest, msgs = (WARNING, reason) :: rest ∧
         last msgs = Some (WARNING, "Ignoring problem " +:+ path_str p)).
Proof.
  unfold check_problem, checked_of, passes_checks, ignoring.
  fold (inputs_of env p) (outputs_of env p).
  destruct (is_dir env p); cbn [negb andb];
    [|eexists; split; [repeat first [apply logs_only_ret|apply logs_only_logging|eapply logs_only_bind]|intros _; simpl; do 2 eexists; split; reflexivity]].
  destruct (str_in (name p) ascii_uppercase); cbn [negb andb];
    [|eexists; split; [repeat first [apply logs_only_ret|apply logs_only_logging|eapply logs_only_bind]|intros _; simpl; do 2 eexists; split; reflexivity]].
  destruct (is_file env (joinpath p "description.html")); cbn [negb andb];
    [|eexists; split; [repeat first [apply logs_only_ret|apply logs_only_logging|eapply logs_only_bind]|intros _; simpl; do 2 eexists; split; reflexivity]].
  destruct (is_dir env (joinpath p "tests")); cbn [negb andb];
    [|eexists; split; [repeat first [apply logs_only_ret|apply logs_only_logging|eapply logs_only_bind]|intros _; simpl; do 2 eexists; split; reflexivity]].
  destruct (decide (length (inputs_of env p) = 0)) as [Hi|Hi].
  { rewrite bool_decide_eq_false_2 by tauto. cbn [negb andb].
    eexists; split; [repeat first [apply logs_only_ret|apply logs_only_logging|eapply logs_only_bind]|intros _; simpl; do 2 eexists; split; reflexivity]. }
  rewrite (bool_decide_eq_true_2 _ Hi). cbn [negb andb].
  destruct (decide (length (outputs_of env p) = 0)) as [Ho|Ho].
  { rewrite bool_decide_eq_false_2 by tauto. cbn [negb andb].
    eexists; split; [repeat first [apply logs_only_ret|apply logs_only_logging|eapply logs_only_bind]|intros _; simpl; do 2 eexists; split; reflexivity]. }
  rewrite (bool_decide_eq_true_2 _ Ho). cbn [negb andb].
  destruct (decide (stem <$> inputs_of env p ≠ stem <$> outputs_of env p)) as [Hs|Hs].
  { rewrite bool_decide_eq_false_2 by tauto.
    eexists; split; [repeat first [apply logs_only_ret|apply logs_only_logging|eapply logs_only_bind]|intros _; simpl; do 2 eexists; split; reflexivity]. }
  apply dec_stable in Hs. rewrite (bool_decide_eq_true_2 _ Hs).
  eexists; split; [apply logs_only_ret|done].
Qed.

(** A problem that fails a check leaves the loop state as it was. *)
Lemma process_problem_rejected p t root :
  passes_checks env p = false →
  ∃ reason rest,
    last ((WARNING, reason) :: rest) = Some (WARNING, "Ignoring problem " +:+ path_str p) ∧
    logs_only (process_problem env root (p, t)) root ((WARNING, reason) :: rest).
Proof.
  intros Hp. destruct (check_problem_logs p) as (msgs & Hlog & Hmsgs).
  destruct (Hmsgs Hp) as (reason & rest & -> & Hlast).
  exists reason, rest. split; [done|].
  unfold process_problem. simpl.
  rewrite <- (app_nil_r (_ :: rest)).
  eapply logs_only_bind; [exact Hlog|].
  unfold checked_of. rewrite Hp. apply logs_only_ret.
Qed.

Lemma process_problem_accepted p t root c w :
  checked_of env p = Some c →
  ∃ msgs, process_problem env root (p, t) w = stage_problem env c t root (add_log msgs w).
Proof.
  intros Hc. destruct (check_problem_logs p) as (msgs & Hlog & _).
  exists msgs. unfold process_problem. simpl.
  rewrite (bind_inr _ _ _ _ _ (Hlog w)). by rewrite Hc.
Qed.

End checks_lemmas.

(** ** The staging directory is a tree *)

Lemma removelast_ne {A} (q : list A) : q ≠ [] → removelast q ≠ q.
Proof.
  intros Hq. destruct (exists_last Hq) as (q' & a & ->).
  rewrite removelast_last. intros H.
  apply (f_equal length) in H. rewrite length_app in H. simpl in H. lia.
Qed.

Lemma wf_tree_init : wf_tree {[ [] := ODir ]}.
Proof.
  split; [by rewrite lookup_singleton_eq|].
  intros k v Hk Hne. rewrite lookup_singleton_ne in Hk; done.
Qed.

Lemma wf_tree_insert t q v :
  wf_tree t → t !! removelast q = Some ODir →
  (t !! q = None ∨ (∃ d, t !! q = Some (OFile d)) ∧ v ≠ ODir ∨ v = ODir ∧ q ≠ []) →
  wf_tree (<[q := v]> t).
Proof.
  intros [Hroot Hwf] Hpar Hq.
  assert (q ≠ []) as Hne.
  { intros ->. destruct Hq as [Hq|[[[d Hq] _]|[_ Hq]]]; congruence. }
  split; [by rewrite lookup_insert_ne|].
  intros k v' Hk Hkne.
  destruct (decide (k = q)) as [->|Hkq].
  - rewrite lookup_insert_ne; [done|]. intros H. by apply (removelast_ne q).
  - rewrite lookup_insert_ne in Hk by done.
    pose proof (Hwf k v' Hk Hkne) as Hp.
    destruct (decide (removelast k = q)) as [Heq|Hneq].
    + rewrite Heq in *. rewrite lookup_insert_eq.
      destruct Hq as [Hq|[[[d Hq] _]|[-> _]]]; congruence.
    + by rewrite lookup_insert_ne.
Qed.

(** In a tree, nothing lies below a path that is absent or a file. *)
Lemma wf_tree_below t q k v :
  wf_tree t → t !! k = Some v → q `prefix_of` k → q ≠ k → t !! q = Some ODir.
Proof.
  intros [Hroot Hwf] Hk [s ->] Hne.
  revert v Hk Hne. induction s as [|x s IH] using rev_ind; intros v Hk Hne.
  - by rewrite app_nil_r in Hne.
  - assert (t !! (q ++ s) = Some ODir) as Hp.
    { rewrite <- (removelast_last (q ++ s) x), <- app_assoc.
      apply (Hwf _ v Hk). by destruct q. }
    destruct s as [|y s] using rev_ind; [by rewrite app_nil_r in Hp|].
    apply (IH _ Hp). intros H. apply (f_equal length) in H.
    rewrite !length_app in H. simpl in H. lia.
Qed.

Lemma elem_of_tree_members t src arc x :
  x ∈ tree_members t src arc ↔
  ∃ k v, t !! k = Some v ∧ src `prefix_of` k ∧ x = (arc ++ drop (length src) k, v).
Proof.
  unfold tree_members. rewrite list_elem_of_fmap. split.
  - intros ([k v] & -> & Hin). rewrite merge_sort_Permutation in Hin.
    apply list_elem_of_filter in Hin as [Hpre Hin].
    apply elem_of_map_to_list in Hin. by exists k, v.
  - intros (k & v & Hk & Hpre & ->). exists (k, v). split; [done|].
    rewrite merge_sort_Permutation. apply list_elem_of_filter. split; [done|].
    by apply elem_of_map_to_list.
Qed.

Lemma tree_members_file t q arc d :
  wf_tree t → t !! q = Some (OFile d) → tree_members t q arc = [(arc, OFile d)].
Proof.
  intros Hwf Hq. unfold tree_members.
  assert (filter (λ kv : list string * obj, q `prefix_of` kv.1) (map_to_list t)
          ≡ₚ [(q, OFile d)]) as Hperm.
  { apply NoDup_Permutation.
    - apply NoDup_filter, NoDup_map_to_list.
    - apply NoDup_singleton.
    - intros [k v]. rewrite list_elem_of_filter, elem_of_map_to_list, list_elem_of_singleton.
      simpl. split.
      + intros [Hpre Hk]. destruct (decide (q = k)) as [->|Hne]; [congruence|].
        pose proof (wf_tree_below t q k v Hwf Hk Hpre Hne). congruence.
      + intros [= -> ->]. done. }
  rewrite <- (merge_sort_Permutation (λ x y, path_le x.1 y.1)) in Hperm.
  apply Permutation_singleton_r in Hperm. rewrite Hperm. simpl.
  by rewrite drop_all, app_nil_r.
Qed.

(** ** Writing the manifest *)

Lemma for_fold_logging ls :
  logs_only (for_fold (λ _ line, logging DEBUG line) tt ls) tt ((DEBUG,.) <$> ls).
Proof.
  induction ls as [|l ls IH]; simpl.
  - apply logs_only_ret.
  - apply (logs_only_bind _ _ tt tt [(DEBUG, l)]); [apply logs_only_logging|exact IH].
Qed.

Lemma file_write_run p data w t :
  tmpdir w = Some t →
  file_write p data w = (inr tt, set_tmpdir (Some (<[resolve p := OFile data]> t)) w).
Proof. intros Ht. unfold file_write. by rewrite Ht. Qed.

Lemma open_r_run p data w t :
  tmpdir w = Some t → t !! resolve p = Some (OFile data) → open_r p w = (inr data, w).
Proof. intros Ht Hp. unfold open_r. by rewrite Ht, Hp. Qed.

(** The manifest step on a staging tree that holds no directory named
    [Content.xml], under a locale that decodes the manifest. *)
Lemma write_manifest_run env root w t a ls :
  tmpdir w = Some t → wf_tree t → archivefile w = Some a → closed a = false →
  t !! ["Content.xml"] ≠ Some ODir →
  text_lines env (ET_tostring root) = Some ls →
  ∃ msgs, write_manifest env root w =
    (inr tt, MkWorld (log w ++ msgs)
               (Some (<[["Content.xml"] := OFile (ET_tostring root)]> t))
               (Some (TarFile (members a ++ [(["Content.xml"], OFile (ET_tostring root))]) true))).
Proof.
  intros Ht Hwf Ha Hopen Hnd Hls.
  set (t' := <[["Content.xml"] := OFile (ET_tostring root)]> t).
  assert (wf_tree t') as Hwf'.
  { apply wf_tree_insert; [done|apply Hwf|].
    destruct (t !! ["Content.xml"]) as [[|d]|] eqn:E; [done|right; left|left]; eauto. }
  assert (open_wb ["Content.xml"] w
          = (inr tt, set_tmpdir (Some (<[["Content.xml"] := OFile []]> t)) w)) as Hopenwb.
  { unfold open_wb. rewrite Ht.
    change (resolve ["Content.xml"]) with ["Content.xml"].
    unfold parent_error. simpl. destruct Hwf as [-> _].
    destruct (t !! ["Content.xml"]) as [[|d]|]; done. }
  eexists. unfold write_manifest.
  rewrite (bind_inr _ _ _ _ _ Hopenwb).
  rewrite (bind_inr _ _ _ _ _ (logs_only_logging _ _ _)).
  match goal with |- context [mbind ?k (file_write ?p ?d) ?w1] =>
    rewrite (bind_inr _ k w1 _ _ (file_write_run p d w1 _ eq_refl)) end.
  change (resolve ["Content.xml"]) with ["Content.xml"].
  rewrite insert_insert_eq. fold t'.
  unfold log_contents at 1.
  unfold mbind at 1, M_bind at 1.
  match goal with |- context [mbind ?k (open_r ?p) ?w1] =>
    rewrite (bind_inr _ k w1 _ _
               (open_r_run p (ET_tostring root) w1 t' eq_refl (lookup_insert_eq _ _ _))) end.
  rewrite (bind_inr _ _ _ _ _ (logs_only_logging _ _ _)).
  unfold readlines. rewrite Hls.
  unfold mbind at 1, M_bind at 1, mret at 1, M_ret at 1.
  rewrite (bind_inr _ _ _ _ _ (for_fold_logging ls _)).
  unfold logging at 1.
  unfold mbind at 1, M_bind at 1.
  unfold tarfile_add. simpl. rewrite Ha, Hopen.
  change (resolve ["Content.xml"]) with ["Content.xml"].
  unfold t' at 1. rewrite lookup_insert_eq.
  rewrite (tree_members_file t' _ _ (ET_tostring root) Hwf') by apply lookup_insert_eq.
  unfold tarfile_close, set_archivefile, add_log, set_log, set_tmpdir. simpl.
  rewrite <- !app_assoc. reflexivity.
Qed.


(** ** Validation failures *)


(** ** Names of test files *)

Lemma endswith_get (s suf : string) (p : nat) :
  endswith s suf = true → (p < String.length suf)%nat →
  String.get (p + (String.length s - String.length suf)) s = String.get p suf.
Proof.
  unfold endswith. intros H Hp. apply andb_true_iff in H as [_ H].
  apply String.eqb_eq in H. rewrite <- H at 2.
  by rewrite substring_correct1.
Qed.

Lemma endswith_length (s suf : string) :
  endswith s suf = true → (String.length suf ≤ String.length s)%nat.
Proof.
  unfold endswith. intros H. apply andb_true_iff in H as [H _]. by apply Nat.leb_le.
Qed.

(** A name matched by [*.in] is not matched by [*.out]. *)
Lemma endswith_in_out nm nm' :
  endswith nm ".in" = true → endswith nm' ".out" = true → nm ≠ nm'.
Proof.
  intros Hin Hout <-.
  pose proof (endswith_length _ _ Hin) as L1. pose proof (endswith_length _ _ Hout) as L2.
  pose proof (endswith_get nm ".in" 2 Hin ltac:(simpl; lia)) as G1.
  pose proof (endswith_get nm ".out" 3 Hout ltac:(simpl; lia)) as G2.
  change (String.length ".in") with 3 in *. change (String.length ".out") with 4 in *.
  replace (3 + (String.length nm - 4)) with (2 + (String.length nm - 3)) in G2 by lia.
  rewrite G1 in G2. discriminate G2.
Qed.

(** A name matched by a pattern with a suffix of three characters or
    more is a proper component. *)
Lemma endswith_proper nm suf :
  endswith nm suf = true → (3 ≤ String.length suf)%nat → nm ≠ "" ∧ nm ≠ "." ∧ nm ≠ "..".
Proof.
  intros H Hs. apply endswith_length in H.
  repeat split; intros ->; simpl in H; lia.
Qed.

(** A name that passes the test of line 86 is not a parent reference. *)
Lemma str_in_uppercase_proper nm :
  str_in nm ascii_uppercase = true → nm ≠ "." ∧ nm ≠ "..".
Proof. split; intros ->; discriminate. Qed.

(** ** Paths into the staging directory *)

Lemma resolve_snoc l x :
  resolve (l ++ [x]) = if decide (x = "..") then removelast (resolve l) else resolve l ++ [x].
Proof. unfold resolve. by rewrite foldl_snoc. Qed.

Lemma resolve_proper l x : resolve l = l → x ≠ ".." → resolve (l ++ [x]) = l ++ [x].
Proof. intros Hl Hx. rewrite resolve_snoc, Hl. by rewrite decide_False. Qed.

Lemma joinpath_proper l x : x ≠ "" → x ≠ "." → joinpath l x = l ++ [x].
Proof. intros H1 H2. unfold joinpath. rewrite decide_False; [done|]. tauto. Qed.

Lemma name_snoc l x : name (l ++ [x]) = x.
Proof. unfold name. by rewrite last_snoc. Qed.

(** ** What the file operations did when they completed *)

Lemma mkdir_inv p w w' :
  mkdir p w = (inr tt, w') →
  ∃ t, tmpdir w = Some t ∧ t !! resolve p = None ∧
       t !! removelast (resolve p) = Some ODir ∧
       w' = set_tmpdir (Some (<[resolve p := ODir]> t)) w.
Proof.
  unfold mkdir, parent_error. destruct (tmpdir w) as [t|]; [|done].
  destruct (t !! resolve p) eqn:Hq; [done|].
  destruct (t !! removelast (resolve p)) as [[|d]|] eqn:Hp; try done.
  intros [= <-]. by exists t.
Qed.

Lemma open_wb_inv p w w' :
  open_wb p w = (inr tt, w') →
  ∃ t, tmpdir w = Some t ∧ t !! resolve p ≠ Some ODir ∧
       t !! removelast (resolve p) = Some ODir ∧
       w' = set_tmpdir (Some (<[resolve p := OFile []]> t)) w.
Proof.
  unfold open_wb, parent_error. destruct (tmpdir w) as [t|]; [|done].
  destruct (t !! removelast (resolve p)) as [[|d]|] eqn:Hp;
    destruct (t !! resolve p) as [[|d']|] eqn:Hq; try done;
    intros [= <-]; exists t; by rewrite ?Hq.
Qed.

Lemma write_file_inv p data w w' :
  write_file p data w = (inr tt, w') →
  ∃ t, tmpdir w = Some t ∧ t !! resolve p ≠ Some ODir ∧
       t !! removelast (resolve p) = Some ODir ∧
       w' = set_tmpdir (Some (<[resolve p := OFile data]> t)) w.
Proof.
  unfold write_file. intros H. apply bind_inv_inr in H as ([] & w1 & Ho & H).
  apply open_wb_inv in Ho as (t & Ht & Hnd & Hp & ->).
  exists t. do 3 (split; [done|]).
  unfold file_write in H. simpl in H. injection H as <-.
  by rewrite insert_insert_eq.
Qed.

(** A copy to a destination that is not an existing directory. *)
Lemma shutil_copy_inv env src dst w w' t :
  shutil_copy env src dst w = (inr tt, w') →
  tmpdir w = Some t → t !! resolve dst = None →
  is_file env src = true ∧ t !! removelast (resolve dst) = Some ODir ∧
  w' = set_tmpdir (Some (<[resolve dst := OFile (read_bytes env src)]> t)) w.
Proof.
  unfold shutil_copy. intros H Ht Hd.
  destruct (is_file env src); [|by destruct (is_dir env src)].
  rewrite Ht, Hd in H. apply write_file_inv in H as (t1 & Ht1 & _ & Hp & ->).
  rewrite Ht in Ht1. injection Ht1 as <-. done.
Qed.

(** ** The manifest tree *)

Lemma update_at_last T A cs e h f :
  update_at (length cs :: h) f (Elem T A (cs ++ [e])) = Elem T A (cs ++ [update_at h f e]).
Proof.
  simpl. f_equal. rewrite alter_app_r_alt by lia. by rewrite Nat.sub_diag.
Qed.

Lemma element_at_last T A cs e h :
  element_at (length cs :: h) (Elem T A (cs ++ [e])) = element_at h e.
Proof.
  simpl. rewrite lookup_app_r by lia. by rewrite Nat.sub_diag.
Qed.

Lemma ET_set_last T A cs e h k v :
  ET_set (length cs :: h) k v (Elem T A (cs ++ [e])) = Elem T A (cs ++ [ET_set h k v e]).
Proof. apply update_at_last. Qed.

Lemma ET_set_first T A e h k v :
  ET_set (0 :: h) k v (Elem T A [e]) = Elem T A [ET_set h k v e].
Proof. reflexivity. Qed.

Lemma ET_SubElement_last T A cs e h tag :
  ET_SubElement (length cs :: h) tag (Elem T A (cs ++ [e])) =
  (Elem T A (cs ++ [(ET_SubElement h tag e).1]), length cs :: (ET_SubElement h tag e).2).
Proof.
  unfold ET_SubElement. rewrite element_at_last, update_at_last. done.
Qed.

Lemma ET_SubElement_root T A cs tag :
  ET_SubElement [] tag (Elem T A cs) = (Elem T A (cs ++ [ET_Element tag]), [length cs]).
Proof. reflexivity. Qed.

(** One turn of the loop over the test cases appends the [Test]
    element of the test case to the [Tests] element. *)
Lemma xml_stage_test_last T A cs PT PA TT TA ts pn x :
  xml_stage_test pn [length cs; 0] (Elem T A (cs ++ [Elem PT PA [Elem TT TA ts]])) x =
  Elem T A (cs ++ [Elem PT PA [Elem TT TA (ts ++ [test_element pn (test_names x)])]]).
Proof.
  unfold xml_stage_test. rewrite ET_SubElement_last.
  change (Elem PT PA [Elem TT TA ts]) with (Elem PT PA ([] ++ [Elem TT TA ts])).
  change [0] with [length (@nil Element)].
  rewrite ET_SubElement_last, ET_SubElement_root. simpl fst. simpl snd.
  rewrite !ET_set_last, !ET_set_first, !ET_set_last.
  destruct x as [[inp out] nm]. reflexivity.
Qed.

Lemma xml_stage_tests_last T A cs PT PA TT TA pn tests ts :
  foldl (xml_stage_test pn [length cs; 0])
    (Elem T A (cs ++ [Elem PT PA [Elem TT TA ts]])) tests =
  Elem T A (cs ++ [Elem PT PA [Elem TT TA (ts ++ (test_element pn ∘ test_names <$> tests))]]).
Proof.
  revert ts. induction tests as [|x tests IH]; intros ts; simpl.
  - by rewrite app_nil_r.
  - rewrite xml_stage_test_last, IH. by rewrite <- app_assoc.
Qed.

(** The tree operations of lines 124-138 on the root append a [Problem]
    element with its attributes and an empty [Tests] element. *)
Lemma xml_problem_header T A cs L t :
  let '(root, xmlproblem) := ET_SubElement [] "Problem" (Elem T A cs) in
  let root := ET_set xmlproblem "Timeout" (str_int t)
    (ET_set xmlproblem "Description" "description.html"
      (ET_set xmlproblem "Title" L
        (ET_set xmlproblem "Name" L
          (ET_set xmlproblem "xml:id" L root)))) in
  let '(root, xmltests) := ET_SubElement xmlproblem "Tests" root in
  ET_set xmltests "xml:id" (L +:+ ".tests") root = 
    Elem T A (cs ++ [Elem "Problem"
      [("xml:id", L); ("Name", L); ("Title", L);
       ("Description", "description.html"); ("Timeout", str_int t)]
      [Elem "Tests" [("xml:id", L +:+ ".tests")] []]])
  ∧ xmltests = [length cs; 0].
Proof.
  rewrite ET_SubElement_root. cbv beta iota zeta. rewrite !ET_set_last.
  rewrite ET_SubElement_last. cbv beta iota zeta. split; [|reflexivity].
  rewrite ET_set_last. reflexivity.
Qed.

(** ** Staging one test case *)

Lemma snoc_ne {A} (l : list A) x : l ++ [x] ≠ l.
Proof.
  intros H. apply (f_equal length) in H. rewrite length_app in H. simpl in H. lia.
Qed.

Lemma wf_tree_fresh_child t q x : wf_tree t → t !! q = None → t !! (q ++ [x]) = None.
Proof.
  intros Hwf Hq. destruct (t !! (q ++ [x])) as [v|] eqn:E; [|done].
  pose proof (wf_tree_below t q (q ++ [x]) v Hwf E) as H.
  rewrite H in Hq; [done|by exists [x]|]. intros Heq. by apply (snoc_ne q x).
Qed.

Lemma wf_tree_parent t q : wf_tree t → is_Some (t !! q) → t !! removelast q = Some ODir.
Proof.
  intros [Hroot Hwf] [v Hv]. destruct (decide (q = [])) as [->|Hne]; [done|]. eauto.
Qed.

(** A test case staged without an exception: its stem names a new
    directory below [td], which receives the two files. *)
Lemma stage_test_inv env pn td h root x w root' w' t :
  stage_test env pn td h root x w = (inr root', w') →
  tmpdir w = Some t → wf_tree t → t !! td = Some ODir → resolve td = td →
  endswith (name x.1.1) ".in" = true → endswith (name x.1.2) ".out" = true →
  root' = xml_stage_test pn h root x ∧
  ∃ t', tmpdir w' = Some t' ∧ wf_tree t' ∧ t ⊆ t' ∧
        archivefile w' = archivefile w ∧
        t' !! (td ++ [x.2]) = Some ODir ∧
        t' !! (td ++ [x.2; name x.1.1]) = Some (OFile (read_bytes env x.1.1)) ∧
        t' !! (td ++ [x.2; name x.1.2]) = Some (OFile (read_bytes env x.1.2)).
Proof.
  destruct x as [[inp out] nm]. simpl. intros H Ht Hwf Htd Hres Hin Hout.
  unfold stage_test in H.
  apply bind_inv_inr in H as ([] & w1 & Hmk & H).
  apply bind_inv_inr in H as ([] & w2 & Hc1 & H).
  apply bind_inv_inr in H as ([] & w3 & Hc2 & H).
  injection H as <- <-.
  split; [reflexivity|].
  destruct (endswith_proper _ _ Hin ltac:(simpl; lia)) as (Hi1 & Hi2 & Hi3).
  destruct (endswith_proper _ _ Hout ltac:(simpl; lia)) as (Ho1 & Ho2 & Ho3).
  pose proof (endswith_in_out _ _ Hin Hout) as Hio.
  apply mkdir_inv in Hmk as (t0 & Ht0 & Hfresh & Hpar & ->).
  rewrite Ht in Ht0. injection Ht0 as <-.
  (* the stem is a proper component *)
  assert (joinpath td nm = td ++ [nm] ∧ nm ≠ "..") as [Hj Hnm].
  { destruct (decide (nm = "" ∨ nm = ".")) as [Hd|Hd].
    - exfalso. unfold joinpath in Hfresh. rewrite decide_True in Hfresh by done.
      rewrite Hres, Htd in Hfresh. done.
    - rewrite joinpath_proper in Hfresh |- * by tauto.
      split; [done|]. intros ->. rewrite resolve_snoc, Hres in Hfresh. simpl in Hfresh.
      rewrite (wf_tree_parent t td Hwf) in Hfresh; [done|by eexists]. }
  rewrite Hj in *. clear Hj.
  set (q := td ++ [nm]) in *.
  assert (resolve q = q) as Hq by (by apply resolve_proper).
  rewrite Hq in *.
  set (t1 := <[q := ODir]> t) in *.
  assert (wf_tree t1) as Hwf1 by (apply wf_tree_insert; auto).
  (* the input file *)
  rewrite (joinpath_proper q (name inp)) in Hc1 by done.
  assert (resolve (q ++ [name inp]) = q ++ [name inp]) as Hq1 by (by apply resolve_proper).
  assert (t1 !! (q ++ [name inp]) = None) as Hf1.
  { unfold t1. rewrite lookup_insert_ne by (intros E; symmetry in E; by apply snoc_ne in E).
    by apply wf_tree_fresh_child. }
  eapply shutil_copy_inv in Hc1 as (_ & Hp1 & Hw2); [|reflexivity|by rewrite Hq1].
  subst w2.
  rewrite Hq1 in *.
  set (t2 := <[q ++ [name inp] := OFile (read_bytes env inp)]> t1) in *.
  assert (wf_tree t2) as Hwf2 by (apply wf_tree_insert; auto).
  (* the output file *)
  rewrite (joinpath_proper q (name out)) in Hc2 by done.
  assert (resolve (q ++ [name out]) = q ++ [name out]) as Hq2 by (by apply resolve_proper).
  assert (q ++ [name inp] ≠ q ++ [name out]) as Hne12.
  { intros E. apply app_inv_head in E. by injection E. }
  assert (t2 !! (q ++ [name out]) = None) as Hf2.
  { unfold t2, t1. rewrite lookup_insert_ne by done.
    rewrite lookup_insert_ne by (intros E; symmetry in E; by apply snoc_ne in E).
    by apply wf_tree_fresh_child. }
  eapply shutil_copy_inv in Hc2 as (_ & Hp2 & Hw3); [|reflexivity|by rewrite Hq2].
  subst w3.
  rewrite Hq2 in *.
  eexists. split; [reflexivity|].
  split; [apply wf_tree_insert; auto|].
  split.
  { etrans; [apply (insert_subseteq t q ODir Hfresh)|].
    etrans; [apply (insert_subseteq t1 _ (OFile (read_bytes env inp)) Hf1)|].
    apply (insert_subseteq t2 _ (OFile (read_bytes env out)) Hf2). }
  split; [done|].
  replace (td ++ [nm; name inp]) with (q ++ [name inp]) by (unfold q; by rewrite <- app_assoc).
  replace (td ++ [nm; name out]) with (q ++ [name out]) by (unfold q; by rewrite <- app_assoc).
  unfold t2, t1. repeat split.
  - rewrite !lookup_insert_ne by (intros E; by apply snoc_ne in E). apply lookup_insert_eq.
  - rewrite lookup_insert_ne by done. apply lookup_insert_eq.
  - apply lookup_insert_eq.
Qed.

Lemma stage_tests_inv env pn td h tests : ∀ root w root' w' t,
  for_fold (stage_test env pn td h) root tests w = (inr root', w') →
  tmpdir w = Some t → wf_tree t → t !! td = Some ODir → resolve td = td →
  Forall test_files_ok tests →
  root' = foldl (xml_stage_test pn h) root tests ∧
  ∃ t', tmpdir w' = Some t' ∧ wf_tree t' ∧ t ⊆ t' ∧
        archivefile w' = archivefile w ∧
        ∀ x, x ∈ tests → test_staged env t' td x.
Proof.
  induction tests as [|x tests IH]; intros root w root' w' t H Ht Hwf Htd Hres Hok.
  - simpl in H. injection H as <- <-. split; [done|].
    exists t. do 4 (split; [done|]). intros x Hx. by apply elem_of_nil in Hx.
  - simpl in H. apply bind_inv_inr in H as (r1 & w1 & H1 & H).
    apply Forall_cons in Hok as [[Hin Hout] Hok].
    destruct (stage_test_inv _ _ _ _ _ _ _ _ _ _ H1 Ht Hwf Htd Hres Hin Hout)
      as (-> & t1 & Ht1 & Hwf1 & Hsub1 & Ha1 & Hx1 & Hx2 & Hx3).
    destruct (IH _ _ _ _ t1 H Ht1 Hwf1 (lookup_weaken _ _ _ _ Htd Hsub1) Hres Hok)
      as (-> & t' & Ht' & Hwf' & Hsub' & Ha' & Hall).
    split; [done|]. exists t'.
    split; [done|]. split; [done|]. split; [by etrans|]. split; [congruence|].
    intros y Hy. apply elem_of_cons in Hy as [->|Hy]; [|by apply Hall].
    repeat split; eapply lookup_weaken; eauto.
Qed.

(** ** Staging one problem *)

Lemma xml_header_eq T A cs L t :
  xml_header (Elem T A cs) L t =
  (Elem T A (cs ++ [Elem "Problem"
      [("xml:id", L); ("Name", L); ("Title", L);
       ("Description", "description.html"); ("Timeout", str_int t)]
      [Elem "Tests" [("xml:id", L +:+ ".tests")] []]]),
   [length cs; 0]).
Proof.
  pose proof (xml_problem_header T A cs L t) as H. unfold xml_header.
  rewrite ET_SubElement_root in *. cbv beta iota zeta in *.
  rewrite !ET_set_last in *. rewrite ET_SubElement_last in *.
  cbv beta iota zeta in *. destruct H as [-> _]. reflexivity.
Qed.

Lemma stage_problem_inv env c tm T A cs w root' w' t a :
  stage_problem env c tm (Elem T A cs) w = (inr root', w') →
  tmpdir w = Some t → wf_tree t → archivefile w = Some a → closed a = false →
  str_in (pname c) ascii_uppercase = true →
  Forall test_files_ok (test_cases c) →
  root' = Elem T A (cs ++ [problem_element (pname c) tm (test_names <$> test_cases c)]) ∧
  t !! [pname c] = None ∧ pname c ≠ "" ∧
  ∃ t', tmpdir w' = Some t' ∧ wf_tree t' ∧ t ⊆ t' ∧
        archivefile w' = Some (TarFile (members a ++ tree_members t' [pname c] [pname c]) false) ∧
        problem_staged env t' c.
Proof.
  intros H Ht Hwf Ha Hopen Hname Hok. set (L := pname c) in *.
  destruct (str_in_uppercase_proper L Hname) as [HL1 HL2].
  unfold stage_problem in H.
  apply bind_inv_inr in H as ([] & w1 & Hmk & H).
  apply bind_inv_inr in H as ([] & w2 & Hcp & H).
  apply bind_inv_inr in H as ([] & w3 & Hmk2 & H).
  apply bind_inv_inr in H as (r & w4 & Hloop & H).
  apply bind_inv_inr in H as ([] & w5 & Hadd & H).
  injection H as <- <-. fold L in Hmk, Hcp, Hmk2, Hloop, Hadd.
  (* the problem directory *)
  apply mkdir_inv in Hmk as (t0 & Ht0 & Hfresh & Hpar & ->).
  rewrite Ht in Ht0. injection Ht0 as <-.
  assert (L ≠ "") as HL0.
  { intros E. rewrite E in Hfresh. change (resolve (joinpath [] "")) with (@nil string) in Hfresh.
    destruct Hwf as [Hroot _]. congruence. }
  rewrite (joinpath_proper [] L) in * by done. simpl app in *.
  assert (resolve [L] = [L]) as HrL by (by apply (resolve_proper [] L)).
  rewrite HrL in *.
  set (t1 := <[[L] := ODir]> t) in *.
  assert (wf_tree t1) as Hwf1 by (apply wf_tree_insert; auto).
  (* the description *)
  change (joinpath [L] "description.html") with [L; "description.html"] in Hcp.
  assert (resolve [L; "description.html"] = [L; "description.html"]) as Hrd
    by (by apply (resolve_proper [L])).
  assert (t1 !! [L; "description.html"] = None) as Hfd.
  { unfold t1. rewrite lookup_insert_ne by done.
    by apply (wf_tree_fresh_child t [L]). }
  eapply shutil_copy_inv in Hcp as (_ & Hpd & Hw2); [|reflexivity|by rewrite Hrd].
  subst w2. rewrite Hrd in *.
  set (t2 := <[[L; "description.html"] := OFile (read_bytes env (descriptionfile c))]> t1) in *.
  assert (wf_tree t2) as Hwf2 by (apply wf_tree_insert; auto).
  (* the tests directory *)
  change (joinpath [L] "tests") with [L; "tests"] in Hmk2, Hloop.
  assert (resolve [L; "tests"] = [L; "tests"]) as Hrt by (by apply (resolve_proper [L])).
  apply mkdir_inv in Hmk2 as (t0 & Ht0 & Hft & Hpt & ->).
  injection Ht0 as <-. rewrite Hrt in *.
  set (t3 := <[[L; "tests"] := ODir]> t2) in *.
  assert (wf_tree t3) as Hwf3 by (apply wf_tree_insert; auto).
  (* the test cases *)
  eapply stage_tests_inv in Hloop as (Hr & t4 & Ht4 & Hwf4 & Hsub4 & Ha4 & Hall);
    [|reflexivity|exact Hwf3|apply lookup_insert_eq|exact Hrt|exact Hok].
  assert (t ⊆ t4) as Hsub.
  { etrans; [apply (insert_subseteq t [L] ODir Hfresh)|].
    etrans; [apply (insert_subseteq t1 _ (OFile (read_bytes env (descriptionfile c))) Hfd)|].
    etrans; [apply (insert_subseteq t2 _ ODir Hft)|]. exact Hsub4. }
  assert (t4 !! [L] = Some ODir) as HL4.
  { apply (lookup_weaken t3); [|done].
    unfold t3, t2, t1. rewrite !lookup_insert_ne by done. apply lookup_insert_eq. }
  assert (t4 !! [L; "description.html"]
          = Some (OFile (read_bytes env (descriptionfile c)))) as Hd4.
  { apply (lookup_weaken t3); [|done].
    unfold t3, t2. rewrite lookup_insert_ne by done. apply lookup_insert_eq. }
  (* the archive *)
  unfold tarfile_add in Hadd. simpl in Ha4. rewrite Ha4, Ha, Ht4, Hopen, HrL, HL4 in Hadd.
  injection Hadd as <-.
  split.
  { assert (r = foldl (xml_stage_test L (xml_header (Elem T A cs) L tm).2)
                  (xml_header (Elem T A cs) L tm).1 (test_cases c)) as -> by exact Hr.
    rewrite xml_header_eq. simpl fst. simpl snd.
    rewrite xml_stage_tests_last. unfold problem_element.
    by rewrite <- list_fmap_compose. }
  split; [done|]. split; [done|].
  exists t4. split; [done|]. split; [done|]. split; [done|]. split; [done|].
  split; [done|]. split; [done|]. exact Hall.
Qed.

(** ** The loop over the problems *)

Lemma glob_name env dir suf p :
  p ∈ sorted_paths (glob env dir suf) → endswith (name p) suf = true.
Proof.
  unfold sorted_paths, glob. rewrite merge_sort_Permutation.
  intros (nm & -> & Hnm)%list_elem_of_fmap.
  apply list_elem_of_filter in Hnm as [Hnm _]. by rewrite name_snoc.
Qed.

Lemma checked_of_Some env p c :
  checked_of env p = Some c →
  passes_checks env p = true ∧
  c = Checked (name p) (joinpath p "description.html")
        (inputs_of env p) (outputs_of env p) (stem <$> inputs_of env p).
Proof.
  unfold checked_of. destruct (passes_checks env p); [|done]. by intros [= <-].
Qed.

Lemma checked_of_props env p c :
  checked_of env p = Some c →
  str_in (pname c) ascii_uppercase = true ∧ Forall test_files_ok (test_cases c).
Proof.
  intros [Hp ->]%checked_of_Some. unfold passes_checks in Hp.
  repeat (apply andb_true_iff in Hp as [Hp ?]). split; [done|].
  apply Forall_forall. intros [[inp out] nm] Hx. unfold test_cases in Hx. simpl in Hx.
  apply elem_of_zip_l in Hx. split; simpl.
  - apply elem_of_zip_l in Hx. by eapply glob_name.
  - apply elem_of_zip_r in Hx. by eapply glob_name.
Qed.

Lemma problem_element_entry c t :
  problem_element (pname c) t (test_names <$> test_cases c) = problem_entry c t.
Proof.
  unfold problem_element, problem_entry. by rewrite <- list_fmap_compose.
Qed.

Lemma tree_members_below t L rest v :
  t !! (L :: rest) = Some v → (L :: rest, v) ∈ tree_members t [L] [L].
Proof.
  intros H. apply elem_of_tree_members. exists (L :: rest), v.
  split; [done|]. split; [by exists rest|done].
Qed.

Lemma problem_staged_archive_holds env t c :
  problem_staged env t c → archive_holds env (tree_members t [pname c] [pname c]) c.
Proof.
  intros (_ & Hd & Hall). split; [by apply tree_members_below|].
  intros x Hx. destruct (Hall x Hx) as (_ & H1 & H2).
  split; by apply tree_members_below.
Qed.

Lemma archive_holds_app env ms1 ms2 c :
  archive_holds env ms1 c ∨ archive_holds env ms2 c → archive_holds env (ms1 ++ ms2) c.
Proof.
  intros [[H1 H2]|[H1 H2]]; (split; [apply elem_of_app; auto|]); intros x Hx;
    destruct (H2 x Hx); split; apply elem_of_app; auto.
Qed.

Lemma loop_inv env pts : ∀ T A cs w root' w' t a,
  for_fold (process_problem env) (Elem T A cs) pts w = (inr root', w') →
  tmpdir w = Some t → wf_tree t → archivefile w = Some a → closed a = false →
  root' = Elem T A (cs ++ manifest_entries env pts) ∧
  ∃ t' ms, tmpdir w' = Some t' ∧ wf_tree t' ∧ t ⊆ t' ∧
    archivefile w' = Some (TarFile (members a ++ ms) false) ∧
    ∀ pt c, pt ∈ pts → checked_of env pt.1 = Some c → archive_holds env ms c.
Proof.
  induction pts as [|[p tm] pts IH]; intros T A cs w root' w' t a H Ht Hwf Ha Hopen.
  - simpl in H. injection H as <- <-. simpl. rewrite app_nil_r. split; [done|].
    exists t, []. rewrite app_nil_r. do 3 (split; [done|]).
    split; [by destruct a; simpl in *; subst|].
    intros pt c Hpt. by apply elem_of_nil in Hpt.
  - simpl in H. apply bind_inv_inr in H as (r1 & w1 & H1 & H).
    unfold manifest_entries. simpl.
    destruct (check_problem_logs env p) as (msgs & Hlog & _).
    unfold process_problem in H1. simpl in H1.
    rewrite (bind_inr _ _ _ _ _ (Hlog w)) in H1.
    destruct (checked_of env p) as [c|] eqn:Hc.
    + destruct (checked_of_props env p c Hc) as [Hname Hok].
      apply (stage_problem_inv env c tm T A cs _ _ _ t a) in H1
        as (-> & Hfresh & Hne & t1 & Ht1 & Hwf1 & Hsub1 & Ha1 & Hst); try done.
      destruct (IH _ _ _ _ _ _ t1 _ H Ht1 Hwf1 Ha1 eq_refl)
        as (-> & t' & ms & Ht' & Hwf' & Hsub' & Ha' & Hall).
      split; [by rewrite <- app_assoc, problem_element_entry|].
      exists t', (tree_members t1 [pname c] [pname c] ++ ms).
      split; [done|]. split; [done|]. split; [by etrans|].
      split; [simpl in Ha'; by rewrite Ha', <- app_assoc|].
      intros pt c' Hpt Hc'. apply archive_holds_app.
      apply elem_of_cons in Hpt as [->|Hpt].
      * left. simpl in Hc'. rewrite Hc in Hc'. injection Hc' as <-.
        by apply problem_staged_archive_holds.
      * right. by eapply Hall.
    + injection H1 as <- <-.
      destruct (IH _ _ _ _ _ _ t a H Ht Hwf Ha Hopen)
        as (-> & t' & ms & Ht' & Hwf' & Hsub' & Ha' & Hall).
      split; [done|]. exists t', ms. do 4 (split; [done|]).
      intros pt c' Hpt Hc'. apply elem_of_cons in Hpt as [->|Hpt]; [|by eapply Hall].
      simpl in Hc'. congruence.
Qed.

(** ** A run that completes *)

Lemma write_manifest_inv env root w w' t a :
  write_manifest env root w = (inr tt, w') →
  tmpdir w = Some t → wf_tree t → archivefile w = Some a → closed a = false →
  archivefile w' =
    Some (TarFile (members a ++ [(["Content.xml"], OFile (ET_tostring root))]) true).
Proof.
  intros H Ht Hwf Ha Hopen.
  assert (t !! ["Content.xml"] ≠ Some ODir ∧ ∃ ls, text_lines env (ET_tostring root) = Some ls)
    as [Hnd [ls Hls]].
  { unfold write_manifest in H.
    apply bind_inv_inr in H as ([] & w1 & Hwr & H).
    apply open_wb_inv in Hwr as (t0 & Ht0 & Hnd & _ & ->).
    rewrite Ht in Ht0. injection Ht0 as <-.
    split; [exact Hnd|].
    apply bind_inv_inr in H as ([] & w2 & Hlog & H). injection Hlog as <-.
    apply bind_inv_inr in H as ([] & w3 & Hfw & H).
    unfold file_write in Hfw. simpl in Hfw. injection Hfw as <-.
    apply bind_inv_inr in H as ([] & w4 & Hlc & _).
    unfold log_contents in Hlc. apply bind_inv_inr in Hlc as (data & w5 & Hrd & Hlc).
    unfold open_r in Hrd. simpl in Hrd.
    change (resolve ["Content.xml"]) with ["Content.xml"] in Hrd.
    rewrite lookup_insert_eq in Hrd. injection Hrd as <- <-.
    apply bind_inv_inr in Hlc as ([] & w6 & _ & Hlc).
    apply bind_inv_inr in Hlc as (ls & w7 & Hrl & _).
    unfold readlines in Hrl.
    destruct (text_lines env (ET_tostring root)) as [ls'|]; [by eexists|done]. }
  destruct (write_manifest_run env root w t a ls Ht Hwf Ha Hopen Hnd Hls) as [msgs Hrun].
  rewrite Hrun in H. by injection H as <-.
Qed.

(** A timeout sequence that was resolved covers every problem. *)
Lemma resolve_timeouts_length timeouts n w ts w' :
  resolve_timeouts timeouts n w = (inr ts, w') → (n ≤ length ts)%nat.
Proof.
  destruct timeouts as [i|s| |l]; simpl; try done.
  - intros [= <- _]. by rewrite length_replicate.
  - intros H. apply bind_inv_inr in H as (ts0 & w1 & _ & H).
    case_decide as Hn; [|injection H as <- _; lia].
    destruct ts0 as [|t1 [|t2 ts0]]; simpl in H.
    + done.
    + injection H as <- _. by rewrite length_replicate.
    + destruct (last (t2 :: ts0)); [|done]. injection H as <- _.
      simpl. rewrite length_app, length_replicate. lia.
Qed.

Lemma elem_of_zip_covered {A B} (l : list A) (k : list B) x :
  x ∈ l → (length l ≤ length k)%nat → ∃ y, (x, y) ∈ zip l k.
Proof.
  intros [i Hi]%list_elem_of_lookup Hlen.
  destruct (lookup_lt_is_Some_2 k i) as [y Hy].
  { apply lookup_lt_Some in Hi. lia. }
  exists y. apply list_elem_of_lookup. exists i.
  rewrite lookup_zip_with, Hi. simpl. by rewrite Hy.
Qed.

(** What a completed run of [build_archive] has done. *)
Lemma build_archive_inv env problems timeouts w w' :
  build_archive env problems timeouts w = (inr tt, w') →
  ∃ ts ms,
    (∃ w1 w2, resolve_timeouts timeouts (length (problem_list env problems)) w1
                = (inr ts, w2)) ∧
    tmpdir w' = None ∧
    archivefile w' = Some (TarFile
      (ms ++ [(["Content.xml"],
               OFile (ET_tostring (Elem "Problems" [("Presents", "radio")]
                 (manifest_entries env
                    (zip (sorted_paths (problem_list env problems)) ts)))))]) true) ∧
    ∀ p c, p ∈ problem_list env problems → checked_of env p = Some c →
           archive_holds env ms c.
Proof.
  intros H. destruct (discover_logs env problems) as [m1 Hd].
  unfold build_archive in H. rewrite (bind_inr _ _ _ _ _ (Hd w)) in H.
  rewrite length_sorted_paths in H.
  apply bind_inv_inr in H as (ts & w2 & Hres & H).
  rewrite (bind_inr _ _ _ _ _ (logs_only_logging _ _ _)) in H.
  unfold mbind at 1, M_bind at 1, tarfile_open at 1 in H.
  unfold with_TemporaryDirectory in H.
  destruct (staging_block _ _ _ _) as [r w3] eqn:Hblock.
  injection H as -> <-.
  unfold staging_block in Hblock.
  rewrite (bind_inr _ _ _ _ _ (logs_only_logging _ _ _)) in Hblock.
  apply bind_inv_inr in Hblock as (root & w4 & Hloop & Hman).
  change (ET_set [] "Presents" "radio" (ET_Element "Problems"))
    with (Elem "Problems" [("Presents", "radio")] []) in Hloop.
  eapply (loop_inv env _ _ _ _ _ _ _ {[ [] := ODir ]} (TarFile [] false)) in Hloop
    as (-> & t' & ms & Ht' & Hwf' & _ & Ha' & Hall);
    [|reflexivity|apply wf_tree_init|reflexivity|reflexivity].
  simpl in Ha'. apply (write_manifest_inv _ _ _ _ t' (TarFile ms false)) in Hman; [|done..].
  exists ts, ms. split; [by eauto|]. split; [done|]. split; [exact Hman|].
  intros p c Hp Hc.
  destruct (elem_of_zip_covered (sorted_paths (problem_list env problems)) ts p) as [tm Htm].
  { unfold sorted_paths. by rewrite merge_sort_Permutation. }
  { rewrite length_sorted_paths. by eapply resolve_timeouts_length. }
  by apply (Hall (p, tm) c).
Qed.


(** ** The directory-name check *)

(** On names of one character the test of line 86 is the intended one:
    it holds exactly for the letters [A] to [Z]. *)
Lemma name_check_one_character (a : ascii) :
  str_in (String a EmptyString) ascii_uppercase = true ↔
  (65 ≤ nat_of_ascii a ≤ 90)%nat.
Proof.
  destruct a as [[] [] [] [] [] [] [] []]; vm_compute; split;
    (done || lia || (intros [? ?]; lia) || (intros; exfalso; lia)).
Qed.

Lemma prefix_length (s t : string) :
  String.prefix s t = true → (String.length s ≤ String.length t)%nat.
Proof.
  revert s. induction t as [|b t IH]; intros [|a s] H; simpl in *; try done; try lia.
  destruct (ascii_dec a b); [|done]. specialize (IH _ H). lia.
Qed.

(** A name the test of line 86 accepts is never longer than the
    alphabet. *)
Lemma str_in_length (s t : string) :
  str_in s t = true → (String.length s ≤ String.length t)%nat.
Proof.
  induction t as [|b t IH]; cbn [str_in]; intros H.
  - rewrite orb_false_r in H. by apply prefix_length in H.
  - apply orb_true_iff in H as [H|H].
    + by apply prefix_length in H.
    + specialize (IH H). simpl. lia.
Qed.

(** C1 (divergence). The test of line 86 is a substring test.  The
    names [AA], [a], [1] and [Problem1] fail it, as does every name of
    one character that is not an uppercase letter; but the two-letter
    name [AB] and the empty name pass it, and a directory [AB] with a
    well-formed content is staged and archived as problem [AB]. *)
Theorem C1_name_check_accepts_two_letters :
  str_in "AA" ascii_uppercase = false ∧ str_in "a" ascii_uppercase = false ∧
  str_in "1" ascii_uppercase = false ∧ str_in "Problem1" ascii_uppercase = false ∧
  String.length "AB" = 2 ∧ str_in "AB" ascii_uppercase = true ∧
  str_in "" ascii_uppercase = true ∧
  passes_checks (env_of cwd_two_letters) ["AB"] = true ∧
  (build_archive (env_of cwd_two_letters) None (VInt (PInt 1)) w0).1 = inr tt ∧
  (members <$> archivefile (build_archive (env_of cwd_two_letters) None (VInt (PInt 1)) w0).2)
  = Some [
      (["AB"], ODir);
      (["AB"; "description.html"], OFile (list_byte_of_string "<p>hi</p>"));
      (["AB"; "tests"], ODir);
      (["AB"; "tests"; "1"], ODir);
      (["AB"; "tests"; "1"; "1.in"], OFile (list_byte_of_string "1.in"));
      (["AB"; "tests"; "1"; "1.out"], OFile (list_byte_of_string "1.out"));
      (["Content.xml"], OFile (ET_tostring
         (Elem "Problems" [("Presents", "radio")]
            [Elem "Problem"
               [("xml:id", "AB"); ("Name", "AB"); ("Title", "AB");
                ("Description", "description.html"); ("Timeout", "1")]
               [Elem "Tests" [("xml:id", "AB.tests")]
                  [Elem "Test" [("xml:id", "AB.tests.1"); ("input", "1.in");
                                ("output", "1.out")] []]]])))].
Proof. vm_compute. repeat split; reflexivity. Qed.

(** ** The test-matching check *)

(** When the check of line 117 passes, the [.in] and [.out] files have
    the same stems. *)
Lemma matching_check_sound env p :
  stem <$> inputs_of env p = stem <$> outputs_of env p →
  sorted_strs (stem <$> glob env (joinpath p "tests") ".in")
  = sorted_strs (stem <$> glob env (joinpath p "tests") ".out").
Proof.
  intros H. unfold inputs_of, outputs_of, sorted_paths in H.
  transitivity (sorted_strs (stem <$> merge_sort path_le (glob env (joinpath p "tests") ".in"))).
  - apply sorted_strs_Permutation. by rewrite merge_sort_Permutation.
  - rewrite H. apply sorted_strs_Permutation. by rewrite merge_sort_Permutation.
Qed.

(** C3 (divergence). Problem [A] holds the tests [a] and [a.j], each
    with its [.in] and its [.out] file.  It passes the first six checks
    and the sorted stems of its inputs equal the sorted stems of its
    outputs, yet the check of line 117 fails and the problem is ignored:
    the files are sorted by name, and [a.in] comes before [a.j.in] while
    [a.j.out] comes before [a.out]. *)
Theorem C3_matching_stems_rejected :
  is_dir (env_of cwd_dotted_stems) ["A"] = true ∧
  str_in (name ["A"]) ascii_uppercase = true ∧
  is_file (env_of cwd_dotted_stems) ["A"; "description.html"] = true ∧
  is_dir (env_of cwd_dotted_stems) ["A"; "tests"] = true ∧
  name <$> inputs_of (env_of cwd_dotted_stems) ["A"] = ["a.in"; "a.j.in"] ∧
  name <$> outputs_of (env_of cwd_dotted_stems) ["A"] = ["a.j.out"; "a.out"] ∧
  sorted_strs (stem <$> glob (env_of cwd_dotted_stems) ["A"; "tests"] ".in") = ["a"; "a.j"] ∧
  sorted_strs (stem <$> glob (env_of cwd_dotted_stems) ["A"; "tests"] ".out") = ["a"; "a.j"] ∧
  stem <$> inputs_of (env_of cwd_dotted_stems) ["A"] = ["a"; "a.j"] ∧
  stem <$> outputs_of (env_of cwd_dotted_stems) ["A"] = ["a.j"; "a"] ∧
  passes_checks (env_of cwd_dotted_stems) ["A"] = false ∧
  check_problem (env_of cwd_dotted_stems) ["A"] w0 =
    (inr None,
     add_log [(WARNING, "Inputs and outputs filenames do not match");
              (DEBUG, "inputs: a, a.j");
              (DEBUG, "outputs: a.j, a");
              (WARNING, "Ignoring problem A")] w0) ∧
  (members <$> archivefile
     (build_archive (env_of cwd_dotted_stems) None (VInt (PInt 1)) w0).2)
  = Some [(["Content.xml"],
           OFile (ET_tostring (Elem "Problems" [("Presents", "radio")] [])))].
Proof. vm_compute. repeat split; reflexivity. Qed.

(** ** Determinism of the manifest *)

Lemma same_inputs_reversed e : same_inputs e (reversed_enumeration e).
Proof. split; try done. intros p. simpl. by rewrite reverse_Permutation. Qed.

Lemma bind_ext {A B} (m1 m2 : M A) (k1 k2 : A → M B) w :
  m1 w = m2 w → (∀ a w', k1 a w' = k2 a w') → (m1 ≫= k1) w = (m2 ≫= k2) w.
Proof.
  intros Hm Hk. unfold mbind, M_bind. rewrite Hm.
  destruct (m2 w) as [[e|a] w']; [done|apply Hk].
Qed.

Lemma for_fold_ext {A S} (f g : S → A → M S) l :
  (∀ s x w, f s x w = g s x w) → ∀ s w, for_fold f s l w = for_fold g s l w.
Proof.
  intros Hfg. induction l as [|x l IH]; intros s w; simpl; [done|].
  apply bind_ext; [apply Hfg|intros; apply IH].
Qed.

Section same_inputs.
Context (e1 e2 : Env) (Hsame : same_inputs e1 e2).

Lemma glob_same dir suf : sorted_paths (glob e1 dir suf) = sorted_paths (glob e2 dir suf).
Proof.
  apply sorted_paths_Permutation. unfold glob.
  by rewrite (same_entries _ _ Hsame dir).
Qed.

Lemma problem_list_same problems :
  sorted_paths (problem_list e1 problems) = sorted_paths (problem_list e2 problems).
Proof.
  apply sorted_paths_Permutation. destruct problems as [ps|]; simpl; [done|].
  rewrite (same_entries _ _ Hsame []).
  induction (iterdir e2 []) as [|nm l IH]; [done|].
  rewrite fmap_cons, !filter_cons, (same_is_dir _ _ Hsame [nm]).
  destruct (decide (is_dir e2 [nm] = true)); by rewrite IH.
Qed.

Lemma check_problem_same p w : check_problem e1 p w = check_problem e2 p w.
Proof.
  unfold check_problem.
  rewrite (same_is_dir _ _ Hsame p), (same_is_dir _ _ Hsame (joinpath p "tests")),
    (same_is_file _ _ Hsame (joinpath p "description.html")),
    !(glob_same (joinpath p "tests")).
  reflexivity.
Qed.

Lemma shutil_copy_same src dst w : shutil_copy e1 src dst w = shutil_copy e2 src dst w.
Proof.
  unfold shutil_copy.
  by rewrite (same_is_file _ _ Hsame src), (same_is_dir _ _ Hsame src),
    (same_read_bytes _ _ Hsame src).
Qed.

Lemma stage_test_same pn td h root x w :
  stage_test e1 pn td h root x w = stage_test e2 pn td h root x w.
Proof.
  destruct x as [[inp out] nm]. unfold stage_test.
  apply bind_ext; [done|intros].
  apply bind_ext; [apply shutil_copy_same|intros].
  apply bind_ext; [apply shutil_copy_same|done].
Qed.

Lemma stage_problem_same c t root w :
  stage_problem e1 c t root w = stage_problem e2 c t root w.
Proof.
  unfold stage_problem.
  apply bind_ext; [done|intros].
  apply bind_ext; [apply shutil_copy_same|intros].
  apply bind_ext; [done|intros].
  apply bind_ext; [|done].
  apply for_fold_ext. intros. apply stage_test_same.
Qed.

Lemma process_problem_same root pt w :
  process_problem e1 root pt w = process_problem e2 root pt w.
Proof.
  unfold process_problem. apply bind_ext; [apply check_problem_same|].
  intros [c|] w'; [apply stage_problem_same|done].
Qed.

Lemma write_manifest_same root w : write_manifest e1 root w = write_manifest e2 root w.
Proof.
  unfold write_manifest. rewrite (same_xmlfile_repr _ _ Hsame).
  apply bind_ext; [done|intros]. apply bind_ext; [done|intros].
  apply bind_ext; [done|intros]. apply bind_ext; [|done].
  unfold log_contents. apply bind_ext; [done|intros].
  apply bind_ext; [done|intros]. apply bind_ext; [|done].
  unfold readlines. by rewrite (same_text_lines _ _ Hsame).
Qed.

Lemma staging_block_same ps ts w : staging_block e1 ps ts w = staging_block e2 ps ts w.
Proof.
  unfold staging_block. rewrite (same_tmpname _ _ Hsame).
  apply bind_ext; [done|intros].
  apply bind_ext; [|intros; apply write_manifest_same].
  apply for_fold_ext. intros. apply process_problem_same.
Qed.

Lemma build_archive_same problems1 problems2 timeouts w :
  match problems1, problems2 with
  | Some ps1, Some ps2 => ps1 ≡ₚ ps2
  | None, None => True
  | _, _ => False
  end →
  build_archive e1 problems1 timeouts w = build_archive e2 problems2 timeouts w.
Proof.
  intros Hp.
  assert (sorted_paths (problem_list e1 problems1)
          = sorted_paths (problem_list e2 problems2)) as Hps.
  { destruct problems1 as [ps1|], problems2 as [ps2|]; try done.
    - simpl. by apply sorted_paths_Permutation.
    - apply problem_list_same. }
  unfold build_archive. apply bind_ext.
  - unfold discover. rewrite Hps.
    destruct problems1, problems2; done.
  - intros ps w1. apply bind_ext; [done|intros ts w2].
    apply bind_ext; [done|intros]. apply bind_ext; [done|intros].
    unfold with_TemporaryDirectory. by rewrite staging_block_same.
Qed.
End same_inputs.

Lemma test_cases_inputs env p c :
  checked_of env p = Some c → (test_cases c).*1.*1 = inputs c.
Proof.
  intros [Hp ->]%checked_of_Some. unfold test_cases. simpl.
  unfold passes_checks in Hp. repeat (apply andb_true_iff in Hp as [Hp ?]).
  match goal with H : bool_decide (_ = _) = true |- _ =>
    apply bool_decide_eq_true in H; rename H into Hstems end.
  pose proof (f_equal length Hstems) as Hlen. rewrite !length_fmap in Hlen.
  rewrite fst_zip; [apply fst_zip; lia|].
  rewrite length_zip_with, length_fmap. lia.
Qed.

(** C9 (the claim as stated fails). Problem [A] holds the tests [a] and
    [a-b].  The run completes and the manifest lists the test [a-b]
    before the test [a], because [a-b.in] sorts before [a.in]; sorted by
    stem, [a] comes before [a-b]. *)
Lemma C9_tests_not_in_stem_order :
  (build_archive (env_of cwd_dashed_stems) None (VInt (PInt 1)) w0).1 = inr tt ∧
  last <$> (members <$> archivefile
     (build_archive (env_of cwd_dashed_stems) None (VInt (PInt 1)) w0).2)
  = Some (Some (["Content.xml"], OFile (ET_tostring
      (Elem "Problems" [("Presents", "radio")]
         [Elem "Problem"
            [("xml:id", "A"); ("Name", "A"); ("Title", "A");
             ("Description", "description.html"); ("Timeout", "1")]
            [Elem "Tests" [("xml:id", "A.tests")]
               [Elem "Test" [("xml:id", "A.tests.a-b"); ("input", "a-b.in");
                             ("output", "a-b.out")] [];
                Elem "Test" [("xml:id", "A.tests.a"); ("input", "a.in");
                             ("output", "a.out")] []]]])))) ∧
  stem <$> inputs_of (env_of cwd_dashed_stems) ["A"] = ["a-b"; "a"] ∧
  sorted_strs (stem <$> inputs_of (env_of cwd_dashed_stems) ["A"]) = ["a"; "a-b"] ∧
  stem <$> inputs_of (env_of cwd_dashed_stems) ["A"]
    ≠ sorted_strs (stem <$> inputs_of (env_of cwd_dashed_stems) ["A"]).
Proof. vm_compute. repeat split; try reflexivity. discriminate. Qed.

(** C9 (amended). The whole run, and with it the manifest, is the same
    whatever order the directories are supplied in and whatever order
    the file system enumerates entries in.  The problems are taken in
    ascending order of their paths, and the test cases of a problem in
    ascending order of the paths of their [.in] files; the manifest of
    a completed run lists them in these orders. *)
Theorem C9_manifest_independent_of_enumeration e1 e2 :
  same_inputs e1 e2 →
  (∀ ps1 ps2 timeouts w, ps1 ≡ₚ ps2 →
     build_archive e1 (Some ps1) timeouts w = build_archive e2 (Some ps2) timeouts w) ∧
  (∀ timeouts w, build_archive e1 None timeouts w = build_archive e2 None timeouts w) ∧
  (∀ problems,
     Sorted path_le (sorted_paths (problem_list e1 problems)) ∧
     sorted_paths (problem_list e1 problems) ≡ₚ problem_list e1 problems) ∧
  (∀ p c, checked_of e1 p = Some c →
     Sorted path_le (inputs c) ∧
     inputs c ≡ₚ glob e1 (joinpath p "tests") ".in" ∧
     (test_cases c).*1.*1 = inputs c) ∧
  (∀ problems timeouts w w',
     build_archive e1 problems timeouts w = (inr tt, w') →
     ∃ ts ms,
       archivefile w' = Some (TarFile
         (ms ++ [(["Content.xml"],
                  OFile (ET_tostring (Elem "Problems" [("Presents", "radio")]
                    (omap (λ pt, (λ c, problem_entry c pt.2) <$> checked_of e1 pt.1)
                       (zip (sorted_paths (problem_list e1 problems)) ts)))))]) true)).
Proof.
  intros Hsame. split; [|split; [|split; [|split]]].
  - intros ps1 ps2 timeouts w Hp.
    by apply (build_archive_same e1 e2 Hsame (Some ps1) (Some ps2)).
  - intros timeouts w. by apply (build_archive_same e1 e2 Hsame None None).
  - intros problems. split; [apply Sorted_merge_sort; apply _|apply merge_sort_Permutation].
  - intros p c Hc. split; [|split].
    + apply checked_of_Some in Hc as [_ ->]. simpl. apply Sorted_merge_sort; apply _.
    + apply checked_of_Some in Hc as [_ ->]. simpl. apply merge_sort_Permutation.
    + by eapply test_cases_inputs.
  - intros problems timeouts w w' H.
    apply build_archive_inv in H as (ts & ms & _ & _ & Ha & _). by exists ts, ms.
Qed.

(** ** The theorems at concrete inputs *)

Lemma C4_bad_timeouts_witness :
  ∃ msg w',
    build_archive (env_of cwd_AB) None (VList [VInt (PInt 1); VStr "2"]) w0
      = (inl (ValueError msg), w') ∧
    archivefile w' = archivefile w0 ∧ tmpdir w' = tmpdir w0 ∧
    (archivefile w0 = None → archivefile w' = None).
Proof.
  apply (C4_bad_timeouts_abort_before_archive (env_of cwd_AB) None
           (VList [VInt (PInt 1); VStr "2"])).
  left. exists [VInt (PInt 1); VStr "2"]. split; [reflexivity|].
  apply Exists_cons_tl, Exists_cons_hd. reflexivity.
Defined.

Lemma C10_empty_timeout_list_witness :
  ∃ w',
    build_archive (env_of cwd_AB) None (VList []) w0
      = (inl (IndexError "list index out of range"), w') ∧
    archivefile w' = archivefile w0 ∧ tmpdir w' = tmpdir w0 ∧
    (archivefile w0 = None → archivefile w' = None).
Proof.
  apply (C10_empty_timeout_list_raises_IndexError (env_of cwd_AB) None).
  vm_compute. discriminate.
Defined.

Lemma C8_staging_directory_witness :
  tmpdir (build_archive (env_of cwd_AB) (Some [["A"]; ["x"; "A"]]) (VInt (PInt 1)) w0).2 = None ∧
  tmpdir (build_archive (env_of cwd_AB) None (VInt (PInt 1)) w0).2 = None.
Proof.
  split.
  - apply (proj2 (proj2 (C8_staging_directory_removed_on_every_exit (env_of cwd_AB)))).
    reflexivity.
  - apply (proj2 (proj2 (C8_staging_directory_removed_on_every_exit (env_of cwd_AB)))).
    reflexivity.
Defined.


Lemma run_AB_completes :
  build_archive (env_of cwd_AB) None (VInt (PInt 5)) w0 = (inr tt, run_AB.2).
Proof. vm_compute. reflexivity. Qed.

Lemma C9_manifest_witness :
  build_archive (env_of cwd_AB) (Some [["B"]; ["A"]]) (VInt (PInt 5)) w0
  = build_archive (reversed_enumeration (env_of cwd_AB)) (Some [["A"]; ["B"]])
      (VInt (PInt 5)) w0 ∧
  build_archive (env_of cwd_AB) None (VInt (PInt 5)) w0
  = build_archive (reversed_enumeration (env_of cwd_AB)) None (VInt (PInt 5)) w0.
Proof.
  split.
  - apply (proj1 (C9_manifest_independent_of_enumeration (env_of cwd_AB)
                    (reversed_enumeration (env_of cwd_AB))
                    (same_inputs_reversed (env_of cwd_AB)))).
    apply Permutation_swap.
  - apply (proj1 (proj2 (C9_manifest_independent_of_enumeration (env_of cwd_AB)
                    (reversed_enumeration (env_of cwd_AB))
                    (same_inputs_reversed (env_of cwd_AB))))).
Defined.

(** ** Runs that complete *)

Lemma only_below_refl t q : only_below t t q.
Proof. by intros k _. Qed.

Lemma only_below_trans t1 t2 t3 q1 q2 q :
  only_below t1 t2 q1 → only_below t2 t3 q2 →
  q `prefix_of` q1 → q `prefix_of` q2 → only_below t1 t3 q.
Proof.
  intros H1 H2 Hq1 Hq2 k Hk. rewrite H2, H1; [done|..]; intros Hp; apply Hk.
  - by trans q1.
  - by trans q2.
Qed.

Lemma only_below_insert t q v : only_below t (<[q := v]> t) q.
Proof. intros k Hk. rewrite lookup_insert_ne; [done|]. by intros ->. Qed.

Lemma sibling_not_prefix (td : Path) (x y : string) :
  x ≠ y → ¬ (td ++ [x]) `prefix_of` (td ++ [y]).
Proof.
  intros Hxy [s Hs]. rewrite <- app_assoc in Hs. apply app_inv_head in Hs.
  simpl in Hs. injection Hs as Hy _. congruence.
Qed.

Lemma mkdir_run p w t :
  tmpdir w = Some t → t !! resolve p = None →
  t !! removelast (resolve p) = Some ODir →
  mkdir p w = (inr tt, set_tmpdir (Some (<[resolve p := ODir]> t)) w).
Proof. intros Ht Hq Hp. unfold mkdir, parent_error. by rewrite Ht, Hq, Hp. Qed.

Lemma shutil_copy_run env src dst w t :
  tmpdir w = Some t → is_file env src = true → t !! resolve dst = None →
  t !! removelast (resolve dst) = Some ODir →
  shutil_copy env src dst w
  = (inr tt, set_tmpdir (Some (<[resolve dst := OFile (read_bytes env src)]> t)) w).
Proof.
  intros Ht Hf Hq Hp. unfold shutil_copy. rewrite Hf, Ht, Hq.
  unfold write_file.
  assert (open_wb dst w = (inr tt, set_tmpdir (Some (<[resolve dst := OFile []]> t)) w)) as Ho.
  { unfold open_wb, parent_error. by rewrite Ht, Hq, Hp. }
  rewrite (bind_inr _ _ _ _ _ Ho).
  rewrite (file_write_run dst _ _ (<[resolve dst := OFile []]> t)) by done.
  by rewrite insert_insert_eq.
Qed.

Lemma stage_test_run env pn td h root x w t :
  tmpdir w = Some t → wf_tree t → t !! td = Some ODir → resolve td = td →
  test_stageable env x → t !! (td ++ [x.2]) = None →
  ∃ root' w' t', stage_test env pn td h root x w = (inr root', w') ∧
    tmpdir w' = Some t' ∧ only_below t t' (td ++ [x.2]).
Proof.
  destruct x as [[inp out] nm]. simpl.
  intros Ht Hwf Htd Hres ([Hin Hout] & Hfi & Hfo & Hn1 & Hn2 & Hn3) Hfresh.
  simpl in *.
  destruct (endswith_proper _ _ Hin ltac:(simpl; lia)) as (Hi1 & Hi2 & Hi3).
  destruct (endswith_proper _ _ Hout ltac:(simpl; lia)) as (Ho1 & Ho2 & Ho3).
  pose proof (endswith_in_out _ _ Hin Hout) as Hio.
  set (q := td ++ [nm]) in *.
  assert (resolve q = q) as Hq by (by apply resolve_proper).
  set (t1 := <[q := ODir]> t).
  assert (wf_tree t1) as Hwf1.
  { apply wf_tree_insert; auto. unfold q. by rewrite removelast_last. }
  assert (resolve (q ++ [name inp]) = q ++ [name inp]) as Hq1 by (by apply resolve_proper).
  assert (resolve (q ++ [name out]) = q ++ [name out]) as Hq2 by (by apply resolve_proper).
  assert (t1 !! (q ++ [name inp]) = None) as Hf1.
  { unfold t1. rewrite lookup_insert_ne by (intros E; symmetry in E; by apply snoc_ne in E).
    by apply wf_tree_fresh_child. }
  set (t2 := <[q ++ [name inp] := OFile (read_bytes env inp)]> t1).
  assert (t2 !! (q ++ [name out]) = None) as Hf2.
  { unfold t2, t1. rewrite lookup_insert_ne
      by (intros E; apply app_inv_head in E; by injection E).
    rewrite lookup_insert_ne by (intros E; symmetry in E; by apply snoc_ne in E).
    by apply wf_tree_fresh_child. }
  assert (mkdir q w = (inr tt, set_tmpdir (Some t1) w)) as Hmk.
  { rewrite (mkdir_run q w t Ht); rewrite Hq; [done..|].
    unfold q. by rewrite removelast_last. }
  assert (∀ w1, tmpdir w1 = Some t1 →
            shutil_copy env inp (q ++ [name inp]) w1 = (inr tt, set_tmpdir (Some t2) w1))
    as Hc1.
  { intros w1 H1. rewrite (shutil_copy_run env inp _ w1 t1 H1 Hfi); rewrite Hq1; [done..|].
    rewrite removelast_last. apply lookup_insert_eq. }
  assert (∀ w1, tmpdir w1 = Some t2 →
            shutil_copy env out (q ++ [name out]) w1
            = (inr tt, set_tmpdir
                 (Some (<[q ++ [name out] := OFile (read_bytes env out)]> t2)) w1))
    as Hc2.
  { intros w1 H1. rewrite (shutil_copy_run env out _ w1 t2 H1 Hfo); rewrite Hq2; [done..|].
    rewrite removelast_last. unfold t2.
    rewrite lookup_insert_ne by (intros E; by apply snoc_ne in E). apply lookup_insert_eq. }
  do 2 eexists. exists (<[q ++ [name out] := OFile (read_bytes env out)]> t2).
  split; [|split].
  - unfold stage_test. rewrite !joinpath_proper by done. fold q.
    rewrite (bind_inr _ _ _ _ _ Hmk).
    match goal with |- context [mbind ?k (shutil_copy env inp _) ?w1] =>
      rewrite (bind_inr _ k w1 _ _ (Hc1 w1 eq_refl)) end.
    match goal with |- context [mbind ?k (shutil_copy env out _) ?w1] =>
      rewrite (bind_inr _ k w1 _ _ (Hc2 w1 eq_refl)) end.
    reflexivity.
  - reflexivity.
  - intros k Hk. unfold t2, t1.
    rewrite !lookup_insert_ne; [done|..]; intros <-; apply Hk; try done;
      by apply prefix_app_r.
Qed.

Lemma stage_tests_run env pn td h tests : ∀ root w t,
  tmpdir w = Some t → wf_tree t → t !! td = Some ODir → resolve td = td →
  Forall (test_stageable env) tests → NoDup tests.*2 →
  (∀ nm, nm ∈ tests.*2 → t !! (td ++ [nm]) = None) →
  ∃ root' w' t', for_fold (stage_test env pn td h) root tests w = (inr root', w') ∧
    tmpdir w' = Some t' ∧ only_below t t' td.
Proof.
  induction tests as [|x tests IH]; intros root w t Ht Hwf Htd Hres Hok Hnd Hfresh.
  - exists root, w, t. split; [done|]. split; [done|apply only_below_refl].
  - apply Forall_cons in Hok as [Hx Hok]. rewrite fmap_cons in Hnd, Hfresh.
    apply NoDup_cons in Hnd as [Hx2 Hnd].
    destruct (stage_test_run env pn td h root x w t Ht Hwf Htd Hres Hx)
      as (root1 & w1 & t1 & Hrun & Ht1 & Hob1).
    { apply Hfresh. by left. }
    destruct (stage_test_inv _ _ _ _ _ _ _ _ _ _ Hrun Ht Hwf Htd Hres
                (proj1 (proj1 Hx)) (proj2 (proj1 Hx)))
      as (_ & t1' & Ht1' & Hwf1 & Hsub1 & _).
    rewrite Ht1 in Ht1'. injection Ht1' as <-.
    destruct (IH root1 w1 t1 Ht1 Hwf1 (lookup_weaken _ _ _ _ Htd Hsub1) Hres Hok Hnd)
      as (root' & w' & t' & Hrun' & Ht' & Hob').
    { intros nm Hnm. rewrite Hob1; [apply Hfresh; by right|].
      apply sibling_not_prefix. intros E. by rewrite E in Hx2. }
    exists root', w', t'. split; [|split; [done|]].
    + simpl. by rewrite (bind_inr _ _ _ _ _ Hrun).
    + apply (only_below_trans _ _ _ _ _ _ Hob1 Hob'); [by apply prefix_app_r|done].
Qed.

Lemma stage_problem_run env c tm root w t a :
  tmpdir w = Some t → wf_tree t → archivefile w = Some a → closed a = false →
  str_in (pname c) ascii_uppercase = true → stageable env c →
  t !! [pname c] = None →
  ∃ root' w' t', stage_problem env c tm root w = (inr root', w') ∧
    tmpdir w' = Some t' ∧ only_below t t' [pname c].
Proof.
  intros Ht Hwf Ha Hopen Hname (HL0 & Hdesc & Hok & Hnd) Hfresh.
  set (L := pname c) in *.
  destruct (str_in_uppercase_proper L Hname) as [HL1 HL2].
  assert (resolve [L] = [L]) as HrL by (by apply (resolve_proper [] L)).
  assert (resolve [L; "description.html"] = [L; "description.html"]) as Hrd
    by (by apply (resolve_proper [L])).
  assert (resolve [L; "tests"] = [L; "tests"]) as Hrt by (by apply (resolve_proper [L])).
  set (t1 := <[[L] := ODir]> t).
  set (t2 := <[[L; "description.html"] := OFile (read_bytes env (descriptionfile c))]> t1).
  set (t3 := <[[L; "tests"] := ODir]> t2).
  assert (wf_tree t1) as Hwf1 by (apply wf_tree_insert; [done|apply Hwf|auto]).
  assert (t1 !! [L; "description.html"] = None) as Hfd.
  { unfold t1. rewrite lookup_insert_ne by done. by apply (wf_tree_fresh_child t [L]). }
  assert (wf_tree t2) as Hwf2.
  { apply wf_tree_insert; [done|apply lookup_insert_eq|auto]. }
  assert (t2 !! [L; "tests"] = None) as Hft.
  { unfold t2, t1. rewrite !lookup_insert_ne by done. by apply (wf_tree_fresh_child t [L]). }
  assert (wf_tree t3) as Hwf3.
  { apply wf_tree_insert; [done| |auto]. unfold t2. rewrite lookup_insert_ne by done.
    apply lookup_insert_eq. }
  assert (mkdir [L] w = (inr tt, set_tmpdir (Some t1) w)) as Hmk.
  { rewrite (mkdir_run [L] w t Ht); rewrite HrL; [done..|]. apply Hwf. }
  assert (∀ w1, tmpdir w1 = Some t1 →
            shutil_copy env (descriptionfile c) [L; "description.html"] w1
            = (inr tt, set_tmpdir (Some t2) w1)) as Hcp.
  { intros w1 H1. rewrite (shutil_copy_run env _ _ w1 t1 H1 Hdesc); rewrite Hrd; [done..|].
    apply lookup_insert_eq. }
  assert (∀ w1, tmpdir w1 = Some t2 →
            mkdir [L; "tests"] w1 = (inr tt, set_tmpdir (Some t3) w1)) as Hmk2.
  { intros w1 H1. rewrite (mkdir_run _ w1 t2 H1); rewrite Hrt; [done..|].
    unfold t2. rewrite lookup_insert_ne by done. apply lookup_insert_eq. }
  unfold stage_problem, ET_SubElement. cbv beta iota zeta. fold L.
  rewrite (joinpath_proper [] L) by done. simpl app.
  change (joinpath [L] "description.html") with [L; "description.html"].
  change (joinpath [L] "tests") with [L; "tests"].
  rewrite (bind_inr _ _ _ _ _ Hmk).
  match goal with |- context [mbind ?k (shutil_copy env _ _) ?w1] =>
    rewrite (bind_inr _ k w1 _ _ (Hcp w1 eq_refl)) end.
  match goal with |- context [mbind ?k (mkdir [L; "tests"]) ?w1] =>
    rewrite (bind_inr _ k w1 _ _ (Hmk2 w1 eq_refl)) end.
  match goal with |- context [mbind ?k (for_fold (stage_test env L ?td ?h) ?r ?l) ?w1] =>
    destruct (stage_tests_run env L td h l r w1 t3 eq_refl Hwf3
                (lookup_insert_eq _ _ _) Hrt Hok Hnd)
      as (root4 & w4 & t4 & Hrun & Ht4 & Hob4);
    [|pose proof (stage_tests_inv env L td h l r w1 root4 w4 t3 Hrun eq_refl Hwf3
                    (lookup_insert_eq _ _ _) Hrt
                    (Forall_impl _ _ _ Hok (λ x Hx, proj1 Hx)))
        as (_ & t4' & Ht4' & Hwf4 & Hsub4 & Ha4 & _);
      rewrite (bind_inr _ k w1 _ _ Hrun)]
  end.
  { intros nm _. unfold t3.
    rewrite lookup_insert_ne by (intros E; symmetry in E; by apply snoc_ne in E).
    by apply (wf_tree_fresh_child t2 [L; "tests"]). }
  rewrite Ht4 in Ht4'. injection Ht4' as <-. simpl in Ha4.
  assert (t4 !! [L] = Some ODir) as HL4.
  { rewrite Hob4.
    - unfold t3, t2, t1. rewrite !lookup_insert_ne by done. apply lookup_insert_eq.
    - intros [s Hs]. discriminate Hs. }
  do 2 eexists. exists t4. split; [|split].
  - unfold mbind, M_bind, tarfile_add. rewrite Ha4, Ha, Ht4, Hopen, HrL, HL4. reflexivity.
  - exact Ht4.
  - assert (only_below t t1 [L]) as O1 by apply only_below_insert.
    assert (only_below t1 t2 [L; "description.html"]) as O2 by apply only_below_insert.
    assert (only_below t2 t3 [L; "tests"]) as O3 by apply only_below_insert.
    assert ([L] `prefix_of` [L; "description.html"]) as P1 by (by exists ["description.html"]).
    assert ([L] `prefix_of` [L; "tests"]) as P2 by (by exists ["tests"]).
    pose proof (only_below_trans _ _ _ _ _ [L] O1 O2 (reflexivity _) P1) as O12.
    pose proof (only_below_trans _ _ _ _ _ [L] O12 O3 (reflexivity _) P2) as O123.
    apply (only_below_trans _ _ _ _ _ [L] O123 Hob4 (reflexivity _) P2).
Qed.

Lemma loop_run env pts : ∀ T A cs w t a,
  tmpdir w = Some t → wf_tree t → archivefile w = Some a → closed a = false →
  Forall (stageable env) (accepted env pts.*1) →
  NoDup (pname <$> accepted env pts.*1) →
  (∀ L, L ∈ pname <$> accepted env pts.*1 → t !! [L] = None) →
  ∃ root' w' t',
    for_fold (process_problem env) (Elem T A cs) pts w = (inr root', w') ∧
    tmpdir w' = Some t' ∧
    ∀ k, (∀ L, str_in L ascii_uppercase = true → ¬ [L] `prefix_of` k) →
         t' !! k = t !! k.
Proof.
  induction pts as [|[p tm] pts IH]; intros T A cs w t a Ht Hwf Ha Hopen Hst Hnd Hfresh.
  - exists (Elem T A cs), w, t. by repeat split.
  - unfold accepted in *. rewrite fmap_cons in Hst, Hnd, Hfresh. simpl in Hst, Hnd, Hfresh.
    destruct (checked_of env p) as [c|] eqn:Hc; simpl in Hst, Hnd, Hfresh.
    + apply Forall_cons in Hst as [Hc1 Hst]. apply NoDup_cons in Hnd as [Hc2 Hnd].
      destruct (checked_of_props env p c Hc) as [Hname Hok].
      destruct (process_problem_accepted env p tm (Elem T A cs) c w Hc) as [msgs Hpp].
      destruct (stage_problem_run env c tm (Elem T A cs) (add_log msgs w) t a
                  Ht Hwf Ha Hopen Hname Hc1) as (root1 & w1 & t1 & Hrun & Ht1 & Hob1).
      { apply Hfresh. by left. }
      destruct (stage_problem_inv env c tm T A cs _ _ _ t a Hrun Ht Hwf Ha Hopen Hname Hok)
        as (-> & _ & _ & t1' & Ht1' & Hwf1 & _ & Ha1 & _).
      rewrite Ht1 in Ht1'. injection Ht1' as <-.
      destruct (IH T A (cs ++ [problem_element (pname c) tm (test_names <$> test_cases c)])
                  w1 t1 _ Ht1 Hwf1 Ha1 eq_refl Hst Hnd)
        as (root' & w' & t' & Hrun' & Ht' & Hob').
      { intros L HL. rewrite Hob1; [apply Hfresh; by right|].
        intros [s Hs]. injection Hs as E _. rewrite E in HL. done. }
      exists root', w', t'. split; [|split; [done|]].
      * simpl. rewrite (bind_inr _ _ _ _ _ (eq_trans (Hpp) Hrun)). exact Hrun'.
      * intros k Hk. rewrite Hob', Hob1; [done| |done]. by apply Hk.
    + destruct (process_problem_rejected env p tm (Elem T A cs)) as (r & rest & _ & Hlog).
      { unfold checked_of in Hc. by destruct (passes_checks env p). }
      destruct (IH T A cs (add_log ((WARNING, r) :: rest) w) t a Ht Hwf Ha Hopen Hst Hnd Hfresh)
        as (root' & w' & t' & Hrun' & Ht' & Hob').
      exists root', w', t'. split; [|done].
      simpl. by rewrite (bind_inr _ _ _ _ _ (Hlog w)).
Qed.

Lemma accepted_zip env (ps : list Path) (ts : list pyint) :
  (length ps ≤ length ts)%nat → accepted env (zip ps ts).*1 = accepted env ps.
Proof. intros H. by rewrite fst_zip. Qed.

(** On input that can be staged, with distinct problem names, and
    under a locale that decodes the manifest, [build_archive]
    completes. *)
Lemma build_archive_completes env problems timeouts ts ls w :
  documented_rule (length (problem_list env problems)) timeouts ts →
  Forall (stageable env) (accepted env (sorted_paths (problem_list env problems))) →
  NoDup (pname <$> accepted env (sorted_paths (problem_list env problems))) →
  text_lines env (ET_tostring (Elem "Problems" [("Presents", "radio")]
    (manifest_entries env (zip (sorted_paths (problem_list env problems)) ts)))) = Some ls →
  ∃ w', build_archive env problems timeouts w = (inr tt, w').
Proof.
  intros Hrule Hst Hnd Hls.
  destruct (discover_logs env problems) as [m1 Hd].
  destruct (resolve_documented _ _ _ Hrule) as [m2 Hr].
  assert (length (sorted_paths (problem_list env problems)) ≤ length ts)%nat as Hlen.
  { rewrite length_sorted_paths. eapply resolve_timeouts_length. apply (Hr w). }
  unfold build_archive.
  rewrite (bind_inr _ _ _ _ _ (Hd w)), length_sorted_paths.
  rewrite (bind_inr _ _ _ _ _ (Hr _)).
  rewrite (bind_inr _ _ _ _ _ (logs_only_logging _ _ _)).
  unfold mbind at 1, M_bind at 1, tarfile_open at 1.
  unfold with_TemporaryDirectory, staging_block.
  rewrite (bind_inr _ _ _ _ _ (logs_only_logging _ _ _)).
  change (ET_set [] "Presents" "radio" (ET_Element "Problems"))
    with (Elem "Problems" [("Presents", "radio")] []).
  rewrite <- (accepted_zip env _ ts Hlen) in Hst, Hnd.
  match goal with |- context [mbind ?k (for_fold _ _ ?pts) ?w1] =>
    destruct (loop_run env pts "Problems" [("Presents", "radio")] [] w1
                {[ [] := ODir ]} (TarFile [] false) eq_refl wf_tree_init eq_refl eq_refl
                Hst Hnd) as (root' & w' & t' & Hrun & Ht' & Hob);
    [|pose proof (loop_inv env pts _ _ _ w1 root' w' {[ [] := ODir ]} (TarFile [] false)
                    Hrun eq_refl wf_tree_init eq_refl eq_refl)
        as (-> & t'' & ms & Ht'' & Hwf' & _ & Ha' & _);
      rewrite (bind_inr _ k w1 _ _ Hrun)]
  end.
  { intros L _. by rewrite lookup_singleton_ne. }
  rewrite Ht' in Ht''. injection Ht'' as <-. simpl in Ha'.
  simpl app.
  destruct (write_manifest_run env
              (Elem "Problems" [("Presents", "radio")]
                 (manifest_entries env (zip (sorted_paths (problem_list env problems)) ts)))
              w' t' (TarFile ms false) ls Ht' Hwf' Ha' eq_refl)
    as [m4 Hm]; [|exact Hls|].
  { rewrite Hob; [by rewrite lookup_singleton_ne|].
    intros L HL [s Hs]. injection Hs as E _. rewrite <- E in HL. discriminate HL. }
  rewrite Hm. by eexists.
Qed.

(** ** The manifest and the archive *)


(** C7. On input that can be staged the run completes; and in the
    archive of a completed run, every problem directory that passed the
    checks, with name [L], has [L/description.html] with the bytes of
    its description file and, for each test case with stem [s],
    [L/tests/s/] followed by the name of the input file, and by the name
    of the output file, each with the bytes of that file; and the
    manifest [Content.xml] is the last member, after all of these. *)
Theorem C7_archive_layout env problems timeouts w :
  (∀ ts, documented_rule (length (problem_list env problems)) timeouts ts →
         can_complete env problems ts →
         ∃ w', build_archive env problems timeouts w = (inr tt, w')) ∧
  ∀ w', build_archive env problems timeouts w = (inr tt, w') →
  ∃ ms manifest,
    archivefile w' = Some (TarFile (ms ++ [(["Content.xml"], OFile manifest)]) true) ∧
    ∀ p c, p ∈ problem_list env problems → checked_of env p = Some c →
      pname c = name p ∧
      ([pname c; "description.html"],
       OFile (read_bytes env (joinpath p "description.html"))) ∈ ms ∧
      ∀ inp out s, (inp, out, s) ∈ test_cases c →
        stem inp = s ∧ stem out = s ∧
        ([pname c; "tests"; s; name inp], OFile (read_bytes env inp)) ∈ ms ∧
        ([pname c; "tests"; s; name out], OFile (read_bytes env out)) ∈ ms.
Proof.
  split.
  { intros ts Hrule (Hst & Hnd & [ls Hls]).
    by apply (build_archive_completes env problems timeouts ts ls). }
  intros w' H. apply build_archive_inv in H as (ts & ms & _ & _ & Ha & Hall).
  exists ms. eexists. split; [exact Ha|].
  intros p c Hp Hc. destruct (Hall p c Hp Hc) as [Hd Ht].
  pose proof (checked_of_Some env p c Hc) as [Hpass Heq].
  split; [by rewrite Heq|]. split; [by rewrite Heq in Hd |- *|].
  intros inp out s Hx. destruct (Ht _ Hx) as [H1 H2]. simpl in H1, H2.
  rewrite Heq in Hx. unfold test_cases in Hx. simpl in Hx.
  unfold passes_checks in Hpass. repeat (apply andb_true_iff in Hpass as [Hpass ?]).
  match goal with Hb : bool_decide (_ = _) = true |- _ =>
    apply bool_decide_eq_true in Hb; rename Hb into Hstems end.
  apply list_elem_of_lookup in Hx as [i Hi].
  rewrite !lookup_zip_with in Hi.
  destruct (inputs_of env p !! i) as [inp'|] eqn:E1; [|done]. simpl in Hi.
  destruct (outputs_of env p !! i) as [out'|] eqn:E2; [|done]. simpl in Hi.
  pose proof (f_equal (λ l, l !! i) Hstems) as Hi'. simpl in Hi'.
  rewrite !list_lookup_fmap, E1, E2 in Hi'. simpl in Hi'. injection Hi' as Hi'.
  rewrite list_lookup_fmap, E1 in Hi. simpl in Hi. injection Hi as <- <- <-.
  split; [done|]. split; [done|]. done.
Qed.

Lemma cwd_AB_can_complete : can_complete (env_of cwd_AB) None [PInt 5; PInt 5].
Proof.
  split; [|split].
  - change (accepted (env_of cwd_AB) (sorted_paths (problem_list (env_of cwd_AB) None)))
      with [Checked "A" ["A"; "description.html"] [["A"; "tests"; "1.in"]]
              [["A"; "tests"; "1.out"]] ["1"];
            Checked "B" ["B"; "description.html"] [["B"; "tests"; "1.in"]]
              [["B"; "tests"; "1.out"]] ["1"]].
    repeat constructor; try discriminate; apply not_elem_of_nil.
  - change (pname <$> accepted (env_of cwd_AB)
                        (sorted_paths (problem_list (env_of cwd_AB) None)))
      with ["A"; "B"].
    apply NoDup_cons. split; [|apply NoDup_singleton].
    intros H%list_elem_of_singleton. discriminate H.
  - vm_compute. by eexists.
Qed.


Lemma C7_archive_layout_witness :
  (∃ w', build_archive (env_of cwd_AB) None (VInt (PInt 5)) w0 = (inr tt, w')) ∧
  ∃ ms manifest,
    archivefile run_AB.2 = Some (TarFile (ms ++ [(["Content.xml"], OFile manifest)]) true) ∧
    ∀ p c, p ∈ problem_list (env_of cwd_AB) None → checked_of (env_of cwd_AB) p = Some c →
      pname c = name p ∧
      ([pname c; "description.html"],
       OFile (read_bytes (env_of cwd_AB) (joinpath p "description.html"))) ∈ ms ∧
      ∀ inp out s, (inp, out, s) ∈ test_cases c →
        stem inp = s ∧ stem out = s ∧
        ([pname c; "tests"; s; name inp], OFile (read_bytes (env_of cwd_AB) inp)) ∈ ms ∧
        ([pname c; "tests"; s; name out], OFile (read_bytes (env_of cwd_AB) out)) ∈ ms.
Proof.
  split.
  - exact (proj1 (C7_archive_layout (env_of cwd_AB) None (VInt (PInt 5)) w0)
             [PInt 5; PInt 5] (rule_scalar 2 (PInt 5)) cwd_AB_can_complete).
  - exact (proj2 (C7_archive_layout (env_of cwd_AB) None (VInt (PInt 5)) w0)
             run_AB.2 run_AB_completes).
Defined.

(** ** Every way the staging can end *)

Lemma bounded_refl t S : bounded t S t.
Proof. intros k v H. by left. Qed.

Lemma bounded_insert t0 (S : Path * obj → Prop) t q x :
  bounded t0 S t → S (q, x) → bounded t0 S (<[q := x]> t).
Proof.
  intros Hb Hx k v H. apply lookup_insert_Some in H as [[<- <-]|[_ H]]; [by right|by apply Hb].
Qed.

Lemma bounded_trans t0 t1 t2 (S1 S2 S : Path * obj → Prop) :
  bounded t0 S1 t1 → bounded t1 S2 t2 →
  (∀ x, S1 x → S x) → (∀ x, S2 x → S x) → bounded t0 S t2.
Proof.
  intros H1 H2 I1 I2 k v H. destruct (H2 k v H) as [H'|H']; [|right; by apply I2].
  destruct (H1 k v H') as [H''|H'']; [by left|right; by apply I1].
Qed.

Lemma filter_all {A} (P : A → Prop) `{!∀ x, Decision (P x)} (l : list A) :
  Forall P l → filter P l = l.
Proof.
  induction 1 as [|x l Hx _ IH]; [done|]. by rewrite filter_cons, decide_True, IH.
Qed.

Lemma filter_none {A} (P : A → Prop) `{!∀ x, Decision (P x)} (l : list A) :
  Forall (λ x, ¬ P x) l → filter P l = [].
Proof.
  induction 1 as [|x l Hx _ IH]; [done|]. by rewrite filter_cons, decide_False, IH.
Qed.

Lemma Permutation_three {A} (a b c : A) l : c :: b :: a :: l ≡ₚ [a; b; c] ++ l.
Proof.
  simpl. by rewrite (Permutation_swap c b), (Permutation_swap c a), (Permutation_swap b a).
Qed.

Lemma by_path_total : Total (λ x y : Path * obj, path_le x.1 y.1).
Proof. intros x y. apply (total path_le). Qed.

Lemma by_path_trans : Transitive (λ x y : Path * obj, path_le x.1 y.1).
Proof. intros x y z. apply (transitivity (R := path_le)). Qed.

(** The members [tarfile.add] writes for a directory [L] of the staging
    tree are the objects at and below it, in ascending order of
    path. *)
Lemma tree_members_sorted (t : gmap (list string) obj) (L : string)
    (objs : list (Path * obj)) :
  filter (λ kv, [L] `prefix_of` kv.1) (map_to_list t) ≡ₚ objs →
  tree_members t [L] [L] = merge_sort (λ x y, path_le x.1 y.1) objs.
Proof.
  intros Hperm. unfold tree_members.
  set (F := filter (λ kv : Path * obj, [L] `prefix_of` kv.1) (map_to_list t)) in *.
  assert (∀ x, x ∈ F → t !! x.1 = Some x.2 ∧ [L] `prefix_of` x.1) as HF.
  { intros x [Hp Hx]%list_elem_of_filter. by apply elem_of_map_to_list' in Hx. }
  assert (merge_sort (λ x y : Path * obj, path_le x.1 y.1) F
          = merge_sort (λ x y : Path * obj, path_le x.1 y.1) objs) as Heq.
  { apply (@Sorted_unique_strong _ _ by_path_trans).
    - intros x1 x2 H1 H2 R1 R2.
      rewrite merge_sort_Permutation in H1. rewrite merge_sort_Permutation, <- Hperm in H2.
      destruct (HF _ H1) as [G1 _], (HF _ H2) as [G2 _].
      pose proof (anti_symm path_le _ _ R1 R2) as Hk.
      destruct x1 as [k1 v1], x2 as [k2 v2]. simpl in *. subst k2. congruence.
    - apply (@Sorted_merge_sort _ _ _ by_path_total).
    - apply (@Sorted_merge_sort _ _ _ by_path_total).
    - by rewrite !merge_sort_Permutation. }
  rewrite Heq. rewrite <- (list_fmap_id (merge_sort _ objs)) at 2.
  apply Forall_fmap_ext, Forall_forall. intros [k v] Hx.
  rewrite merge_sort_Permutation, <- Hperm in Hx.
  destruct (HF _ Hx) as [_ [rest Hrest]]. simpl in *. by subst k.
Qed.

Lemma mkdir_fails p w e w' : mkdir p w = (inl e, w') → w' = w ∧ staging_exn e.
Proof.
  unfold mkdir, parent_error. destruct (tmpdir w) as [t|]; [|by intros [= <- <-]].
  destruct (t !! resolve p); [by intros [= <- <-]|].
  destruct (t !! removelast (resolve p)) as [[|d]|]; [done|by intros [= <- <-]..].
Qed.


Lemma open_wb_fails p w e w' : open_wb p w = (inl e, w') → w' = w ∧ staging_exn e.
Proof.
  unfold open_wb, parent_error. destruct (tmpdir w) as [t|]; [|by intros [= <- <-]].
  destruct (t !! resolve p) as [[|d]|]; [by intros [= <- <-]|..];
    (destruct (t !! removelast (resolve p)) as [[|d']|]; [done|by intros [= <- <-]..]).
Qed.

Lemma shutil_copy_fails env src dst w e w' :
  shutil_copy env src dst w = (inl e, w') → w' = w ∧ staging_exn e.
Proof.
  unfold shutil_copy. destruct (is_file env src).
  - unfold write_file. set (d := match tmpdir w with Some _ => _ | None => _ end).
    unfold mbind, M_bind. destruct (open_wb d w) as [[e'|[]] w1] eqn:Ho.
    + intros [= <- <-]. by apply open_wb_fails in Ho.
    + unfold file_write. by destruct (tmpdir w1).
  - destruct (is_dir env src); by intros [= <- <-].
Qed.

Lemma stage_test_outcome env pn td h root x w t :
  tmpdir w = Some t → wf_tree t → t !! td = Some ODir → resolve td = td →
  test_files_ok x →
  ∃ r w' t', stage_test env pn td h root x w = (r, w') ∧
    log w' = log w ∧ archivefile w' = archivefile w ∧
    tmpdir w' = Some t' ∧ wf_tree t' ∧ t ⊆ t' ∧
    bounded t (.∈ test_objects env td x) t' ∧
    match r with
    | inl e => staging_exn e
    | inr root' =>
        root' = xml_stage_test pn h root x ∧
        test_stageable env x ∧ t !! (td ++ [x.2]) = None ∧
        map_to_list t' ≡ₚ test_objects env td x ++ map_to_list t ∧
        test_staged env t' td x
    end.
Proof.
  destruct x as [[inp out] nm]. intros Ht Hwf Htd Hres [Hin Hout]. simpl in Hin, Hout.
  destruct (endswith_proper _ _ Hin ltac:(simpl; lia)) as (Hi1 & Hi2 & Hi3).
  destruct (endswith_proper _ _ Hout ltac:(simpl; lia)) as (Ho1 & Ho2 & Ho3).
  pose proof (endswith_in_out _ _ Hin Hout) as Hio.
  unfold stage_test, test_objects, xml_stage_test, ET_SubElement. cbv beta iota zeta. simpl fst; simpl snd.
  destruct (mkdir (joinpath td nm) w) as [[e|[]] w1] eqn:Hmk.
  { apply mkdir_fails in Hmk as Hf. destruct Hf as [-> He].
    rewrite (bind_inl _ _ _ _ _ Hmk). exists (inl e), w, t.
    split_and!; try done. apply bounded_refl. }
  rewrite (bind_inr _ _ _ _ _ Hmk).
  apply mkdir_inv in Hmk as (t0 & Ht0 & Hfresh & Hpar & ->).
  rewrite Ht in Ht0. injection Ht0 as <-.
  assert (joinpath td nm = td ++ [nm] ∧ nm ≠ ".." ∧ nm ≠ "" ∧ nm ≠ ".") as (Hj & Hnm & Hnm1 & Hnm2).
  { destruct (decide (nm = "" ∨ nm = ".")) as [Hd|Hd].
    - exfalso. unfold joinpath in Hfresh. rewrite decide_True in Hfresh by done.
      rewrite Hres, Htd in Hfresh. done.
    - rewrite joinpath_proper in Hfresh |- * by tauto.
      split; [done|]. split; [|tauto]. intros ->. rewrite resolve_snoc, Hres in Hfresh.
      simpl in Hfresh.
      rewrite (wf_tree_parent t td Hwf) in Hfresh; [done|by eexists]. }
  rewrite Hj in *. clear Hj.
  set (q := td ++ [nm]) in *.
  assert (resolve q = q) as Hq by (by apply resolve_proper).
  rewrite Hq in *.
  set (t1 := <[q := ODir]> t) in *.
  assert (wf_tree t1) as Hwf1 by (apply wf_tree_insert; auto).
  assert (t ⊆ t1) as Hs1 by (apply insert_subseteq; done).
  replace (td ++ [nm; name inp]) with (q ++ [name inp]) by (unfold q; by rewrite <- app_assoc).
  replace (td ++ [nm; name out]) with (q ++ [name out]) by (unfold q; by rewrite <- app_assoc).
  set (S := (λ y : Path * obj, y ∈ [(q, ODir); (q ++ [name inp], OFile (read_bytes env inp));
                     (q ++ [name out], OFile (read_bytes env out))])).
  assert (bounded t S t1) as Hb1.
  { apply bounded_insert; [apply bounded_refl|]. unfold S. set_solver. }
  (* the input file *)
  rewrite (joinpath_proper q (name inp)) by done.
  rewrite (joinpath_proper q (name out)) by done.
  assert (resolve (q ++ [name inp]) = q ++ [name inp]) as Hq1 by (by apply resolve_proper).
  assert (t1 !! (q ++ [name inp]) = None) as Hf1.
  { unfold t1. rewrite lookup_insert_ne by (intros E; symmetry in E; by apply snoc_ne in E).
    by apply wf_tree_fresh_child. }
  match goal with |- context [mbind ?k (shutil_copy env inp ?d) ?w1] =>
    destruct (shutil_copy env inp d w1) as [[e|[]] w2] eqn:Hc1;
    [apply shutil_copy_fails in Hc1 as Hf; destruct Hf as [-> He];
     rewrite (bind_inl _ k _ _ _ Hc1)
    |rewrite (bind_inr _ k _ _ _ Hc1)] end.
  { exists (inl e). eexists. exists t1. split_and!; try done. }
  eapply shutil_copy_inv in Hc1 as (Hfi & Hp1 & Hw2); [|reflexivity|by rewrite Hq1].
  subst w2. rewrite Hq1 in *.
  set (t2 := <[q ++ [name inp] := OFile (read_bytes env inp)]> t1) in *.
  assert (wf_tree t2) as Hwf2 by (apply wf_tree_insert; auto).
  assert (t1 ⊆ t2) as Hs2 by (apply insert_subseteq; done).
  assert (bounded t S t2) as Hb2.
  { apply bounded_insert; [done|]. unfold S. set_solver. }
  (* the output file *)
  assert (resolve (q ++ [name out]) = q ++ [name out]) as Hq2 by (by apply resolve_proper).
  assert (q ++ [name inp] ≠ q ++ [name out]) as Hne12.
  { intros E. apply app_inv_head in E. by injection E. }
  assert (t2 !! (q ++ [name out]) = None) as Hf2.
  { unfold t2, t1. rewrite lookup_insert_ne by done.
    rewrite lookup_insert_ne by (intros E; symmetry in E; by apply snoc_ne in E).
    by apply wf_tree_fresh_child. }
  match goal with |- context [mbind ?k (shutil_copy env out ?d) ?w1] =>
    destruct (shutil_copy env out d w1) as [[e|[]] w3] eqn:Hc2;
    [apply shutil_copy_fails in Hc2 as Hf; destruct Hf as [-> He];
     rewrite (bind_inl _ k _ _ _ Hc2)
    |rewrite (bind_inr _ k _ _ _ Hc2)] end.
  { exists (inl e). eexists. exists t2. split_and!; try done. by etrans. }
  eapply shutil_copy_inv in Hc2 as (Hfo & Hp2 & Hw3); [|reflexivity|by rewrite Hq2].
  subst w3. rewrite Hq2 in *.
  set (t3 := <[q ++ [name out] := OFile (read_bytes env out)]> t2) in *.
  assert (t2 ⊆ t3) as Hs3 by (apply insert_subseteq; done).
  eexists (inr _). eexists. exists t3. split; [reflexivity|].
  split; [done|]. split; [done|]. split; [done|].
  split; [apply wf_tree_insert; auto|].
  split; [by etrans; [|etrans]|].
  split; [apply bounded_insert; [done|]; unfold S; set_solver|].
  split; [done|]. split; [done|]. split; [done|].
  split.
  { unfold t3. rewrite (map_to_list_insert t2 _ _ Hf2). unfold t2.
    rewrite (map_to_list_insert t1 _ _ Hf1). unfold t1.
    rewrite (map_to_list_insert t _ _ Hfresh). apply Permutation_three. }
  unfold test_staged. simpl.
  replace (td ++ [nm; name inp]) with (q ++ [name inp]) by (unfold q; by rewrite <- app_assoc).
  replace (td ++ [nm; name out]) with (q ++ [name out]) by (unfold q; by rewrite <- app_assoc).
  unfold t3, t2, t1. split_and!.
  - rewrite !lookup_insert_ne by (intros E; by apply snoc_ne in E). apply lookup_insert_eq.
  - rewrite lookup_insert_ne by done. apply lookup_insert_eq.
  - apply lookup_insert_eq.
Qed.

Lemma stage_tests_outcome env pn td h tests : ∀ root w t,
  tmpdir w = Some t → wf_tree t → t !! td = Some ODir → resolve td = td →
  Forall test_files_ok tests →
  ∃ r w' t', for_fold (stage_test env pn td h) root tests w = (r, w') ∧
    log w' = log w ∧ archivefile w' = archivefile w ∧
    tmpdir w' = Some t' ∧ wf_tree t' ∧ t ⊆ t' ∧
    bounded t (λ y, ∃ x, x ∈ tests ∧ y ∈ test_objects env td x) t' ∧
    match r with
    | inl e => staging_exn e
    | inr root' =>
        root' = foldl (xml_stage_test pn h) root tests ∧
        Forall (test_stageable env) tests ∧ NoDup tests.*2 ∧
        (∀ s, s ∈ tests.*2 → t !! (td ++ [s]) = None) ∧
        map_to_list t' ≡ₚ (tests ≫= test_objects env td) ++ map_to_list t ∧
        ∀ x, x ∈ tests → test_staged env t' td x
    end.
Proof.
  induction tests as [|x tests IH]; intros root w t Ht Hwf Htd Hres Hok.
  - exists (inr root), w, t. split_and!; try done.
    + apply bounded_refl.
    + constructor.
    + intros s Hs. by apply elem_of_nil in Hs.
    + intros x Hx. by apply elem_of_nil in Hx.
  - apply Forall_cons in Hok as [Hx Hok].
    destruct (stage_test_outcome env pn td h root x w t Ht Hwf Htd Hres Hx)
      as (r1 & w1 & t1 & Hrun & Hl1 & Ha1 & Ht1 & Hwf1 & Hs1 & Hb1 & Hr1).
    destruct r1 as [e|root1].
    { exists (inl e), w1, t1. split_and!; try done.
      - simpl. by rewrite (bind_inl _ _ _ _ _ Hrun).
      - intros k v Hk. destruct (Hb1 k v Hk) as [?|?]; [by left|right].
        exists x. split; [by left|done]. }
    destruct Hr1 as (-> & Hst & Hfresh & Hperm1 & Hstaged).
    destruct (IH (xml_stage_test pn h root x) w1 t1 Ht1 Hwf1
                (lookup_weaken _ _ _ _ Htd Hs1) Hres Hok)
      as (r & w' & t' & Hrun' & Hl' & Ha' & Ht' & Hwf' & Hs' & Hb' & Hr').
    exists r, w', t'. split_and!; try done.
    + simpl. by rewrite (bind_inr _ _ _ _ _ Hrun).
    + congruence.
    + congruence.
    + by etrans.
    + eapply bounded_trans; [exact Hb1|exact Hb'|..].
      * intros y Hy. exists x. split; [by left|done].
      * intros y (x' & Hx' & Hy). exists x'. split; [by right|done].
    + destruct r as [e|root']; [done|].
      destruct Hr' as (-> & Hall & Hnd & Hfr & Hperm' & Hstaged').
      split_and!; try done.
      * by constructor.
      * rewrite fmap_cons. constructor; [|done]. intros Hin.
        specialize (Hfr _ Hin). destruct Hstaged as (Hd & _). congruence.
      * intros s. rewrite fmap_cons. intros [->|Hs]%elem_of_cons; [done|].
        eapply lookup_weaken_None; [by apply Hfr|done].
      * rewrite Hperm', Hperm1, bind_cons, !app_assoc.
        by rewrite (Permutation_app_comm (tests ≫= _)).
      * intros y [->|Hy]%elem_of_cons; [|by apply Hstaged'].
        destruct Hstaged as (H1 & H2 & H3).
        split_and!; eapply lookup_weaken; eauto.
Qed.

Lemma tarfile_add_fails src arc w e w' :
  tarfile_add src arc w = (inl e, w') → w' = w.
Proof.
  unfold tarfile_add. destruct (archivefile w) as [a|]; [|by intros [= <- <-]].
  destruct (tmpdir w) as [t|]; [|by intros [= <- <-]].
  destruct (closed a); [by intros [= <- <-]|].
  destruct (t !! resolve src); [done|by intros [= <- <-]].
Qed.

Lemma elem_of_problem_objects_test env c x y :
  x ∈ test_cases c → y ∈ test_objects env [pname c; "tests"] x → y ∈ problem_objects env c.
Proof.
  intros Hx Hy. unfold problem_objects. apply elem_of_app. right.
  apply list_elem_of_bind. by exists x.
Qed.

Lemma problem_objects_head env c x :
  x ∈ problem_objects env c → ∃ rest, x.1 = pname c :: rest.
Proof.
  unfold problem_objects. rewrite elem_of_app, list_elem_of_bind.
  intros [H|(y & H & _)].
  - repeat (apply elem_of_cons in H as [->|H]); [by eexists..|by apply elem_of_nil in H].
  - unfold test_objects in H.
    repeat (apply elem_of_cons in H as [->|H]); [by eexists..|by apply elem_of_nil in H].
Qed.

Lemma stage_problem_outcome env c tm T A cs w t a :
  tmpdir w = Some t → wf_tree t → archivefile w = Some a → closed a = false →
  str_in (pname c) ascii_uppercase = true → Forall test_files_ok (test_cases c) →
  ∃ r w' t' ms, stage_problem env c tm (Elem T A cs) w = (r, w') ∧
    log w' = log w ∧ tmpdir w' = Some t' ∧ wf_tree t' ∧ t ⊆ t' ∧
    bounded t (.∈ problem_objects env c) t' ∧
    archivefile w' = Some (TarFile (members a ++ ms) false) ∧
    (∀ y, y ∈ ms → y ∈ problem_objects env c) ∧
    match r with
    | inl e => staging_exn e ∧ ms = []
    | inr root' =>
        root' = Elem T A (cs ++ [problem_entry c tm]) ∧
        stageable env c ∧ t !! [pname c] = None ∧
        ms = tree_members t' [pname c] [pname c] ∧
        ms = archived_objects env c ∧
        problem_staged env t' c
    end.
Proof.
  intros Ht Hwf Ha Hopen Hname Hok. set (L := pname c) in *.
  destruct (str_in_uppercase_proper L Hname) as [HL1 HL2].
  assert (archivefile w = Some (TarFile (members a ++ []) false)) as Ha0.
  { rewrite app_nil_r, Ha. destruct a; simpl in *; by subst. }
  unfold stage_problem, ET_SubElement. cbv beta iota zeta. fold L.
  simpl fst; simpl snd.
  destruct (mkdir (joinpath [] L) w) as [[e|[]] w1] eqn:Hmk.
  { apply mkdir_fails in Hmk as Hf. destruct Hf as [-> He].
    rewrite (bind_inl _ _ _ _ _ Hmk). exists (inl e), w, t, [].
    split_and!; try done. apply bounded_refl. intros y Hy. by apply elem_of_nil in Hy. }
  rewrite (bind_inr _ _ _ _ _ Hmk).
  apply mkdir_inv in Hmk as (t0 & Ht0 & Hfresh & Hpar & ->).
  rewrite Ht in Ht0. injection Ht0 as <-.
  assert (L ≠ "") as HL0.
  { intros E. rewrite E in Hfresh. change (resolve (joinpath [] "")) with (@nil string) in Hfresh.
    destruct Hwf as [Hroot _]. congruence. }
  rewrite (joinpath_proper [] L) in * by done. simpl app in *.
  assert (resolve [L] = [L]) as HrL by (by apply (resolve_proper [] L)).
  rewrite HrL in *.
  set (t1 := <[[L] := ODir]> t) in *.
  assert (wf_tree t1) as Hwf1 by (apply wf_tree_insert; auto).
  assert (t ⊆ t1) as Hs1 by (apply insert_subseteq; done).
  set (S := (λ y : Path * obj, y ∈ problem_objects env c)).
  assert (bounded t S t1) as Hb1.
  { apply bounded_insert; [apply bounded_refl|]. unfold S, problem_objects. fold L. set_solver. }
  (* the description *)
  change (joinpath [L] "description.html") with [L; "description.html"].
  change (joinpath [L] "tests") with [L; "tests"].
  assert (resolve [L; "description.html"] = [L; "description.html"]) as Hrd
    by (by apply (resolve_proper [L])).
  assert (t1 !! [L; "description.html"] = None) as Hfd.
  { unfold t1. rewrite lookup_insert_ne by done.
    by apply (wf_tree_fresh_child t [L]). }
  match goal with |- context [mbind ?k (shutil_copy env ?s ?d) ?w1] =>
    destruct (shutil_copy env s d w1) as [[e|[]] w2] eqn:Hcp;
    [apply shutil_copy_fails in Hcp as Hf; destruct Hf as [-> He];
     rewrite (bind_inl _ k _ _ _ Hcp)
    |rewrite (bind_inr _ k _ _ _ Hcp)] end.
  { exists (inl e). eexists. exists t1, []. split_and!; try done.
    intros y Hy. by apply elem_of_nil in Hy. }
  eapply shutil_copy_inv in Hcp as (Hdesc & Hpd & Hw2); [|reflexivity|by rewrite Hrd].
  subst w2. rewrite Hrd in *.
  set (t2 := <[[L; "description.html"] := OFile (read_bytes env (descriptionfile c))]> t1) in *.
  assert (wf_tree t2) as Hwf2 by (apply wf_tree_insert; auto).
  assert (t1 ⊆ t2) as Hs2 by (apply insert_subseteq; done).
  assert (bounded t S t2) as Hb2.
  { apply bounded_insert; [done|]. unfold S, problem_objects. fold L. set_solver. }
  (* the tests directory *)
  assert (resolve [L; "tests"] = [L; "tests"]) as Hrt by (by apply (resolve_proper [L])).
  match goal with |- context [mbind ?k (mkdir ?d) ?w1] =>
    destruct (mkdir d w1) as [[e|[]] w3] eqn:Hmk2;
    [apply mkdir_fails in Hmk2 as Hf; destruct Hf as [-> He];
     rewrite (bind_inl _ k _ _ _ Hmk2)
    |rewrite (bind_inr _ k _ _ _ Hmk2)] end.
  { exists (inl e). eexists. exists t2, []. split_and!; try done. by etrans.
    intros y Hy. by apply elem_of_nil in Hy. }
  apply mkdir_inv in Hmk2 as (t0 & Ht0 & Hft & Hpt & ->).
  injection Ht0 as <-. rewrite Hrt in *.
  set (t3 := <[[L; "tests"] := ODir]> t2) in *.
  assert (wf_tree t3) as Hwf3 by (apply wf_tree_insert; auto).
  assert (t2 ⊆ t3) as Hs3 by (apply insert_subseteq; done).
  assert (bounded t S t3) as Hb3.
  { apply bounded_insert; [done|]. unfold S, problem_objects. fold L. set_solver. }
  (* the test cases *)
  match goal with |- context [mbind ?k (for_fold (stage_test env L ?td ?h) ?r ?l) ?w1] =>
    destruct (stage_tests_outcome env L td h l r w1 t3 eq_refl Hwf3
                (lookup_insert_eq _ _ _) Hrt Hok)
      as (r4 & w4 & t4 & Hrun & Hl4 & Ha4 & Ht4 & Hwf4 & Hs4 & Hb4 & Hr4);
    destruct r4 as [e|root4];
    [rewrite (bind_inl _ k _ _ _ Hrun)|rewrite (bind_inr _ k _ _ _ Hrun)]
  end.
  all: simpl in Hl4, Ha4.
  all: assert (t ⊆ t4) as Hsub by (by etrans; [|etrans; [|etrans]]).
  all: assert (bounded t S t4) as Hbd
    by (eapply bounded_trans; [exact Hb3|exact Hb4|done|];
        intros y (x & Hx & Hy); by eapply elem_of_problem_objects_test).
  { exists (inl e), w4, t4, []. split_and!; try done. congruence.
    intros y Hy. by apply elem_of_nil in Hy. }
  destruct Hr4 as (Hroot & Hall & Hnd & Hfr & Hperm4 & Hstaged).
  assert (t4 !! [L] = Some ODir) as HL4.
  { apply (lookup_weaken t3); [|done].
    unfold t3, t2, t1. rewrite !lookup_insert_ne by done. apply lookup_insert_eq. }
  assert (t4 !! [L; "description.html"]
          = Some (OFile (read_bytes env (descriptionfile c)))) as Hd4.
  { apply (lookup_weaken t3); [|done].
    unfold t3, t2. rewrite lookup_insert_ne by done. apply lookup_insert_eq. }
  (* the archive *)
  exists (inr root4). eexists. exists t4, (tree_members t4 [L] [L]).
  split.
  { unfold mbind, M_bind, tarfile_add. rewrite Ha4, Ha, Ht4, Hopen, HrL, HL4. reflexivity. }
  assert (tree_members t4 [L] [L] = archived_objects env c) as Hsorted.
  { apply tree_members_sorted.
    assert (map_to_list t4 ≡ₚ problem_objects env c ++ map_to_list t) as ->.
    { rewrite Hperm4. unfold t3. rewrite (map_to_list_insert t2 _ _ Hft). unfold t2.
      rewrite (map_to_list_insert t1 _ _ Hfd). unfold t1.
      rewrite (map_to_list_insert t _ _ Hfresh), Permutation_three.
      unfold problem_objects. fold L. rewrite !app_assoc.
      by rewrite (Permutation_app_comm (test_cases c ≫= _)). }
    rewrite filter_app, filter_all, filter_none, app_nil_r; [done|..].
    - apply Forall_forall. intros [k v] Hk%elem_of_map_to_list [rest Hrest]. simpl in Hrest.
      subst k. destruct rest as [|r0 rest]; [simpl in Hk; congruence|].
      pose proof (wf_tree_below t [L] ([L] ++ r0 :: rest) v Hwf Hk) as Hx.
      rewrite Hx in Hfresh; [done|by eexists|done].
    - apply Forall_forall. intros y Hy. apply problem_objects_head in Hy as [rest Hy].
      rewrite Hy. by exists rest. }
  split_and!; try done.
  - intros [k' v'] Hy. apply elem_of_tree_members in Hy as (k & v0 & Hk & [rest Hrest] & Heq).
    subst k. injection Heq as -> ->. simpl.
    destruct (Hbd _ _ Hk) as [Hold|Hnew]; [|done].
    exfalso. pose proof (wf_tree_below t [L] ([L] ++ rest) v0 Hwf Hold) as Hx.
    destruct rest as [|r0 rest]; [simpl in Hold; congruence|].
    rewrite Hx in Hfresh; [done|by eexists|done].
  - assert (root4 = foldl (xml_stage_test L (xml_header (Elem T A cs) L tm).2)
                      (xml_header (Elem T A cs) L tm).1 (test_cases c)) as -> by exact Hroot.
    rewrite xml_header_eq. simpl fst. simpl snd.
    rewrite xml_stage_tests_last, <- problem_element_entry. unfold problem_element.
    by rewrite <- list_fmap_compose.
Qed.

(** ** What the checks log *)

Ltac check_logged :=
  eexists; split;
    [repeat first [apply logs_only_ret|apply logs_only_logging|eapply logs_only_bind]
    |split; [simpl; repeat (apply Forall_cons; split; [simpl; auto|]); by apply Forall_nil
            |reflexivity]].

(** The records of the checks are warnings and debug records, and the
    warnings are the two of the rejection. *)
Lemma check_problem_warnings env (p : Path) :
  ∃ msgs, logs_only (check_problem env p) (checked_of env p) msgs ∧
    Forall (λ r, r.1 = WARNING ∨ r.1 = DEBUG) msgs ∧
    filter (λ r, (levelno WARNING ≤ levelno r.1)%nat) msgs = rejection_warnings env p.
Proof.
  unfold check_problem, checked_of, passes_checks, ignoring, rejection_warnings, rejection.
  fold (inputs_of env p) (outputs_of env p).
  destruct (is_dir env p); cbn [negb andb]; [|check_logged].
  destruct (str_in (name p) ascii_uppercase); cbn [negb andb]; [|check_logged].
  destruct (is_file env (joinpath p "description.html")); cbn [negb andb]; [|check_logged].
  destruct (is_dir env (joinpath p "tests")); cbn [negb andb]; [|check_logged].
  destruct (decide (length (inputs_of env p) = 0)) as [Hi|Hi].
  { rewrite bool_decide_eq_false_2 by tauto. cbn [negb andb]. check_logged. }
  rewrite (bool_decide_eq_true_2 _ Hi). cbn [negb andb].
  destruct (decide (length (outputs_of env p) = 0)) as [Ho|Ho].
  { rewrite bool_decide_eq_false_2 by tauto. cbn [negb andb]. check_logged. }
  rewrite (bool_decide_eq_true_2 _ Ho). cbn [negb andb].
  destruct (decide (stem <$> inputs_of env p ≠ stem <$> outputs_of env p)) as [Hs|Hs].
  { rewrite bool_decide_eq_false_2 by tauto. check_logged. }
  apply dec_stable in Hs. rewrite (bool_decide_eq_true_2 _ Hs).
  eexists; split; [apply logs_only_ret|]. split; [constructor|reflexivity].
Qed.

Lemma rejection_None env p : rejection env p = None ↔ passes_checks env p = true.
Proof.
  unfold rejection, passes_checks.
  destruct (is_dir env p); cbn [negb andb]; [|done].
  destruct (str_in (name p) ascii_uppercase); cbn [negb andb]; [|done].
  destruct (is_file env (joinpath p "description.html")); cbn [negb andb]; [|done].
  destruct (is_dir env (joinpath p "tests")); cbn [negb andb]; [|done].
  destruct (decide (length (inputs_of env p) = 0)) as [Hi|Hi].
  { by rewrite bool_decide_eq_false_2 by tauto. }
  rewrite (bool_decide_eq_true_2 _ Hi). cbn [negb andb].
  destruct (decide (length (outputs_of env p) = 0)) as [Ho|Ho].
  { by rewrite bool_decide_eq_false_2 by tauto. }
  rewrite (bool_decide_eq_true_2 _ Ho). cbn [negb andb].
  destruct (decide (stem <$> inputs_of env p ≠ stem <$> outputs_of env p)) as [Hs|Hs].
  { by rewrite bool_decide_eq_false_2 by tauto. }
  apply dec_stable in Hs. by rewrite (bool_decide_eq_true_2 _ Hs).
Qed.

(** ** Every way the loop over the problems can end *)

Lemma staged_mono env ps ps' x : ps ⊆ ps' → staged env ps x → staged env ps' x.
Proof. intros Hsub (p & c & Hp & Hc & Hx). exists p, c. split; [by apply Hsub|done]. Qed.

Lemma loop_outcome env pts : ∀ T A cs w t a,
  tmpdir w = Some t → wf_tree t → archivefile w = Some a → closed a = false →
  ∃ r w' t' ms l, for_fold (process_problem env) (Elem T A cs) pts w = (r, w') ∧
    log w' = log w ++ l ∧ Forall (λ r, r.1 = WARNING ∨ r.1 = DEBUG) l ∧
    tmpdir w' = Some t' ∧ wf_tree t' ∧ t ⊆ t' ∧
    bounded t (staged env pts.*1) t' ∧
    archivefile w' = Some (TarFile (members a ++ ms) false) ∧
    Forall (staged env pts.*1) ms ∧
    match r with
    | inl e => staging_exn e
    | inr root' =>
        root' = Elem T A (cs ++ manifest_entries env pts) ∧
        Forall (stageable env) (accepted env pts.*1) ∧
        NoDup (pname <$> accepted env pts.*1) ∧
        (∀ L, L ∈ pname <$> accepted env pts.*1 → t !! [L] = None) ∧
        (∀ c, c ∈ accepted env pts.*1 → problem_staged env t' c) ∧
        (∀ c, c ∈ accepted env pts.*1 → archive_holds env ms c) ∧
        ms = accepted env pts.*1 ≫= archived_objects env ∧
        filter (λ r, (levelno WARNING ≤ levelno r.1)%nat) l = pts.*1 ≫= rejection_warnings env
    end.
Proof.
  induction pts as [|[p tm] pts IH]; intros T A cs w t a Ht Hwf Ha Hopen.
  - exists (inr (Elem T A cs)), w, t, [], []. rewrite !app_nil_r.
    unfold manifest_entries, accepted. simpl.
    split_and!; try done;
      first [apply bounded_refl | by (destruct a; simpl in *; subst) | by constructor
            | (intros ? HL; by apply elem_of_nil in HL)].
  - destruct (check_problem_warnings env p) as (msgs & Hlog & Hlv & Hwarn).
    rewrite fmap_cons. simpl fst.
    assert (∀ x, staged env pts.*1 x → staged env (p :: pts.*1) x) as Hmono.
    { intros x. apply staged_mono. intros y Hy. by right. }
    cbn [for_fold]. unfold process_problem at 1. simpl fst; simpl snd.
    destruct (checked_of env p) as [c|] eqn:Hc.
    + destruct (checked_of_props env p c Hc) as [Hname Hok].
      destruct (stage_problem_outcome env c tm T A cs (add_log msgs w) t a
                  Ht Hwf Ha Hopen Hname Hok)
        as (r1 & w1 & t1 & ms1 & Hrun & Hl1 & Ht1 & Hwf1 & Hs1 & Hb1 & Ha1 & Hms1 & Hr1).
      assert (∀ y, y ∈ problem_objects env c → staged env (p :: pts.*1) y) as Hst1.
      { intros y Hy. exists p, c. split; [by left|done]. }
      assert ((c0 ← check_problem env p;
               match c0 with
               | Some c1 => stage_problem env c1 tm (Elem T A cs)
               | None => mret (Elem T A cs)
               end) w = (r1, w1)) as Hpp.
      { rewrite (bind_inr _ _ _ _ _ (Hlog w)). exact Hrun. }
      destruct r1 as [e|root1].
      { destruct Hr1 as [He ->].
        exists (inl e), w1, t1, [], msgs. split_and!; try done.
        - by rewrite (bind_inl _ _ _ _ _ Hpp).
        - eapply bounded_trans; [apply bounded_refl|exact Hb1|done|done]. }
      destruct Hr1 as (-> & Hstc & Hfresh & -> & Hsorted & Hstaged).
      destruct (IH T A (cs ++ [problem_entry c tm]) w1 t1 _ Ht1 Hwf1 Ha1 eq_refl)
        as (r & w' & t' & ms & l & Hrun' & Hl' & Hlv' & Ht' & Hwf' & Hs' & Hb' & Ha' & Hms' & Hr').
      exists r, w', t', (tree_members t1 [pname c] [pname c] ++ ms), (msgs ++ l).
      split_and!; try done.
      * by rewrite (bind_inr _ _ _ _ _ Hpp).
      * rewrite Hl', Hl1. unfold add_log. simpl. by rewrite app_assoc.
      * by apply Forall_app.
      * by etrans.
      * eapply bounded_trans; [exact Hb1|exact Hb'|done|done].
      * simpl in Ha'. by rewrite Ha', <- app_assoc.
      * apply Forall_app. split; [|by eapply Forall_impl].
        apply Forall_forall. intros y Hy. by apply Hst1, Hms1.
      * destruct r as [e|root']; [done|].
        destruct Hr' as (-> & Hall & Hnd & Hfr & Hstd & Hah & Hms & Hfil).
        assert (filter (λ r, (levelno WARNING ≤ levelno r.1)%nat) (msgs ++ l)
                = (p :: pts.*1) ≫= rejection_warnings env) as Hfinal.
        { by rewrite filter_app, Hwarn, Hfil. }
        unfold accepted, manifest_entries in *. simpl. rewrite Hc. simpl.
        split_and!.
        -- by rewrite <- app_assoc.
        -- by constructor.
        -- constructor; [|done]. intros Hin. specialize (Hfr _ Hin).
           destruct Hstaged as (HL & _). congruence.
        -- intros L [->|HL]%elem_of_cons; [done|].
           eapply lookup_weaken_None; [by apply Hfr|done].
        -- intros c' [->|Hc']%elem_of_cons; [|by apply Hstd].
           destruct Hstaged as (H1 & H2 & H3). split_and!.
           ++ by eapply lookup_weaken.
           ++ by eapply lookup_weaken.
           ++ intros x Hx. destruct (H3 x Hx) as (X1 & X2 & X3).
              split_and!; by eapply lookup_weaken.
        -- intros c' [->|Hc']%elem_of_cons; apply archive_holds_app.
           ++ left. by apply problem_staged_archive_holds.
           ++ right. by apply Hah.
        -- by rewrite Hsorted, Hms.
        -- exact Hfinal.
    + assert ((c0 ← check_problem env p;
               match c0 with
               | Some c1 => stage_problem env c1 tm (Elem T A cs)
               | None => mret (Elem T A cs)
               end) w = (inr (Elem T A cs), add_log msgs w)) as Hpp.
      { by rewrite (bind_inr _ _ _ _ _ (Hlog w)). }
      destruct (IH T A cs (add_log msgs w) t a Ht Hwf Ha Hopen)
        as (r & w' & t' & ms & l & Hrun' & Hl' & Hlv' & Ht' & Hwf' & Hs' & Hb' & Ha' & Hms' & Hr').
      exists r, w', t', ms, (msgs ++ l). split_and!; try done.
      * by rewrite (bind_inr _ _ _ _ _ Hpp).
      * rewrite Hl'. unfold add_log. simpl. by rewrite app_assoc.
      * by apply Forall_app.
      * eapply bounded_trans; [apply bounded_refl|exact Hb'|done|done].
      * by eapply Forall_impl.
      * destruct r as [e|root']; [done|].
        destruct Hr' as (-> & Hall & Hnd & Hfr & Hstd & Hah & Hms & Hfil).
        assert (filter (λ r, (levelno WARNING ≤ levelno r.1)%nat) (msgs ++ l)
                = (p :: pts.*1) ≫= rejection_warnings env) as Hfinal.
        { by rewrite filter_app, Hwarn, Hfil. }
        unfold accepted, manifest_entries in *. simpl. rewrite Hc. simpl.
        split_and!; try done.
Qed.

(** ** Every way the manifest step can end *)

Lemma write_manifest_outcome env root w t a :
  tmpdir w = Some t → wf_tree t → archivefile w = Some a → closed a = false →
  ∃ r w' l, write_manifest env root w = (r, w') ∧
    log w' = log w ++ l ∧ Forall (λ r, r.1 = DEBUG) l ∧
    match r with
    | inl e =>
        staging_exn e ∧ archivefile w' = archivefile w ∧
        (t !! ["Content.xml"] ≠ Some ODir →
         e = UnicodeDecodeError ∧ text_lines env (ET_tostring root) = None)
    | inr _ =>
        archivefile w' = Some (TarFile
          (members a ++ [(["Content.xml"], OFile (ET_tostring root))]) true) ∧
        is_Some (text_lines env (ET_tostring root)) ∧
        t !! ["Content.xml"] ≠ Some ODir
    end.
Proof.
  intros Ht Hwf Ha Hopen. unfold write_manifest.
  destruct (open_wb ["Content.xml"] w) as [[e|[]] w1] eqn:Ho.
  { rewrite (bind_inl _ _ _ _ _ Ho).
    apply open_wb_fails in Ho as Hf. destruct Hf as [-> He].
    exists (inl e), w, []. rewrite app_nil_r. split_and!; try done.
    intros Hnd. exfalso. unfold open_wb in Ho. rewrite Ht in Ho.
    change (resolve ["Content.xml"]) with ["Content.xml"] in Ho.
    unfold parent_error in Ho. simpl in Ho. destruct Hwf as [Hroot _]. rewrite Hroot in Ho.
    destruct (t !! ["Content.xml"]) as [[|d]|]; done. }
  rewrite (bind_inr _ _ _ _ _ Ho).
  apply open_wb_inv in Ho as (t0 & Ht0 & Hnd & _ & ->).
  rewrite Ht in Ht0. injection Ht0 as <-.
  change (resolve ["Content.xml"]) with ["Content.xml"] in *.
  set (t' := <[["Content.xml"] := OFile (ET_tostring root)]> t).
  assert (wf_tree t') as Hwf'.
  { apply wf_tree_insert; [done|apply Hwf|].
    destruct (t !! ["Content.xml"]) as [[|d]|] eqn:E; [done|right; left|left]; eauto. }
  rewrite (bind_inr _ _ _ _ _ (logs_only_logging _ _ _)).
  match goal with |- context [mbind ?k (file_write ?p ?d) ?w1] =>
    rewrite (bind_inr _ k w1 _ _ (file_write_run p d w1 _ eq_refl)) end.
  change (resolve ["Content.xml"]) with ["Content.xml"].
  rewrite insert_insert_eq. fold t'.
  unfold log_contents at 1.
  unfold mbind at 1, M_bind at 1.
  match goal with |- context [mbind ?k (open_r ?p) ?w1] =>
    rewrite (bind_inr _ k w1 _ _
               (open_r_run p (ET_tostring root) w1 t' eq_refl (lookup_insert_eq _ _ _))) end.
  rewrite (bind_inr _ _ _ _ _ (logs_only_logging _ _ _)).
  unfold readlines. destruct (text_lines env (ET_tostring root)) as [ls|] eqn:Hls.
  - unfold mbind at 1, M_bind at 1, mret at 1, M_ret at 1.
    rewrite (bind_inr _ _ _ _ _ (for_fold_logging ls _)).
    unfold logging at 1.
    unfold mbind at 1, M_bind at 1.
    unfold tarfile_add. simpl. rewrite Ha, Hopen.
    change (resolve ["Content.xml"]) with ["Content.xml"].
    unfold t' at 1. rewrite lookup_insert_eq.
    rewrite (tree_members_file t' _ _ (ET_tostring root) Hwf') by apply lookup_insert_eq.
    unfold tarfile_close, set_archivefile, add_log, set_log, set_tmpdir. simpl.
    exists (inr tt). eexists.
    exists ([(DEBUG, "Using xmlfile: " +:+ xmlfile_repr env);
             (DEBUG, "Content.xml contents BEGIN")] ++
            ((DEBUG,.) <$> ls) ++ [(DEBUG, "Content.xml contents END")]).
    split; [reflexivity|]. simpl. split_and!; try done.
    + rewrite <- !app_assoc. reflexivity.
    + repeat (apply Forall_cons; split; [done|]). apply Forall_app. split.
      * apply Forall_fmap. by apply Forall_true.
      * by repeat constructor.
  - unfold mbind, M_bind, raise. simpl.
    exists (inl UnicodeDecodeError). eexists.
    exists [(DEBUG, "Using xmlfile: " +:+ xmlfile_repr env);
            (DEBUG, "Content.xml contents BEGIN")].
    split; [reflexivity|]. simpl. split_and!; try done.
    + unfold add_log, set_log. simpl. by rewrite <- !app_assoc.
    + by repeat constructor.
Qed.

(** ** Every way the timeouts can be resolved *)

Ltac levels_ok :=
  simpl; repeat (apply Forall_cons; split; [unfold below_error; simpl; auto|]);
  by apply Forall_nil.

Lemma check_ints_cases (l : list pyval) :
  (∃ ts, l = VInt <$> ts) ∨ Exists (λ v, isinstance_int v = false) l.
Proof.
  induction l as [|v l [[ts ->]|IH]].
  - left. by exists [].
  - destruct v as [i| | |]; [left; by exists (i :: ts)|right; by left..].
  - right. by right.
Qed.

(** The timeouts resolve, logging below [ERROR], or one of the two
    configuration errors is raised after its critical record, or the
    list is empty and indexing it raises. *)
Lemma resolve_timeouts_cases timeouts n :
  (∃ ts msgs, logs_only (resolve_timeouts timeouts n) ts msgs ∧ Forall below_error msgs ∧
     (n ≤ length ts)%nat ∧
     filter (λ r, (levelno WARNING ≤ levelno r.1)%nat) msgs = padding_warnings timeouts n) ∨
  (((∃ l, timeouts = VList l ∧ Exists (λ v, isinstance_int v = false) l) ∨
    (isinstance_int timeouts = false ∧ ∀ l, timeouts ≠ VList l)) ∧
   ∃ msg, ∀ w, resolve_timeouts timeouts n w
               = (inl (ValueError msg), add_log [(CRITICAL, msg)] w)) ∨
  (timeouts = VList [] ∧ n ≠ 0 ∧
   ∀ w, resolve_timeouts timeouts n w
        = (inl (IndexError "list index out of range"),
           add_log [(WARNING, "len(timeouts) != len(problems), replicating last timeout")] w)).
Proof.
  destruct timeouts as [i|s| |l].
  - left. exists (replicate n i). eexists. split_and!.
    + simpl. eapply logs_only_bind; [apply logs_only_logging|apply logs_only_ret].
    + levels_ok.
    + by rewrite length_replicate.
    + done.
  - right. left. split; [by right|by eexists].
  - right. left. split; [by right|by eexists].
  - destruct (check_ints_cases l) as [[ts ->]|Hbad].
    + pose proof (check_ints_ok ts) as Hok.
      unfold padding_warnings. rewrite length_fmap.
      destruct (decide (length ts ≠ n)) as [Hn|Hn].
      * destruct ts as [|t1 [|t2 ts]].
        -- right. right. split; [done|]. split; [simpl in Hn; lia|]. intros w.
           unfold resolve_timeouts. rewrite (bind_inr _ _ _ _ _ (Hok w)).
           rewrite decide_True by done. rewrite add_log_nil. reflexivity.
        -- left. exists (replicate n t1). eexists. split_and!.
           ++ unfold resolve_timeouts.
              eapply logs_only_bind; [exact Hok|]. rewrite decide_True by done.
              eapply logs_only_bind; [apply logs_only_logging|apply logs_only_ret].
           ++ levels_ok.
           ++ by rewrite length_replicate.
           ++ rewrite decide_False by (simpl; lia). done.
        -- left. destruct (last (t2 :: ts)) as [tl|] eqn:Hlast;
             [|by apply last_None in Hlast].
           exists ((t1 :: t2 :: ts) ++ replicate (n - length (t1 :: t2 :: ts)) tl).
           eexists. split_and!.
           ++ unfold resolve_timeouts.
              eapply logs_only_bind; [exact Hok|]. rewrite decide_True by done.
              eapply logs_only_bind; [apply logs_only_logging|].
              change (last (t1 :: t2 :: ts)) with (last (t2 :: ts)). rewrite Hlast.
              apply logs_only_ret.
           ++ levels_ok.
           ++ rewrite length_app, length_replicate. lia.
           ++ rewrite decide_True by (simpl; split; [done|lia]). done.
      * apply dec_stable in Hn. left. exists ts, ([] ++ []). split_and!.
        -- unfold resolve_timeouts.
           eapply logs_only_bind; [exact Hok|]. rewrite decide_False by (intros H; by apply H).
           apply logs_only_ret.
        -- constructor.
        -- lia.
        -- rewrite decide_False by (intros [H _]; by apply H). done.
    + right. left. split; [left; by exists l|]. eexists. intros w. unfold resolve_timeouts.
      by rewrite (bind_inl _ _ _ _ _ (check_ints_bad l Hbad w)).
Qed.

(** ** Every way a run can end *)


Lemma staged_not_manifest env ps v : ¬ staged env ps (["Content.xml"], v).
Proof.
  intros (p & c & _ & Hc & Hx). apply problem_objects_head in Hx as [rest Hx].
  apply checked_of_props in Hc as [Hname _]. simpl in Hx. injection Hx as Hx _.
  rewrite <- Hx in Hname. discriminate Hname.
Qed.

Lemma filter_warning_nil (l : list (level * string)) :
  Forall (λ r, r.1 = INFO ∨ r.1 = DEBUG) l →
  filter (λ r, (levelno WARNING ≤ levelno r.1)%nat) l = [].
Proof.
  induction 1 as [|[lv m] l Hr _ IH]; [done|].
  rewrite filter_cons, IH. simpl in Hr.
  destruct Hr as [->| ->]; (rewrite decide_False; [done|simpl; lia]).
Qed.

(** The block under the temporary directory, started on a new archive:
    every way it can end. *)
Lemma staging_outcome env ps ts w :
  archivefile w = Some (TarFile [] false) → (length ps ≤ length ts)%nat →
  ∃ r w' l ms, with_TemporaryDirectory (staging_block env ps ts) w = (r, w') ∧
    log w' = log w ++ l ∧ Forall (λ r, r.1 = WARNING ∨ r.1 = DEBUG) l ∧
    tmpdir w' = None ∧ Forall (staged env ps) ms ∧
    match r with
    | inr _ =>
        archivefile w' = Some (TarFile
          (ms ++ [(["Content.xml"],
                   OFile (ET_tostring (Elem "Problems" [("Presents", "radio")]
                     (manifest_entries env (zip ps ts)))))]) true) ∧
        Forall (stageable env) (accepted env ps) ∧
        NoDup (pname <$> accepted env ps) ∧
        is_Some (text_lines env (ET_tostring (Elem "Problems" [("Presents", "radio")]
          (manifest_entries env (zip ps ts))))) ∧
        (∀ c, c ∈ accepted env ps → archive_holds env ms c) ∧
        ms = accepted env ps ≫= archived_objects env ∧
        filter (λ r, (levelno WARNING ≤ levelno r.1)%nat) l = ps ≫= rejection_warnings env
    | inl e =>
        staging_exn e ∧ archivefile w' = Some (TarFile ms false) ∧
        (Forall (stageable env) (accepted env ps) → NoDup (pname <$> accepted env ps) →
         e = UnicodeDecodeError ∧
         text_lines env (ET_tostring (Elem "Problems" [("Presents", "radio")]
           (manifest_entries env (zip ps ts)))) = None ∧
         ∀ c, c ∈ accepted env ps → archive_holds env ms c)
    end.
Proof.
  intros Ha Hlen. unfold with_TemporaryDirectory, staging_block.
  rewrite (bind_inr _ _ _ _ _ (logs_only_logging _ _ _)).
  change (ET_set [] "Presents" "radio" (ET_Element "Problems"))
    with (Elem "Problems" [("Presents", "radio")] []).
  set (w1 := add_log _ _).
  destruct (loop_outcome env (zip ps ts) "Problems" [("Presents", "radio")] [] w1
              {[ [] := ODir ]} (TarFile [] false) eq_refl wf_tree_init Ha eq_refl)
    as (r & w2 & t2 & ms & l & Hrun & Hl & Hlv & Ht2 & Hwf2 & _ & Hb2 & Ha2 & Hms & Hr).
  rewrite (fst_zip ps ts Hlen) in *. simpl in Ha2.
  assert (t2 !! ["Content.xml"] = None) as Hfree.
  { destruct (t2 !! ["Content.xml"]) as [v|] eqn:E; [|done].
    destruct (Hb2 _ _ E) as [H|H]; [by rewrite lookup_singleton_ne in H|].
    by apply staged_not_manifest in H. }
  destruct r as [e|root].
  { rewrite (bind_inl _ _ _ _ _ Hrun).
    exists (inl e). eexists. exists ((DEBUG, "Using temporary directory: " +:+ tmpname env) :: l), ms.
    split; [reflexivity|]. simpl. split_and!; try done.
    - rewrite Hl. unfold w1, add_log, set_log. simpl. by rewrite <- app_assoc.
    - constructor; [by right|done].
    - intros Hst Hnd. exfalso.
      destruct (loop_run env (zip ps ts) "Problems" [("Presents", "radio")] [] w1
                  {[ [] := ODir ]} (TarFile [] false) eq_refl wf_tree_init Ha eq_refl)
        as (root' & w' & t' & Hrun' & _).
      + by rewrite (fst_zip ps ts Hlen).
      + by rewrite (fst_zip ps ts Hlen).
      + intros L _. by rewrite lookup_singleton_ne.
      + rewrite Hrun in Hrun'. discriminate Hrun'. }
  rewrite (bind_inr _ _ _ _ _ Hrun).
  destruct Hr as (-> & Hst & Hnd & _ & _ & Hah & Har & Hfil). simpl app.
  destruct (write_manifest_outcome env
              (Elem "Problems" [("Presents", "radio")] (manifest_entries env (zip ps ts)))
              w2 t2 (TarFile ms false) Ht2 Hwf2 Ha2 eq_refl)
    as (r & w3 & l3 & Hman & Hl3 & Hlv3 & Hr).
  rewrite Hman. exists r. eexists.
  exists ((DEBUG, "Using temporary directory: " +:+ tmpname env) :: l ++ l3), ms.
  split; [reflexivity|]. cbn [log tmpdir archivefile set_tmpdir].
  assert (log w3 = log w ++ (DEBUG, "Using temporary directory: " +:+ tmpname env) :: l ++ l3)
    as Hlog.
  { rewrite Hl3, Hl. unfold w1, add_log, set_log. simpl. by rewrite <- !app_assoc. }
  assert (Forall (λ r, r.1 = WARNING ∨ r.1 = DEBUG)
            ((DEBUG, "Using temporary directory: " +:+ tmpname env) :: l ++ l3)) as Hlevels.
  { constructor; [by right|]. apply Forall_app. split; [done|].
    eapply Forall_impl; [exact Hlv3|]. intros x Hx. by right. }
  destruct r as [e|[]].
  - destruct Hr as (He & Ha3 & Hdec). split_and!; try done.
    + by rewrite Ha3.
    + intros _ _. destruct Hdec as [-> Hnone]; [by rewrite Hfree|]. done.
  - destruct Hr as (Ha3 & Hsome & _). split_and!; try done.
    rewrite filter_cons, decide_False by (simpl; lia).
    rewrite filter_app, Hfil, (filter_warning_nil l3), app_nil_r; [done|].
    eapply Forall_impl; [exact Hlv3|]. intros x Hx. by right.
Qed.

Lemma discover_levels env problems :
  ∃ msgs, logs_only (discover env problems) (sorted_paths (problem_list env problems)) msgs ∧
    Forall (λ r, r.1 = INFO) msgs.
Proof.
  unfold discover. destruct problems as [ps|]; eexists; (split;
    [repeat first [apply logs_only_ret|apply logs_only_logging|eapply logs_only_bind]
    |simpl; by repeat constructor]).
Qed.

(** A run whose timeouts resolve is the block under the temporary
    directory, started on a new archive after records at level
    [INFO] and those of the resolution. *)
Lemma build_archive_resolved env problems timeouts ts msgs :
  logs_only (resolve_timeouts timeouts (length (problem_list env problems))) ts msgs →
  ∃ m1 m3, Forall (λ r, r.1 = INFO) m1 ∧ Forall (λ r, r.1 = INFO) m3 ∧
    ∀ w, build_archive env problems timeouts w =
    with_TemporaryDirectory
      (staging_block env (sorted_paths (problem_list env problems)) ts)
      (set_archivefile (Some (TarFile [] false)) (add_log (m1 ++ msgs ++ m3) w)).
Proof.
  intros Hr. destruct (discover_levels env problems) as (m1 & Hd & Hm1).
  exists m1, [(INFO, "Using timeouts: " +:+ join ", " (str_int <$> ts))].
  split; [done|]. split; [by repeat constructor|]. intros w.
  unfold build_archive.
  rewrite (bind_inr _ _ _ _ _ (Hd w)), length_sorted_paths.
  rewrite (bind_inr _ _ _ _ _ (Hr _)).
  rewrite (bind_inr _ _ _ _ _ (logs_only_logging _ _ _)).
  unfold mbind at 1, M_bind at 1, tarfile_open at 1.
  by rewrite !add_log_app.
Qed.

(** A run whose timeouts do not resolve ends with the exception of the
    resolution, after records at level [INFO] and those of the
    resolution, the archive and the staging directory being as they
    were. *)
Lemma build_archive_unresolved env problems timeouts e msgs :
  (∀ w, resolve_timeouts timeouts (length (problem_list env problems)) w
        = (inl e, add_log msgs w)) →
  ∃ m1, Forall (λ r, r.1 = INFO) m1 ∧
    ∀ w, build_archive env problems timeouts w = (inl e, add_log (m1 ++ msgs) w).
Proof.
  intros Hr. destruct (discover_levels env problems) as (m1 & Hd & Hm1).
  exists m1. split; [done|]. intros w. unfold build_archive.
  rewrite (bind_inr _ _ _ _ _ (Hd w)), length_sorted_paths.
  rewrite (bind_inl _ _ _ _ _ (Hr _)). by rewrite add_log_app.
Qed.

(** Every way a run of [build_archive] can end: with one of the two
    configuration errors, with the [IndexError] of an empty list of
    timeouts, or, the timeouts being resolved, as the block under the
    temporary directory ends. *)
Lemma build_archive_outcome env problems timeouts w :
  let ps := sorted_paths (problem_list env problems) in
  (((∃ l, timeouts = VList l ∧ Exists (λ v, isinstance_int v = false) l) ∨
    (isinstance_int timeouts = false ∧ ∀ l, timeouts ≠ VList l)) ∧
   ∃ msg m1, Forall (λ r, r.1 = INFO) m1 ∧
     build_archive env problems timeouts w
     = (inl (ValueError msg), add_log (m1 ++ [(CRITICAL, msg)]) w)) ∨
  (timeouts = VList [] ∧ ps ≠ [] ∧ ∃ m1, Forall (λ r, r.1 = INFO) m1 ∧
     build_archive env problems timeouts w
     = (inl (IndexError "list index out of range"),
        add_log (m1 ++ [(WARNING, "len(timeouts) != len(problems), replicating last timeout")])
          w)) ∨
  (∃ ts msgs r w' l ms,
     logs_only (resolve_timeouts timeouts (length ps)) ts msgs ∧
     (length ps ≤ length ts)%nat ∧
     build_archive env problems timeouts w = (r, w') ∧
     log w' = log w ++ l ∧ Forall below_error l ∧
     tmpdir w' = None ∧ Forall (staged env ps) ms ∧
     match r with
     | inr _ =>
         archivefile w' = Some (TarFile
           (ms ++ [(["Content.xml"],
                    OFile (ET_tostring (Elem "Problems" [("Presents", "radio")]
                      (manifest_entries env (zip ps ts)))))]) true) ∧
         can_complete env problems ts ∧
         (∀ c, c ∈ accepted env ps → archive_holds env ms c) ∧
         ms = accepted env ps ≫= archived_objects env ∧
         filter (λ r, (levelno WARNING ≤ levelno r.1)%nat) l
         = padding_warnings timeouts (length ps) ++ (ps ≫= rejection_warnings env)
     | inl e =>
         staging_exn e ∧ archivefile w' = Some (TarFile ms false) ∧
         (Forall (stageable env) (accepted env ps) → NoDup (pname <$> accepted env ps) →
          e = UnicodeDecodeError ∧
          text_lines env (ET_tostring (Elem "Problems" [("Presents", "radio")]
            (manifest_entries env (zip ps ts)))) = None ∧
          ∀ c, c ∈ accepted env ps → archive_holds env ms c)
     end).
Proof.
  intros ps.
  destruct (resolve_timeouts_cases timeouts (length (problem_list env problems)))
    as [(ts & msgs & Hr & Hlv & Hlen & Hpad)|[[Hshape [msg Hr]]|(-> & Hn & Hr)]].
  - right. right.
    destruct (build_archive_resolved env problems timeouts ts msgs Hr)
      as (m1 & m3 & Hm1 & Hm3 & Hrun). specialize (Hrun w).
    rewrite <- (length_sorted_paths (problem_list env problems)) in Hlen. fold ps in Hlen.
    destruct (staging_outcome env ps ts
                (set_archivefile (Some (TarFile [] false)) (add_log (m1 ++ msgs ++ m3) w))
                eq_refl Hlen)
      as (r & w' & l & ms & Hst & Hl & Hlevels & Ht & Hms & Hres).
    exists ts, msgs, r, w', ((m1 ++ msgs ++ m3) ++ l), ms.
    unfold ps at 1. rewrite length_sorted_paths.
    split; [done|]. split; [done|]. split; [by rewrite Hrun|].
    split; [rewrite Hl; simpl; by rewrite <- !app_assoc|].
    split.
    { rewrite !Forall_app. split_and!; try done.
      - eapply Forall_impl; [exact Hm1|]. intros x Hx. right. by left.
      - eapply Forall_impl; [exact Hm3|]. intros x Hx. right. by left.
      - eapply Forall_impl; [exact Hlevels|]. intros x [Hx|Hx]; unfold below_error; auto. }
    split; [done|]. split; [done|].
    destruct r as [e|[]]; [done|].
    destruct Hres as (Ha & Hstg & Hnd & Hdec & Hah & Har & Hfil).
    split_and!; try done.
    subst ps.
    rewrite !filter_app, Hfil, Hpad, !filter_warning_nil, app_nil_r, length_sorted_paths;
      [done|eapply Forall_impl; [eassumption|]; intros x Hx; by left..].
  - left. destruct (build_archive_unresolved env problems timeouts _ _ Hr) as (m1 & Hm1 & Hrun).
    split; [done|]. by exists msg, m1.
  - right. left. split; [done|]. split.
    { unfold ps. intros E. apply (f_equal length) in E.
      rewrite length_sorted_paths in E. simpl in E. done. }
    destruct (build_archive_unresolved env problems _ _ _ Hr) as (m1 & Hm1 & Hrun).
    by exists m1.
Qed.

(** ** What a run leaves behind *)

Lemma elem_of_sorted_paths p l : p ∈ sorted_paths l ↔ p ∈ l.
Proof. unfold sorted_paths. by rewrite merge_sort_Permutation. Qed.

Lemma staged_problem_list env problems x :
  staged env (sorted_paths (problem_list env problems)) x →
  ∃ p c, p ∈ problem_list env problems ∧ checked_of env p = Some c ∧
         x ∈ problem_objects env c.
Proof.
  intros (p & c & Hp & Hc & Hx). exists p, c. by rewrite <- elem_of_sorted_paths.
Qed.

Lemma logs_only_inj {A} (m : M A) a1 a2 m1 m2 :
  logs_only m a1 m1 → logs_only m a2 m2 → a1 = a2.
Proof. intros H1 H2. specialize (H1 w0). rewrite (H2 w0) in H1. by injection H1. Qed.

(** When the timeouts resolve, an exception comes from the block under
    the temporary directory. *)
Lemma resolved_raises_in_staging env problems timeouts ts msgs w e w' :
  logs_only (resolve_timeouts timeouts (length (problem_list env problems))) ts msgs →
  build_archive env problems timeouts w = (inl e, w') → staging_exn e.
Proof.
  intros Hres Hrun.
  destruct (build_archive_resolved env problems timeouts ts msgs Hres)
    as (m1 & m3 & _ & _ & Hrun'). specialize (Hrun' w).
  destruct (staging_outcome env (sorted_paths (problem_list env problems)) ts
              (set_archivefile (Some (TarFile [] false)) (add_log (m1 ++ msgs ++ m3) w))
              eq_refl) as (r & w1 & l & ms & Hst & _ & _ & _ & _ & Hr).
  { rewrite length_sorted_paths. eapply resolve_timeouts_length. apply (Hres w). }
  rewrite Hrun', Hst in Hrun. injection Hrun as -> _. by destruct Hr.
Qed.


(** X6. The archive of a completed run holds, before the manifest,
    nothing but the objects staged for the problems that pass the
    checks: for each of them its directory, [description.html], the
    [tests] directory and, for each test case, the directory named by
    the stem with the copies of the two files.  No other file of a
    problem directory and nothing of a rejected problem is archived, and
    what the archive file held before the run is gone. *)
Theorem X6_nothing_else_is_archived env problems timeouts w w' :
  build_archive env problems timeouts w = (inr tt, w') →
  ∃ ms manifest,
    archivefile w' = Some (TarFile (ms ++ [(["Content.xml"], OFile manifest)]) true) ∧
    ∀ k v, (k, v) ∈ ms →
      ∃ p c, p ∈ problem_list env problems ∧ checked_of env p = Some c ∧
        ((k, v) = ([pname c], ODir) ∨
         (k, v) = ([pname c; "description.html"],
                   OFile (read_bytes env (joinpath p "description.html"))) ∨
         (k, v) = ([pname c; "tests"], ODir) ∨
         ∃ inp out s, (inp, out, s) ∈ test_cases c ∧
           ((k, v) = ([pname c; "tests"; s], ODir) ∨
            (k, v) = ([pname c; "tests"; s; name inp], OFile (read_bytes env inp)) ∨
            (k, v) = ([pname c; "tests"; s; name out], OFile (read_bytes env out)))).
Proof.
  intros H.
  destruct (build_archive_outcome env problems timeouts w)
    as [(_ & msg & m1 & _ & Hrun)|[(_ & _ & m1 & _ & Hrun)
       |(ts & msgs & r & w1 & l & ms & _ & _ & Hrun & _ & _ & Ht & Hms & Hr)]];
    rewrite Hrun in H; try discriminate H.
  injection H as -> ->. destruct Hr as (Ha & _).
  exists ms. eexists. split; [exact Ha|].
  intros k v Hx. rewrite Forall_forall in Hms.
  destruct (staged_problem_list _ _ _ (Hms _ Hx)) as (p & c & Hp & Hc & Hobj).
  exists p, c. split; [done|]. split; [done|].
  apply checked_of_Some in Hc as Hc'. destruct Hc' as [_ Hceq].
  assert (descriptionfile c = joinpath p "description.html") as <- by (by rewrite Hceq).
  unfold problem_objects in Hobj. rewrite elem_of_app, list_elem_of_bind in Hobj.
  destruct Hobj as [Hobj|([[inp out] s] & Hobj & Hin)].
  - repeat (apply elem_of_cons in Hobj as [Hobj|Hobj]); auto.
    by apply elem_of_nil in Hobj.
  - right. right. right. exists inp, out, s. split; [done|].
    unfold test_objects in Hobj. simpl in Hobj.
    repeat (apply elem_of_cons in Hobj as [Hobj|Hobj]); auto.
    by apply elem_of_nil in Hobj.
Qed.

(** X14. The archive of a completed run is, member for member and in
    this order: for each problem that passes the checks, in the sorted
    order of the candidates, the objects staged for it in ascending
    order of path (a directory before what it holds, the entries of a
    directory by name); then [Content.xml]. *)
Theorem X14_archive_members_in_order env problems timeouts w w' :
  build_archive env problems timeouts w = (inr tt, w') →
  (∃ manifest,
     archivefile w' = Some (TarFile
       ((accepted env (sorted_paths (problem_list env problems)) ≫= archived_objects env)
        ++ [(["Content.xml"], OFile manifest)]) true)) ∧
  ∀ c, Sorted (λ x y, path_le x.1 y.1) (archived_objects env c) ∧
       archived_objects env c ≡ₚ problem_objects env c.
Proof.
  intros H. split.
  - destruct (build_archive_outcome env problems timeouts w)
      as [(_ & msg & m1 & _ & Hrun)|[(_ & _ & m1 & _ & Hrun)
         |(ts & msgs & r & w1 & l & ms & _ & _ & Hrun & _ & _ & Ht & Hms & Hr)]];
      rewrite Hrun in H; try discriminate H.
    injection H as -> ->. destruct Hr as (Ha & _ & _ & -> & _). by eexists.
  - intros c. unfold archived_objects. split.
    + apply (@Sorted_merge_sort _ _ _ by_path_total).
    + apply merge_sort_Permutation.
Qed.

(** X8. [build_archive] never logs at level [ERROR], and it logs at
    level [CRITICAL] only as the last record before it raises one of the
    two [ValueError]s, the record carrying the message of the
    exception: every other record is at [DEBUG], [INFO] or [WARNING]. *)
Theorem X8_levels_of_the_log env problems timeouts w :
  ∃ l, log (build_archive env problems timeouts w).2 = log w ++ l ∧
    Forall (λ r, r.1 ≠ ERROR) l ∧
    match (build_archive env problems timeouts w).1 with
    | inl (ValueError msg) => ∃ l', l = l' ++ [(CRITICAL, msg)] ∧ Forall below_error l'
    | _ => Forall below_error l
    end.
Proof.
  assert (∀ l, Forall below_error l → Forall (λ r : level * string, r.1 ≠ ERROR) l) as Hbe.
  { intros l Hl. eapply Forall_impl; [exact Hl|].
    intros [lv m] [H|[H|H]]; simpl in *; by subst. }
  destruct (build_archive_outcome env problems timeouts w)
    as [(_ & msg & m1 & Hm1 & Hrun)|[(_ & _ & m1 & Hm1 & Hrun)
       |(ts & msgs & r & w1 & l & ms & _ & _ & Hrun & Hl & Hlv & _ & _ & Hr)]];
    rewrite Hrun; simpl.
  - assert (Forall below_error m1) as Hb1.
    { eapply Forall_impl; [exact Hm1|]. intros x Hx. right. by left. }
    eexists. split; [reflexivity|]. split.
    + apply Forall_app. split; [by apply Hbe|]. by repeat constructor.
    + by exists m1.
  - eexists. split; [reflexivity|].
    assert (Forall below_error
              (m1 ++ [(WARNING, "len(timeouts) != len(problems), replicating last timeout")]))
      as Hb.
    { apply Forall_app. split.
      - eapply Forall_impl; [exact Hm1|]. intros x Hx. right. by left.
      - apply Forall_cons. split; [right; by right|by apply Forall_nil]. }
    split; [by apply Hbe|done].
  - exists l. split; [done|]. split; [by apply Hbe|].
    destruct r as [e|[]]; [|done]. destruct Hr as (He & _). by destruct e.
Qed.


(** ** The command line *)


(** The timeouts of a parsed command line resolve. *)
Lemma parsed_resolves args n :
  parsed args → ∃ ts msgs, logs_only (resolve_timeouts (arg_t args) n) ts msgs.
Proof.
  intros (_ & Ht & _).
  destruct (resolve_timeouts_cases (arg_t args) n)
    as [(ts & msgs & Hr & _)|[[Hshape _]|(Hnil & _)]]; [by eauto|exfalso..].
  - destruct Ht as [Ht|(zs & Hne & Ht)]; rewrite Ht in Hshape.
    + destruct Hshape as [(l & [=] & _)|[[=] _]].
    + destruct Hshape as [(l & [= <-] & Hex)|[_ Hl]]; [|by eapply Hl].
      apply Exists_fmap, Exists_exists in Hex as (z & _ & Hz). discriminate Hz.
  - destruct Ht as [Ht|(zs & Hne & Ht)]; rewrite Ht in Hnil; [done|].
    injection Hnil as Hnil. by apply fmap_nil_inv in Hnil.
Qed.


(** X9. With [-v error] nothing is written by the logging handler,
    however the run ends: [build_archive] logs at [CRITICAL] only with
    the configuration errors, which the command line cannot cause, and
    never at [ERROR]. *)
Theorem X9_verbosity_error_is_silent env args archive0 :
  parsed args → arg_v args = "error" → handler_output (main env args archive0) = [].
Proof.
  intros Hp Hv.
  destruct (parsed_resolves args (length (problem_list env (arg_p args))) Hp)
    as (ts & msgs & Hres).
  unfold main. rewrite Hv. simpl assoc. cbv iota.
  destruct (build_archive_outcome env (arg_p args) (arg_t args) (MkWorld [] None archive0))
    as [(_ & msg & m1 & _ & Hrun)|[(_ & _ & m1 & _ & Hrun)
       |(ts' & msgs' & r & w1 & l & ms & _ & _ & Hrun & Hl & Hlv & _)]].
  - by apply (resolved_raises_in_staging _ _ _ _ _ _ _ _ Hres) in Hrun.
  - by apply (resolved_raises_in_staging _ _ _ _ _ _ _ _ Hres) in Hrun.
  - rewrite Hrun. simpl handler_output. simpl in Hl. rewrite Hl. unfold handled.
    clear Hl Hrun. induction Hlv as [|[lv m] l Hx _ IH]; [done|].
    rewrite filter_cons, decide_False; [exact IH|].
    destruct Hx as [Hx|[Hx|Hx]]; simpl in Hx; subst lv; simpl; lia.
Qed.

(** X10. At the default verbosity, [warning], a run of [main] that
    completes has written: the warning of line 64 when the timeouts are
    a list whose length is neither one nor the number of candidate
    problems; then, for each candidate problem that fails a check, in
    the sorted order of the candidates, the warning that gives the
    reason and the warning that the problem is ignored; and nothing
    else.  Each entry is formatted as the level name, a colon, a space
    and the message. *)
Theorem X10_default_verbosity_shows_the_rejections env args archive0 :
  arg_v args = "warning" → status (main env args archive0) = inr tt →
  handler_output (main env args archive0) =
  format_record <$>
    (padding_warnings (arg_t args) (length (problem_list env (arg_p args))) ++
     (sorted_paths (problem_list env (arg_p args)) ≫= rejection_warnings env)).
Proof.
  intros Hv. unfold main. rewrite Hv. simpl assoc. cbv iota.
  destruct (build_archive_outcome env (arg_p args) (arg_t args) (MkWorld [] None archive0))
    as [(_ & msg & m1 & _ & Hrun)|[(_ & _ & m1 & _ & Hrun)
       |(ts' & msgs' & r & w1 & l & ms & _ & _ & Hrun & Hl & _ & _ & _ & Hr)]];
    rewrite Hrun; simpl status; try done.
  destruct r as [e|[]]; [done|]. intros _.
  destruct Hr as (_ & _ & _ & _ & Hfil). simpl handler_output. simpl in Hl. rewrite Hl.
  unfold handled. rewrite Hfil. by rewrite length_sorted_paths.
Qed.

(** ** Runs that raise in the block under the temporary directory *)

Lemma elem_of_accepted env ps c :
  c ∈ accepted env ps ↔ ∃ p, p ∈ ps ∧ checked_of env p = Some c.
Proof. unfold accepted. apply list_elem_of_omap. Qed.

(** X12. The manifest is read back and decoded under the encoding of the
    locale whatever the verbosity (lines 157-161).  When that decoding
    fails, on input that can otherwise be staged, [build_archive] raises
    [UnicodeDecodeError] after every problem has been added to the
    archive and before the manifest is: the archive holds the files of
    the problems, has no [Content.xml] and is not closed. *)
Theorem X12_undecodable_manifest_aborts_the_run env problems timeouts ts msgs w :
  logs_only (resolve_timeouts timeouts (length (problem_list env problems))) ts msgs →
  Forall (stageable env) (accepted env (sorted_paths (problem_list env problems))) →
  NoDup (pname <$> accepted env (sorted_paths (problem_list env problems))) →
  text_lines env (ET_tostring (Elem "Problems" [("Presents", "radio")]
    (manifest_entries env (zip (sorted_paths (problem_list env problems)) ts)))) = None →
  ∃ w' ms, build_archive env problems timeouts w = (inl UnicodeDecodeError, w') ∧
    tmpdir w' = None ∧ archivefile w' = Some (TarFile ms false) ∧
    (["Content.xml"] ∉ ms.*1) ∧
    ∀ p c, p ∈ problem_list env problems → checked_of env p = Some c →
           archive_holds env ms c.
Proof.
  intros Hres Hst Hnd Hnone.
  destruct (build_archive_outcome env problems timeouts w)
    as [(_ & msg & m1 & _ & Hrun)|[(_ & _ & m1 & _ & Hrun)
       |(ts' & msgs' & r & w1 & l & ms & Hres' & _ & Hrun & _ & _ & Ht & Hms & Hr)]].
  - by apply (resolved_raises_in_staging _ _ _ _ _ _ _ _ Hres) in Hrun.
  - by apply (resolved_raises_in_staging _ _ _ _ _ _ _ _ Hres) in Hrun.
  - rewrite length_sorted_paths in Hres'.
    pose proof (logs_only_inj _ _ _ _ _ Hres Hres') as <-.
    destruct r as [e|[]].
    + destruct Hr as (_ & Ha & Himp). destruct (Himp Hst Hnd) as (-> & _ & Hah).
      exists w1, ms. split_and!; try done.
      * intros ([k v] & Hk & Hin)%list_elem_of_fmap. simpl in Hk. subst k.
        rewrite Forall_forall in Hms. by apply Hms, staged_not_manifest in Hin.
      * intros p c Hp Hc. apply Hah, elem_of_accepted. exists p.
        by rewrite elem_of_sorted_paths.
    + destruct Hr as (_ & (_ & _ & Hsome) & _). rewrite Hnone in Hsome. by destruct Hsome.
Qed.



(** ** Test files and their stems *)

Lemma string_length_app (s t : string) :
  String.length (s +:+ t) = (String.length s + String.length t)%nat.
Proof. induction s as [|a s IH]; simpl; [done|by rewrite IH]. Qed.

Lemma substring_all (s : string) : substring 0 (String.length s) s = s.
Proof. induction s as [|a s IH]; simpl; [done|by rewrite IH]. Qed.

Lemma substring_app_l (s t : string) : substring 0 (String.length s) (s +:+ t) = s.
Proof.
  induction s as [|a s IH]; simpl; [by destruct t|by rewrite IH].
Qed.

Lemma substring_split (s : string) : ∀ k m,
  (k + m)%nat = String.length s → substring 0 k s +:+ substring k m s = s.
Proof.
  induction s as [|a s IH]; intros k m Hkm; simpl in Hkm.
  - assert (k = 0 ∧ m = 0)%nat as [-> ->] by lia. done.
  - destruct k as [|k].
    + simpl in Hkm. subst m. simpl. by rewrite substring_all.
    + simpl. change (String a (substring 0 k s +:+ substring k m s) = String a s).
      f_equal. apply IH. lia.
Qed.

(** A name that ends with [suf] is a prefix followed by [suf]. *)
Lemma endswith_split (nm suf : string) :
  endswith nm suf = true → ∃ s, nm = s +:+ suf.
Proof.
  unfold endswith. intros [Hlen Heq]%andb_true_iff.
  apply Nat.leb_le in Hlen. apply String.eqb_eq in Heq.
  exists (substring 0 (String.length nm - String.length suf) nm).
  pose proof (substring_split nm (String.length nm - String.length suf) (String.length suf)
                ltac:(lia)) as H.
  rewrite Heq in H. by symmetry.
Qed.

Lemma rfind_app c (s t : string) :
  rfind c (s +:+ t) =
  match rfind c t with
  | Some i => Some (String.length s + i)%nat
  | None => rfind c s
  end.
Proof.
  induction s as [|a s IH].
  - change ("" +:+ t) with t. simpl. by destruct (rfind c t).
  - change (String a s +:+ t) with (String a (s +:+ t)). simpl.
    rewrite IH. destruct (rfind c t); [done|]. by destruct (rfind c s).
Qed.

(** The stem of a name made of a prefix that is not empty, a dot and a
    suffix without dot that is not empty, is the prefix. *)
Lemma stem_of_name_suffix (s suf : string) :
  s ≠ "" → suf ≠ "" → rfind "." suf = None →
  stem_of_name (s +:+ String "." suf) = s.
Proof.
  intros Hs Hsuf Hdot. unfold stem_of_name. rewrite rfind_app. simpl. rewrite Hdot. simpl.
  rewrite string_length_app. simpl.
  assert (0 < String.length s)%nat as H1 by (destruct s; [done|simpl; lia]).
  assert (0 < String.length suf)%nat as H2 by (destruct suf; [done|simpl; lia]).
  replace (0 <? String.length s + 0)%nat with true by (symmetry; apply Nat.ltb_lt; lia).
  replace (String.length s + 0 <? String.length s + S (String.length suf) - 1)%nat
    with true by (symmetry; apply Nat.ltb_lt; lia).
  simpl. rewrite Nat.add_0_r. apply substring_app_l.
Qed.

(** The name of a test file against its stem. *)
Lemma name_of_stem (nm suf : string) :
  endswith nm (String "." suf) = true → suf ≠ "" → rfind "." suf = None →
  nm = stem_of_name nm +:+ String "." suf ∨
  (nm = String "." suf ∧ stem_of_name nm = String "." suf).
Proof.
  intros [s ->]%endswith_split Hsuf Hdot.
  destruct (decide (s = "")) as [->|Hs].
  - right. split; [done|]. unfold stem_of_name. simpl. by rewrite Hdot.
  - left. by rewrite stem_of_name_suffix.
Qed.

(** The test cases of a problem that passes the checks pair the sorted
    inputs and the sorted outputs by position, and both files of a pair
    have the stem of the pair. *)
Lemma test_cases_lookup env p c :
  checked_of env p = Some c →
  length (inputs_of env p) = length (outputs_of env p) ∧
  (∀ i inp out, inputs_of env p !! i = Some inp → outputs_of env p !! i = Some out →
     stem inp = stem out) ∧
  ∀ inp out s, (inp, out, s) ∈ test_cases c ↔
    ∃ i, inputs_of env p !! i = Some inp ∧ outputs_of env p !! i = Some out ∧
         stem inp = s.
Proof.
  intros [Hp ->]%checked_of_Some. unfold test_cases. simpl.
  unfold passes_checks in Hp. repeat (apply andb_true_iff in Hp as [Hp ?]).
  match goal with H : bool_decide (_ = _) = true |- _ =>
    apply bool_decide_eq_true in H; rename H into Hstems end.
  split.
  { pose proof (f_equal length Hstems) as Hlen. by rewrite !length_fmap in Hlen. }
  split.
  { intros i inp out E1 E2. pose proof (f_equal (λ l, l !! i) Hstems) as Hi'. simpl in Hi'.
    rewrite !list_lookup_fmap, E1, E2 in Hi'. simpl in Hi'. by injection Hi'. }
  intros inp out s. rewrite list_elem_of_lookup. split.
  - intros [i Hi]. exists i. rewrite !lookup_zip_with in Hi.
    destruct (inputs_of env p !! i) as [inp'|] eqn:E1; [|done]. simpl in Hi.
    destruct (outputs_of env p !! i) as [out'|] eqn:E2; [|done]. simpl in Hi.
    rewrite list_lookup_fmap, E1 in Hi. simpl in Hi. by injection Hi as <- <- <-.
  - intros (i & E1 & E2 & <-). exists i.
    rewrite !lookup_zip_with, E1, list_lookup_fmap, E1. simpl. by rewrite E2.
Qed.

(** X7. In a problem that passes the checks, the two files of a test
    case are named after its stem: the input is the stem followed by
    [.in] and the output the stem followed by [.out].  The one
    exception is a file whose whole name is [.in] or [.out]: its stem is
    its whole name. *)
Theorem X7_test_files_are_named_after_the_stem env p c inp out s :
  checked_of env p = Some c → (inp, out, s) ∈ test_cases c →
  (name inp = s +:+ ".in" ∨ (name inp = ".in" ∧ s = ".in")) ∧
  (name out = s +:+ ".out" ∨ (name out = ".out" ∧ s = ".out")).
Proof.
  intros Hc Hx. destruct (test_cases_lookup env p c Hc) as (_ & Hst & Hl).
  apply Hl in Hx as (i & E1 & E2 & Hs1).
  pose proof (Hst _ _ _ E1 E2) as Hs2. rewrite Hs1 in Hs2. symmetry in Hs2.
  apply list_elem_of_lookup_2 in E1, E2.
  apply glob_name in E1, E2. unfold stem in Hs1, Hs2. subst s. split.
  - destruct (name_of_stem (name inp) "in" E1) as [H|[H1 H2]]; [done..|by left|right].
    by split.
  - rewrite <- Hs2.
    destruct (name_of_stem (name out) "out" E2) as [H|[H1 H2]]; [done..|by left|right].
    by split.
Qed.

(** X5. No test file of a problem that passes the checks is left out:
    in a completed run, every entry of its [tests] directory whose name
    ends in [.in] or in [.out] is in the archive, with the bytes of the
    file, in the directory named by its stem. *)
Theorem X5_every_test_file_is_archived env problems timeouts w w' :
  build_archive env problems timeouts w = (inr tt, w') →
  ∃ ms manifest,
    archivefile w' = Some (TarFile (ms ++ [(["Content.xml"], OFile manifest)]) true) ∧
    ∀ p nm, p ∈ problem_list env problems → passes_checks env p = true →
      nm ∈ iterdir env (p ++ ["tests"]) →
      endswith nm ".in" = true ∨ endswith nm ".out" = true →
      ([name p; "tests"; stem_of_name nm; nm],
       OFile (read_bytes env (p ++ ["tests"; nm]))) ∈ ms.
Proof.
  intros H. apply build_archive_inv in H as (ts & ms & _ & _ & Ha & Hall).
  exists ms. eexists. split; [exact Ha|].
  intros p nm Hp Hpass Hnm Hsuf.
  destruct (checked_of env p) as [c|] eqn:Hc;
    [|unfold checked_of in Hc; by rewrite Hpass in Hc].
  destruct (Hall p c Hp Hc) as [_ Hfiles].
  destruct (test_cases_lookup env p c Hc) as (Hlen & Hst & Hl).
  apply checked_of_Some in Hc as [_ Hceq].
  assert (pname c = name p) as Hname by (by rewrite Hceq). rewrite <- Hname.
  assert (joinpath p "tests" = p ++ ["tests"]) as Hj by (by apply joinpath_proper).
  replace (p ++ ["tests"; nm]) with ((p ++ ["tests"]) ++ [nm]) by (by rewrite <- app_assoc).
  set (f := (p ++ ["tests"]) ++ [nm]).
  assert (name f = nm) as Hnf by apply name_snoc.
  assert (stem f = stem_of_name nm) as Hsf by (unfold stem; by rewrite Hnf).
  rewrite <- Hsf, <- Hnf.
  destruct Hsuf as [Hin|Hout].
  - assert (f ∈ inputs_of env p) as Hf.
    { unfold inputs_of. rewrite elem_of_sorted_paths, Hj. unfold glob.
      apply list_elem_of_fmap. exists nm. split; [done|]. by apply list_elem_of_filter. }
    apply list_elem_of_lookup in Hf as [i Hi].
    destruct (lookup_lt_is_Some_2 (outputs_of env p) i) as [out Ho].
    { rewrite <- Hlen. by eapply lookup_lt_Some. }
    assert ((f, out, stem f) ∈ test_cases c) as Hx.
    { apply Hl. by exists i. }
    by destruct (Hfiles _ Hx) as [H1 _].
  - assert (f ∈ outputs_of env p) as Hf.
    { unfold outputs_of. rewrite elem_of_sorted_paths, Hj. unfold glob.
      apply list_elem_of_fmap. exists nm. split; [done|]. by apply list_elem_of_filter. }
    apply list_elem_of_lookup in Hf as [i Hi].
    destruct (lookup_lt_is_Some_2 (inputs_of env p) i) as [inp Ho].
    { rewrite Hlen. by eapply lookup_lt_Some. }
    assert ((inp, f, stem f) ∈ test_cases c) as Hx.
    { apply Hl. exists i. split; [done|]. split; [done|]. by eapply Hst. }
    by destruct (Hfiles _ Hx) as [_ H2].
Qed.

(** ** Timeouts in surplus *)

(** X1. A list with more timeouts than there are problems is accepted
    (unless it is a single timeout for no problem): the warning of line
    64 is logged although nothing is replicated, the list is kept as it
    is, and the loop of line 79 pairs the problems with the first
    timeouts; the timeouts in surplus are dropped without a word. *)
Theorem X1_surplus_timeouts_are_dropped (n : nat) (ts : list pyint) :
  (n < length ts)%nat → (1 < length ts)%nat →
  logs_only (resolve_timeouts (VList (VInt <$> ts)) n) ts
    [(WARNING, "len(timeouts) != len(problems), replicating last timeout")] ∧
  ∀ ps : list Path, length ps = n →
    length (zip ps ts) = n ∧ zip ps ts = zip ps (take n ts).
Proof.
  intros Hn H1. split.
  - unfold resolve_timeouts.
    apply (logs_only_bind _ _ ts ts [] _ (check_ints_ok ts)).
    rewrite decide_True by lia.
    destruct ts as [|t1 [|t2 ts]]; [simpl in H1; lia..|].
    apply (logs_only_bind _ _ tt _ [_] [] (logs_only_logging _ _)).
    destruct (last (t1 :: t2 :: ts)) as [tl|] eqn:Hlast; [|by apply last_None in Hlast].
    replace (n - length (t1 :: t2 :: ts))%nat with 0%nat by lia.
    simpl replicate. rewrite app_nil_r. apply logs_only_ret.
  - intros ps Hps. split.
    + rewrite length_zip_with. lia.
    + rewrite <- Hps. by rewrite zip_with_take_r.
Qed.

(** ** The theorems at concrete inputs *)

Lemma X1_surplus_timeouts_witness :
  logs_only (resolve_timeouts (VList (VInt <$> [PInt 3; PInt 7])) 1) [PInt 3; PInt 7]
    [(WARNING, "len(timeouts) != len(problems), replicating last timeout")] ∧
  ∀ ps : list Path, length ps = 1 →
    length (zip ps [PInt 3; PInt 7]) = 1 ∧
    zip ps [PInt 3; PInt 7] = zip ps (take 1 [PInt 3; PInt 7]).
Proof. apply (X1_surplus_timeouts_are_dropped 1 [PInt 3; PInt 7]); simpl; lia. Defined.




Lemma X5_every_test_file_witness :
  ∃ ms manifest,
    archivefile run_AB.2 = Some (TarFile (ms ++ [(["Content.xml"], OFile manifest)]) true) ∧
    ∀ p nm, p ∈ problem_list (env_of cwd_AB) None →
      passes_checks (env_of cwd_AB) p = true →
      nm ∈ iterdir (env_of cwd_AB) (p ++ ["tests"]) →
      endswith nm ".in" = true ∨ endswith nm ".out" = true →
      ([name p; "tests"; stem_of_name nm; nm],
       OFile (read_bytes (env_of cwd_AB) (p ++ ["tests"; nm]))) ∈ ms.
Proof.
  apply (X5_every_test_file_is_archived (env_of cwd_AB) None (VInt (PInt 5)) w0 run_AB.2).
  vm_compute. reflexivity.
Defined.

Lemma X6_nothing_else_witness :
  ∃ ms manifest,
    archivefile run_AB.2 = Some (TarFile (ms ++ [(["Content.xml"], OFile manifest)]) true) ∧
    ∀ k v, (k, v) ∈ ms →
      ∃ p c, p ∈ problem_list (env_of cwd_AB) None ∧
        checked_of (env_of cwd_AB) p = Some c ∧
        ((k, v) = ([pname c], ODir) ∨
         (k, v) = ([pname c; "description.html"],
                   OFile (read_bytes (env_of cwd_AB) (joinpath p "description.html"))) ∨
         (k, v) = ([pname c; "tests"], ODir) ∨
         ∃ inp out s, (inp, out, s) ∈ test_cases c ∧
           ((k, v) = ([pname c; "tests"; s], ODir) ∨
            (k, v) = ([pname c; "tests"; s; name inp],
                      OFile (read_bytes (env_of cwd_AB) inp)) ∨
            (k, v) = ([pname c; "tests"; s; name out],
                      OFile (read_bytes (env_of cwd_AB) out)))).
Proof.
  apply (X6_nothing_else_is_archived (env_of cwd_AB) None (VInt (PInt 5)) w0 run_AB.2).
  vm_compute. reflexivity.
Defined.

Lemma X14_archive_members_witness :
  (∃ manifest,
     archivefile run_AB.2 = Some (TarFile
       ((accepted (env_of cwd_AB) (sorted_paths (problem_list (env_of cwd_AB) None))
           ≫= archived_objects (env_of cwd_AB))
        ++ [(["Content.xml"], OFile manifest)]) true)) ∧
  ∀ c, Sorted (λ x y, path_le x.1 y.1) (archived_objects (env_of cwd_AB) c) ∧
       archived_objects (env_of cwd_AB) c ≡ₚ problem_objects (env_of cwd_AB) c.
Proof.
  apply (X14_archive_members_in_order (env_of cwd_AB) None (VInt (PInt 5)) w0 run_AB.2).
  vm_compute. reflexivity.
Defined.

Lemma X7_test_files_witness :
  (name ["A"; "tests"; "1.in"] = "1" +:+ ".in" ∨
   (name ["A"; "tests"; "1.in"] = ".in" ∧ "1" = ".in")) ∧
  (name ["A"; "tests"; "1.out"] = "1" +:+ ".out" ∨
   (name ["A"; "tests"; "1.out"] = ".out" ∧ "1" = ".out")).
Proof.
  apply (X7_test_files_are_named_after_the_stem (env_of cwd_AB) ["A"]
           (Checked "A" ["A"; "description.html"] [["A"; "tests"; "1.in"]]
              [["A"; "tests"; "1.out"]] ["1"])).
  - vm_compute. reflexivity.
  - vm_compute. by left.
Defined.

Lemma X9_verbosity_error_witness :
  handler_output (main (env_of cwd_lowercase)
                    (MkNamespace None (VInt (PInt 1)) ["problems.tar.gz"] "error") None) = [].
Proof.
  apply (X9_verbosity_error_is_silent (env_of cwd_lowercase)
           (MkNamespace None (VInt (PInt 1)) ["problems.tar.gz"] "error") None).
  - split; [by left|]. split; [by left|]. simpl. do 3 right. by left.
  - reflexivity.
Defined.

Lemma X10_default_verbosity_witness :
  handler_output (main (env_of cwd_lowercase)
                    (MkNamespace None (VInt (PInt 1)) ["problems.tar.gz"] "warning") None) =
  format_record <$>
    (padding_warnings (VInt (PInt 1)) (length (problem_list (env_of cwd_lowercase) None)) ++
     (sorted_paths (problem_list (env_of cwd_lowercase) None)
        ≫= rejection_warnings (env_of cwd_lowercase))).
Proof.
  apply (X10_default_verbosity_shows_the_rejections (env_of cwd_lowercase)
           (MkNamespace None (VInt (PInt 1)) ["problems.tar.gz"] "warning") None).
  - reflexivity.
  - vm_compute. reflexivity.
Defined.

Lemma X12_undecodable_manifest_witness :
  ∃ w' ms,
    build_archive env_undecodable None (VInt (PInt 5)) w0 = (inl UnicodeDecodeError, w') ∧
    tmpdir w' = None ∧ archivefile w' = Some (TarFile ms false) ∧
    (["Content.xml"] ∉ ms.*1) ∧
    ∀ p c, p ∈ problem_list env_undecodable None → checked_of env_undecodable p = Some c →
           archive_holds env_undecodable ms c.
Proof.
  apply (X12_undecodable_manifest_aborts_the_run env_undecodable None (VInt (PInt 5))
           [PInt 5; PInt 5]
           [(INFO, "timeouts is a single value, using as default for all problems")] w0).
  - intros w. reflexivity.
  - change (accepted env_undecodable (sorted_paths (problem_list env_undecodable None)))
      with [Checked "A" ["A"; "description.html"] [["A"; "tests"; "1.in"]]
              [["A"; "tests"; "1.out"]] ["1"];
            Checked "B" ["B"; "description.html"] [["B"; "tests"; "1.in"]]
              [["B"; "tests"; "1.out"]] ["1"]].
    repeat constructor; try discriminate; apply not_elem_of_nil.
  - change (pname <$> accepted env_undecodable
                        (sorted_paths (problem_list env_undecodable None)))
      with ["A"; "B"].
    apply NoDup_cons. split; [|apply NoDup_singleton].
    intros H%list_elem_of_singleton. discriminate H.
  - reflexivity.
Defined.

(** ** Runs from different worlds *)




















